(** * CloudWatch-to-Logz.io shipper: the per-batch record pipeline

  A shallow embedding of [python3/cloudwatch/src/lambda_function.py] and the
  properties its specification states about it.

  Conventions of the embedding.
  - A Python [str] is a [string]: a sequence of 8-bit characters, read as the
    code points 0..255.  [bytes] values are strings as well.
  - A Python object that came out of [json.loads] is a [value].  A float is
    carried by its [repr] text, since nothing here computes with floats.
  - A Python [dict] that the code mutates (a log record, the enrichment data)
    is a finite map [gmap string value]; mutation is explicit state passing.
  - A call that may raise returns a [result]; [Raise e] stands for the
    exception [e] leaving the function.
  - The shipper is a black box with two methods, so an invocation is
    observed through the list of calls made on it.  Calls on [logger] are
    left out: nothing here observes them.
  - [os.environ] is a finite map from names to strings, an argument of the
    functions that read it. *)

From Stdlib Require Import ZArith Ascii String List Lia DecimalString.
From stdpp Require Import base option gmap strings list.

Local Open Scope Z_scope.
Local Open Scope nat_scope.
Local Set Warnings "-register-all".

(** ** Exceptions and results *)

(** The exception classes that occur in, or pass through, this module. *)
Inductive exn : Type :=
  | KeyError (key : string)
  | IndexError
  | TypeError
  | AttributeError
  | ValueError (msg : string)
  | BinasciiError            (* binascii.Error, a ValueError *)
  | JSONDecodeError          (* json.JSONDecodeError, a ValueError *)
  | UnicodeDecodeError       (* a ValueError *)
  | BadGzipFile              (* gzip.BadGzipFile, an OSError *)
  | EOFError
  | ZlibError.               (* zlib.error *)

(** [isinstance(e, ValueError)] *)
Definition is_ValueError (e : exn) : bool :=
  match e with
  | ValueError _ | BinasciiError | JSONDecodeError | UnicodeDecodeError => true
  | _ => false
  end.

(** [isinstance(e, KeyError)] *)
Definition is_KeyError (e : exn) : bool :=
  match e with KeyError _ => true | _ => false end.

Inductive result (A : Type) : Type :=
  | Ok (a : A)
  | Raise (e : exn).
Arguments Ok {A} a.
Arguments Raise {A} e.

Global Instance result_ret : MRet result := @Ok.
Global Instance result_bind : MBind result := fun A B f m =>
  match m with
  | Ok a => f a
  | Raise e => Raise e
  end.

Definition raises {A} (m : result A) : Prop :=
  match m with Ok _ => False | Raise _ => True end.

Definition returns {A} (m : result A) : Prop :=
  match m with Ok _ => True | Raise _ => False end.

(** ** Python strings *)

Module Str.

Fixpoint drop (n : nat) (s : string) : string :=
  match n, s with
  | S n', String _ s' => drop n' s'
  | _, _ => s
  end.

Fixpoint take (n : nat) (s : string) : string :=
  match n, s with
  | S n', String c s' => String c (take n' s')
  | _, _ => EmptyString
  end.

(** [s[a:b]] for indices that are not negative *)
Definition slice (a b : nat) (s : string) : string := take (b - a) (drop a s).

(** [s.index(c)]: the first position of [c], [None] for the ValueError *)
Fixpoint index (c : ascii) (s : string) : option nat :=
  match s with
  | EmptyString => None
  | String d s' => if Ascii.eqb d c then Some 0 else S <$> index c s'
  end.

(** [s.split(c)] for a one-character separator *)
Fixpoint split (c : ascii) (s : string) : list string :=
  match s with
  | EmptyString => [EmptyString]
  | String d s' =>
      if Ascii.eqb d c then EmptyString :: split c s'
      else match split c s' with
           | p :: ps => String d p :: ps
           | [] => [String d EmptyString]
           end
  end.

(** [s.startswith(p)] *)
Fixpoint startswith (p s : string) : bool :=
  match p, s with
  | EmptyString, _ => true
  | String a p', String b s' => Ascii.eqb a b && startswith p' s'
  | String _ _, EmptyString => false
  end.

(** [p in s] for strings *)
Fixpoint contains (p s : string) : bool :=
  startswith p s ||
  match s with
  | EmptyString => false
  | String _ s' => contains p s'
  end.

Definition in_range (lo hi : N) (c : ascii) : bool :=
  (N.leb lo (N_of_ascii c) && N.leb (N_of_ascii c) hi)%N.

(** [c.lower()] on the code points 0..255: the ASCII capitals and the
    Latin-1 capitals (all of 192..222 but the multiplication sign). *)
Definition lower_char (c : ascii) : ascii :=
  if in_range 65 90 c || (in_range 192 222 c && negb (N.eqb (N_of_ascii c) 215))
  then ascii_of_N (N_of_ascii c + 32)
  else c.

Fixpoint lower (s : string) : string :=
  match s with
  | EmptyString => EmptyString
  | String c s' => String (lower_char c) (lower s')
  end.

Fixpoint concat (l : list string) : string :=
  match l with
  | [] => EmptyString
  | s :: l' => s +:+ concat l'
  end.

(** [sep.join(l)] *)
Fixpoint join (sep : string) (l : list string) : string :=
  match l with
  | [] => EmptyString
  | [s] => s
  | s :: l' => s +:+ sep +:+ join sep l'
  end.

Definition of_Z (n : Z) : string := NilZero.string_of_int (Z.to_int n).

End Str.

(** ** Python values *)

Inductive value : Type :=
  | VNone
  | VBool (b : bool)
  | VInt (n : Z)
  | VFloat (repr : string)
  | VStr (s : string)
  | VList (l : list value)
  | VDict (items : list (string * value)).

Definition is_dict (v : value) : bool :=
  match v with VDict _ => true | _ => false end.

Definition is_str (v : value) : bool :=
  match v with VStr _ => true | _ => false end.

Module Repr.

Definition hex_digit (n : N) : ascii :=
  if (n <? 10)%N then ascii_of_N (48 + n) else ascii_of_N (87 + n).

Definition printable (c : ascii) : bool :=
  negb (Str.in_range 0 31 c || Str.in_range 127 160 c || N.eqb (N_of_ascii c) 173).

Definition has_char (c : ascii) (s : string) : bool :=
  match Str.index c s with Some _ => true | None => false end.

(** the quote [repr] puts around a string *)
Definition quote_of (s : string) : ascii :=
  if has_char "'" s && negb (has_char "034" s) then "034"%char else "'"%char.

Definition escape_char (q c : ascii) : string :=
  if Ascii.eqb c q || Ascii.eqb c "\" then String "\" (String c EmptyString)
  else if Ascii.eqb c "009" then "\t"
  else if Ascii.eqb c "010" then "\n"
  else if Ascii.eqb c "013" then "\r"
  else if printable c then String c EmptyString
  else String "\" (String "x"
         (String (hex_digit (N_of_ascii c / 16))
            (String (hex_digit (N_of_ascii c mod 16)) EmptyString))).

Fixpoint escape (q : ascii) (s : string) : string :=
  match s with
  | EmptyString => EmptyString
  | String c s' => escape_char q c +:+ escape q s'
  end.

Definition of_str (s : string) : string :=
  let q := quote_of s in String q (escape q s +:+ String q EmptyString).

(** [repr(v)] *)
Fixpoint of_value (v : value) : string :=
  match v with
  | VNone => "None"
  | VBool true => "True"
  | VBool false => "False"
  | VInt n => Str.of_Z n
  | VFloat r => r
  | VStr s => of_str s
  | VList l => "[" +:+ Str.join ", " (map of_value l) +:+ "]"
  | VDict d =>
      "{" +:+ Str.join ", "
                (map (fun kv => of_str (fst kv) +:+ ": " +:+ of_value (snd kv)) d)
          +:+ "}"
  end.

End Repr.

(** [str(v)] *)
Definition py_str (v : value) : string :=
  match v with
  | VStr s => s
  | _ => Repr.of_value v
  end.

(** ** Regular expressions

    The part of Python's [re] that [IP_PATTERN] uses: literals and character
    sets, sequence, ordered alternation, greedy counted repetition (bounded
    over any pattern, open-ended over a character set), and the two negative
    look-arounds on one character.  The matcher is the usual
    backtracking one: alternatives are tried left to right, a repetition first
    tries one more round, and the first way to reach the end of the pattern
    wins.  [re.IGNORECASE] shows in [RLit], which accepts either case; the sets
    of the pattern either hold both cases already or hold digits only. *)

Module Re.

Inductive citem : Type :=
  | CChar (c : ascii)
  | CRange (lo hi : ascii)
  | CWord.                                   (* \w *)

(** [\w] on the code points 0..255: letters, digits, the underscore, and the
    Latin-1 characters that [str.isalnum] accepts. *)
Definition is_word (c : ascii) : bool :=
  Str.in_range 48 57 c || Str.in_range 65 90 c || Str.in_range 97 122 c
  || N.eqb (N_of_ascii c) 95
  || N.eqb (N_of_ascii c) 170 || Str.in_range 178 179 c
  || N.eqb (N_of_ascii c) 181 || Str.in_range 185 186 c
  || Str.in_range 188 190 c || Str.in_range 192 214 c
  || Str.in_range 216 246 c || Str.in_range 248 255 c.

Definition citem_has (i : citem) (c : ascii) : bool :=
  match i with
  | CChar d => Ascii.eqb c d
  | CRange lo hi => Str.in_range (N_of_ascii lo) (N_of_ascii hi) c
  | CWord => is_word c
  end.

Definition in_set (cs : list citem) (c : ascii) : bool :=
  existsb (fun i => citem_has i c) cs.

Inductive regex : Type :=
  | RLit (c : ascii)
  | RSet (cs : list citem)
  | RSeq (r1 r2 : regex)
  | RAlt (r1 r2 : regex)
  | RRep (lo hi : nat) (r : regex)           (* r{lo,hi} *)
  | RMin (lo : nat) (cs : list citem)        (* [cs]{lo,} *)
  | RNotBehind (cs : list citem)             (* (?<![cs]) *)
  | RNotAhead (cs : list citem).             (* (?![cs]) *)

(** Where the matcher stands: the character just before, and the text ahead. *)
Definition cursor : Type := option ascii * string.

Definition lit_eq (p c : ascii) : bool :=
  Ascii.eqb (Str.lower_char c) (Str.lower_char p).

Definition not_in_set (cs : list citem) (o : option ascii) : bool :=
  match o with
  | Some c => negb (in_set cs c)
  | None => true
  end.

Definition next_char (s : string) : option ascii :=
  match s with
  | String c _ => Some c
  | EmptyString => None
  end.

Definition step (ok : ascii -> bool) (cur : cursor)
    (k : cursor -> option cursor) : option cursor :=
  match snd cur with
  | String c s' => if ok c then k (Some c, s') else None
  | EmptyString => None
  end.

(** [rep body lo hi cur k]: between [lo] and [hi] rounds of [body], as many
    as possible first, then go on with [k] *)
Fixpoint rep (body : cursor -> (cursor -> option cursor) -> option cursor)
    (lo hi : nat) (cur : cursor) (k : cursor -> option cursor)
    {struct hi} : option cursor :=
  match hi with
  | 0 => match lo with 0 => k cur | S _ => None end
  | S hi' =>
      match body cur (fun cur' => rep body (pred lo) hi' cur' k) with
      | Some e => Some e
      | None => match lo with 0 => k cur | S _ => None end
      end
  end.

(** [run r cur k]: match [r] at [cur], then go on with [k]; the answer is the
    cursor where the whole match ends.  The open-ended repetition is over a
    character set, so it has no more rounds than there are characters ahead. *)
Fixpoint run (r : regex) (cur : cursor) (k : cursor -> option cursor)
    {struct r} : option cursor :=
  match r with
  | RLit p => step (lit_eq p) cur k
  | RSet cs => step (in_set cs) cur k
  | RSeq r1 r2 => run r1 cur (fun cur' => run r2 cur' k)
  | RAlt r1 r2 =>
      match run r1 cur k with
      | Some e => Some e
      | None => run r2 cur k
      end
  | RRep lo hi r' => rep (run r') lo hi cur k
  | RMin lo cs => rep (step (in_set cs)) lo (lo + String.length (snd cur)) cur k
  | RNotBehind cs => if not_in_set cs (fst cur) then k cur else None
  | RNotAhead cs => if not_in_set cs (next_char (snd cur)) then k cur else None
  end.

(** [pattern.match(text, pos)]: the length of the match at the cursor *)
Definition match_at (r : regex) (cur : cursor) : option nat :=
  match run r cur Some with
  | Some e => Some (String.length (snd cur) - String.length (snd e))
  | None => None
  end.

(** [pattern.finditer(text)] as the list of [(m.start(), m.end())].  [skip]
    counts the characters still inside the match found last; a new match is
    looked for at every other position, from left to right. *)
Fixpoint spans_from (r : regex) (s : string) (skip pos : nat)
    (prev : option ascii) {struct s} : list (nat * nat) :=
  match skip with
  | S skip' =>
      match s with
      | String c s' => spans_from r s' skip' (S pos) (Some c)
      | EmptyString => []
      end
  | 0 =>
      match match_at r (prev, s) with
      | Some len =>
          (pos, pos + len) ::
          match s with
          | String c s' => spans_from r s' (pred len) (S pos) (Some c)
          | EmptyString => []
          end
      | None =>
          match s with
          | String c s' => spans_from r s' 0 (S pos) (Some c)
          | EmptyString => []
          end
      end
  end.

Definition finditer (r : regex) (s : string) : list (nat * nat) :=
  spans_from r s 0 0 None.

(** What a regex matches, apart from the matcher: [matches r prev w rest]
    says that [r] matches the text [w] when [prev] is the character before it
    and [rest] is the text after it.  [last_char prev w] is the character
    before the position reached after [w]. *)
Fixpoint last_char (prev : option ascii) (w : string) : option ascii :=
  match w with
  | EmptyString => prev
  | String c w' => last_char (Some c) w'
  end.

Inductive matches : regex -> option ascii -> string -> string -> Prop :=
  | M_lit p c prev rest :
      lit_eq p c = true -> matches (RLit p) prev (String c EmptyString) rest
  | M_set cs c prev rest :
      in_set cs c = true -> matches (RSet cs) prev (String c EmptyString) rest
  | M_seq r1 r2 prev w1 w2 rest :
      matches r1 prev w1 (w2 +:+ rest) ->
      matches r2 (last_char prev w1) w2 rest ->
      matches (RSeq r1 r2) prev (w1 +:+ w2) rest
  | M_alt_l r1 r2 prev w rest :
      matches r1 prev w rest -> matches (RAlt r1 r2) prev w rest
  | M_alt_r r1 r2 prev w rest :
      matches r2 prev w rest -> matches (RAlt r1 r2) prev w rest
  | M_rep_stop hi r prev rest :
      matches (RRep 0 hi r) prev EmptyString rest
  | M_rep_more lo hi r prev w1 w2 rest :
      matches r prev w1 (w2 +:+ rest) ->
      matches (RRep (pred lo) hi r) (last_char prev w1) w2 rest ->
      matches (RRep lo (S hi) r) prev (w1 +:+ w2) rest
  | M_min_stop cs prev rest :
      matches (RMin 0 cs) prev EmptyString rest
  | M_min_more lo cs c prev w rest :
      in_set cs c = true ->
      matches (RMin (pred lo) cs) (Some c) w rest ->
      matches (RMin lo cs) prev (String c w) rest
  | M_not_behind cs prev rest :
      not_in_set cs prev = true -> matches (RNotBehind cs) prev EmptyString rest
  | M_not_ahead cs prev rest :
      not_in_set cs (next_char rest) = true ->
      matches (RNotAhead cs) prev EmptyString rest.

(** Shorthands to write a pattern down. *)
Fixpoint seq (l : list regex) : regex :=
  match l with
  | [] => RRep 0 0 (RSet [])
  | [r] => r
  | r :: l' => RSeq r (seq l')
  end.

Fixpoint alt (l : list regex) : regex :=
  match l with
  | [] => RSet []
  | [r] => r
  | r :: l' => RAlt r (alt l')
  end.

Fixpoint lits (s : string) : list regex :=
  match s with
  | EmptyString => []
  | String c s' => RLit c :: lits s'
  end.

Definition opt (r : regex) : regex := RRep 0 1 r.

End Re.

(** ** What the module takes from the Python library

    The functions below are the library's, not this repository's: they are an
    interface here, and every theorem holds for whatever they compute.
    [py_hash] is the built-in [hash] on strings, which is seeded per process
    and therefore only known to be a function.  [json_loads] is [json.loads]
    on a [str], [json_loads_bytes] the same on [bytes]; [b64decode] is
    [base64.b64decode]; [gzip_read] is [gzip.GzipFile(fileobj=BytesIO(b)).read()]. *)

Class PyLib : Type := {
  py_hash : string -> Z;
  json_loads : string -> result value;
  json_loads_bytes : string -> result value;
  b64decode : value -> result string;
  gzip_read : string -> result string
}.

(** ** Dictionaries, lists and the other built-ins the code calls *)

(** the record a [VDict] stands for; a key given twice keeps its last value *)
Definition dict_of_items (items : list (string * value)) : gmap string value :=
  foldl (fun m kv => <[fst kv := snd kv]> m) ∅ items.

(** [d[k]] on a dict *)
Definition getitem (d : gmap string value) (k : string) : result value :=
  match d !! k with
  | Some v => Ok v
  | None => Raise (KeyError k)
  end.

(** [del d[k]] *)
Definition delitem (d : gmap string value) (k : string) : result (gmap string value) :=
  match d !! k with
  | Some _ => Ok (delete k d)
  | None => Raise (KeyError k)
  end.

(** [v[k]] with a string key, on any object *)
Definition py_getitem (v : value) (k : string) : result value :=
  match v with
  | VDict items => getitem (dict_of_items items) k
  | _ => Raise TypeError
  end.

(** [l[i]] on a list *)
Definition list_get {A} (l : list A) (i : nat) : result A :=
  match l !! i with
  | Some x => Ok x
  | None => Raise IndexError
  end.

Definition is_str_eq (p : string) (v : value) : bool :=
  match v with
  | VStr s => String.eqb s p
  | _ => false
  end.

(** [p in v] for a string [p] *)
Definition py_contains (p : string) (v : value) : result bool :=
  match v with
  | VStr s => Ok (Str.contains p s)
  | VList l => Ok (existsb (is_str_eq p) l)
  | VDict items => Ok (bool_decide (is_Some (dict_of_items items !! p)))
  | _ => Raise TypeError
  end.

Fixpoint chars (s : string) : list value :=
  match s with
  | EmptyString => []
  | String c s' => VStr (String c EmptyString) :: chars s'
  end.

(** what [len(v)] followed by [for x in v] goes through *)
Definition py_iter (v : value) : result (list value) :=
  match v with
  | VList l => Ok l
  | VStr s => Ok (chars s)
  | VDict items => Ok (map (fun kv => VStr kv.1) items)
  | _ => Raise TypeError
  end.

(** [v.items()] *)
Definition py_items (v : value) : result (list (string * value)) :=
  match v with
  | VDict items => Ok items
  | _ => Raise AttributeError
  end.

(** [try: body except (classes): handler] *)
Definition try_except {A} (body : result A) (caught : exn -> bool)
    (handler : exn -> result A) : result A :=
  match body with
  | Ok a => Ok a
  | Raise e => if caught e then handler e else Raise e
  end.

(** ** The module's constants *)

Definition KEY_INDEX : nat := 0.
Definition VALUE_INDEX : nat := 1.
Definition LOG_LEVELS : list string :=
  ["alert"; "trace"; "debug"; "notice"; "info"; "warn";
   "warning"; "error"; "err"; "critical"; "crit"; "fatal";
   "severe"; "emerg"; "emergency"].

Definition PYTHON_EVENT_SIZE : nat := 3.
Definition NODEJS_EVENT_SIZE : nat := 4.
Definition LAMBDA_LOG_GROUP : string := "/aws/lambda/".

Module Pattern.
Import Re.

(** [[0-9]] and [[0-9a-fA-F]] *)
Definition digit : regex := RSet [CRange "0" "9"].
Definition hex : regex := RSet [CRange "0" "9"; CRange "a" "f"; CRange "A" "F"].

(** [[0-9a-fA-F]{1,4}], [(?:[0-9a-fA-F]{1,4}:)] and [(?::[0-9a-fA-F]{1,4})] *)
Definition h4 : regex := RRep 1 4 hex.
Definition h4_colon : regex := seq [h4; RLit ":"].
Definition colon_h4 : regex := seq [RLit ":"; h4].

(** [(?:25[0-5]|(?:2[0-4]|1{0,1}[0-9]){0,1}[0-9])] *)
Definition octet : regex :=
  alt [seq [RLit "2"; RLit "5"; RSet [CRange "0" "5"]];
       seq [RRep 0 1 (alt [seq [RLit "2"; RSet [CRange "0" "4"]];
                           seq [RRep 0 1 (RLit "1"); digit]]);
            digit]].

(** [(?:octet\.){3,3}octet] *)
Definition dotted : regex := seq [RRep 3 3 (seq [octet; RLit "."]); octet].

(** [[:.\w]] *)
Definition guard : list citem := [CChar ":"; CChar "."; CWord].

(** the thirteen alternatives, in the order of the source *)
Definition alternatives : list regex :=
  [ seq [RRep 3 3 (seq [RRep 1 3 digit; RLit "."]); RRep 1 3 digit];
    seq [RRep 7 7 h4_colon; h4];
    seq [RRep 1 7 h4_colon; RLit ":"];
    seq [RRep 1 6 h4_colon; RLit ":"; h4];
    seq [RRep 1 5 h4_colon; RRep 1 2 colon_h4];
    seq [RRep 1 4 h4_colon; RRep 1 3 colon_h4];
    seq [RRep 1 3 h4_colon; RRep 1 4 colon_h4];
    seq [RRep 1 2 h4_colon; RRep 1 5 colon_h4];
    seq [h4; RLit ":"; RRep 1 6 colon_h4];
    seq [RLit ":"; alt [RRep 1 7 colon_h4; RLit ":"]];
    seq (lits "fe80:" ++
         [RRep 0 4 (seq [RLit ":"; RRep 0 4 hex]); RLit "%";
          RMin 1 [CRange "0" "9"; CRange "a" "z"; CRange "A" "Z"]]);
    seq (lits "::" ++
         [opt (seq (lits "ffff" ++ [opt (seq [RLit ":"; RRep 1 4 (RLit "0")]); RLit ":"]));
          dotted]);
    seq [RRep 1 4 h4_colon; RLit ":"; dotted] ].

Definition body : regex := alt alternatives.

End Pattern.

(** [IP_PATTERN]: the alternatives between [(?<![:.\w])] and [(?![:.\w])] *)
Definition IP_PATTERN : Re.regex :=
  Re.RSeq (Re.RNotBehind Pattern.guard)
          (Re.RSeq Pattern.body (Re.RNotAhead Pattern.guard)).

(** ** The functions of [lambda_function.py] *)

Section Functions.
Context {L : PyLib}.

(** [os.environ] *)
Variable environ : gmap string string.

(** lines 33-44 *)
Definition _extract_aws_logs_data (event : value) : result value :=
  awslogs ← py_getitem event "awslogs";
  event_str ← py_getitem awslogs "data";
  try_except
    (logs_data_decoded ← b64decode event_str;
     logs_data_unzipped ← gzip_read logs_data_decoded;
     json_loads_bytes logs_data_unzipped)
    is_ValueError
    (fun _ => Raise (ValueError "Exception: json loads")).

(** lines 51-61: the level in brackets, if any, and where the split starts *)
Definition find_level (str_message : string) : option string * nat :=
  match Str.index "[" str_message, Str.index "]" str_message with
  | Some start_level, Some end_level =>
      let log_level := Str.slice (start_level + 1) end_level str_message in
      if bool_decide (Str.lower log_level ∈ LOG_LEVELS)
      then (Some log_level, end_level + 2)
      else (None, 0)
  | _, _ => (None, 0)
  end.

(** lines 47-69 *)
Definition _extract_lambda_log_message (log : gmap string value)
    : result (gmap string value) :=
  message ← getitem log "message";
  let str_message := py_str message in
  let '(level, start_split) := find_level str_message in
  let log := match level with
             | Some log_level => <["log_level" := VStr log_level]> log
             | None => log
             end in
  let message_parts := Str.split "009" (Str.drop start_split str_message) in
  let size := length message_parts in
  log ← (if bool_decide (size = PYTHON_EVENT_SIZE) || bool_decide (size = NODEJS_EVENT_SIZE)
         then p0 ← list_get message_parts 0;
              p1 ← list_get message_parts 1;
              plast ← list_get message_parts (size - 1);
              Ok (<["message" := VStr plast]>
                    (<["requestID" := VStr p1]> (<["@timestamp" := VStr p0]> log)))
         else Ok log);
  if bool_decide (size = NODEJS_EVENT_SIZE)
  then p2 ← list_get message_parts 2; Ok (<["log_level" := VStr p2]> log)
  else Ok log.

(** lines 72-76 *)
Definition _add_timestamp (log : gmap string value) : result (gmap string value) :=
  match log !! "@timestamp" with
  | None =>
      timestamp ← getitem log "timestamp";
      delitem (<["@timestamp" := VStr (py_str timestamp)]> log) "timestamp"
  | Some _ => Ok log
  end.

(** [json.loads(v)]: a TypeError for what is neither [str] nor [bytes] *)
Definition loads (v : value) : result value :=
  match v with
  | VStr s => json_loads s
  | _ => Raise TypeError
  end.

(** [os.environ[name]] *)
Definition getenv (name : string) : result string :=
  match environ !! name with
  | Some v => Ok v
  | None => Raise (KeyError name)
  end.

(** lines 79-87 *)
Definition _parse_to_json (log : gmap string value) : result (gmap string value) :=
  try_except
    (format ← getenv "FORMAT";
     if String.eqb (Str.lower format) "json"
     then message ← getitem log "message";
          json_object ← loads message;
          items ← py_items json_object;
          Ok (foldl (fun log kv => <[fst kv := snd kv]> log) log items)
     else Ok log)
    (fun e => is_KeyError e || is_ValueError e)
    (fun _ => Ok log).

(** the replacement of one match, line 99 *)
Definition ip_token (matched : string) : string :=
  "IP(" +:+ Str.of_Z (py_hash matched) +:+ ")".

(** lines 94-101, on the text [msg] *)
Definition anonymized (msg : string) : string :=
  let '(last_end, new_msg) :=
    foldl (fun acc m =>
             let new_msg := snd acc +:+ Str.slice (fst acc) (fst m) msg in
             let new_msg := new_msg +:+ ip_token (Str.slice (fst m) (snd m) msg) in
             (snd m, new_msg))
          (0, EmptyString) (Re.finditer IP_PATTERN msg) in
  new_msg +:+ Str.drop last_end msg.

(** lines 90-102 *)
Definition _anonymize_ip_addresses (log : gmap string value)
    : result (gmap string value) :=
  message ← getitem log "message";
  Ok (<["message" := VStr (anonymized (py_str message))]> log).

(** lines 144-148 *)
Definition _is_valid_log (log : gmap string value) : result bool :=
  message ← getitem log "message";
  match message with
  | VStr message =>
      let is_info_log := Str.startswith "START" message
                         || Str.startswith "END" message
                         || Str.startswith "REPORT" message in
      Ok (negb is_info_log)
  | _ => Raise AttributeError
  end.

(** lines 114-117 *)
Definition finish_log (log additional_data : gmap string value)
    : result (bool * gmap string value) :=
  log ← delitem log "id";
  log ← _parse_to_json (additional_data ∪ log);
  Ok (true, log).

(** lines 105-117: the answer, and the record as the call leaves it *)
Definition _parse_cloudwatch_log (log additional_data : gmap string value)
    : result (bool * gmap string value) :=
  log ← _add_timestamp log;
  log ← _anonymize_ip_addresses log;
  service ← getitem additional_data "service";
  is_lambda ← py_contains LAMBDA_LOG_GROUP service;
  if is_lambda : bool
  then valid ← _is_valid_log log;
       if valid : bool
       then log ← _extract_lambda_log_message log;
            finish_log log additional_data
       else Ok (false, log)
  else finish_log log additional_data.

(** lines 130-132, for one piece of the ENRICH string *)
Definition enrich_one (additional_data : result (gmap string value))
    (property_to_enrich : string) : result (gmap string value) :=
  additional_data ← additional_data;
  let property_key_value := Str.split "=" property_to_enrich in
  key ← list_get property_key_value KEY_INDEX;
  val ← list_get property_key_value VALUE_INDEX;
  Ok (<[key := VStr val]> additional_data).

(** lines 120-141 *)
Definition _get_additional_logs_data (aws_logs_data : value)
    : result (gmap string value) :=
  service ← py_getitem aws_logs_data "logGroup";
  logger_name ← py_getitem aws_logs_data "logStream";
  let additional_data : gmap string value :=
    <["logger_name" := logger_name]> (<["service" := service]> ∅) in
  additional_data ←
    match environ !! "ENRICH" with
    | None => Ok additional_data
    | Some EmptyString => Ok additional_data
    | Some enrich => foldl enrich_one (Ok additional_data) (Str.split ";" enrich)
    end;
  match environ !! "TYPE" with
  | Some type => Ok (<["type" := VStr type]> additional_data)
  | None => Ok (<["type" := VStr "logzio_cloudwatch_lambda"]> additional_data)
  end.

(** Modelled from the spec: [LogzioShipper], of [python3/shipper/shipper.py],
    is not among the sources.  The specification takes it as a black-box sink
    with the contract [add(record)] / [flush()], so it is the list of the
    calls the handler makes on it, each [add] with the record as it is then. *)
Inductive call : Type :=
  | Add (log : gmap string value)
  | Flush.

(** lines 159-163: the loop, with the calls made so far *)
Fixpoint ship (additional_data : gmap string value) (logEvents : list value)
    (calls : list call) : list call * result unit :=
  match logEvents with
  | [] => (calls, Ok tt)
  | log :: rest =>
      match log with
      | VDict items =>
          match _parse_cloudwatch_log (dict_of_items items) additional_data with
          | Ok (true, log') => ship additional_data rest (calls ++ [Add log'])
          | Ok (false, _) => ship additional_data rest calls
          | Raise e => (calls, Raise e)
          end
      | _ => (calls, Raise TypeError)
      end
  end.

(** lines 154-158: what the handler has in hand before the loop *)
Definition read_batch (event : value)
    : result (gmap string value * list value) :=
  aws_logs_data ← _extract_aws_logs_data event;
  additional_data ← _get_additional_logs_data aws_logs_data;
  logEvents ← py_getitem aws_logs_data "logEvents";
  logEvents ← py_iter logEvents;
  Ok (additional_data, logEvents).

(** lines 151-165: the calls made on the shipper, and how the handler ends *)
Definition lambda_handler (event : value) : list call * result unit :=
  match read_batch event with
  | Raise e => ([], Raise e)
  | Ok (additional_data, logEvents) =>
      match ship additional_data logEvents [] with
      | (calls, Ok _) => (calls ++ [Flush], Ok tt)
      | (calls, Raise e) => (calls, Raise e)
      end
  end.

End Functions.

(** ** What the specification speaks of

    The notions the statements below are written with.  They are not part of
    the code: the theorems relate them to it. *)

(** *** The runtime message parser *)

Definition tab : ascii := "009"%char.

(** What step 1 of the runtime message parser is to find: a level in
    brackets, the brackets being the first of their kind in the message, and
    the text left to split; or no level, and the whole message. *)
Inductive level_prefix (msg : string) : option string -> string -> Prop :=
  | level_found pre tok rest :
      msg = pre +:+ "[" +:+ tok +:+ "]" +:+ rest ->
      Str.index "[" pre = None -> Str.index "]" pre = None ->
      Str.index "]" tok = None ->
      Str.lower tok ∈ LOG_LEVELS ->
      level_prefix msg (Some tok) (Str.drop 1 rest)
  | level_absent :
      (forall pre tok rest,
          msg = pre +:+ "[" +:+ tok +:+ "]" +:+ rest ->
          Str.index "[" pre = None -> Str.index "]" pre = None ->
          Str.index "]" tok = None ->
          Str.lower tok ∉ LOG_LEVELS) ->
      level_prefix msg None msg.

Definition with_level (level : option string) (log : gmap string value)
    : gmap string value :=
  match level with
  | Some log_level => <["log_level" := VStr log_level]> log
  | None => log
  end.

(** The record after the parser, by the number of parts. *)
Definition parsed_record (level : option string) (parts : list string)
    (log : gmap string value) : gmap string value :=
  match parts with
  | [ts; rid; m] =>
      <["message" := VStr m]>
        (<["requestID" := VStr rid]> (<["@timestamp" := VStr ts]> (with_level level log)))
  | [ts; rid; lvl; m] =>
      <["log_level" := VStr lvl]>
        (<["message" := VStr m]>
           (<["requestID" := VStr rid]> (<["@timestamp" := VStr ts]> (with_level level log))))
  | _ => with_level level log
  end.

(** *** The timestamp *)

Definition has_key (k : string) (log : gmap string value) : bool :=
  bool_decide (is_Some (log !! k)).

(** exactly one of [@timestamp] and [timestamp] is a key of the record *)
Definition one_timestamp (log : gmap string value) : Prop :=
  xorb (has_key "@timestamp" log) (has_key "timestamp" log) = true.

(** *** The IP anonymizer *)

(** A match of [IP_PATTERN] at a position: the text [w] it covers is matched
    by one of the alternatives, and neither the character before nor the one
    after is a word character, a colon or a dot. *)
Definition ip_literal (prev : option ascii) (w rest : string) : Prop :=
  Re.not_in_set Pattern.guard prev = true
  /\ Re.matches Pattern.body prev w rest
  /\ Re.not_in_set Pattern.guard (Re.next_char rest) = true.

(** The text [msg] cut at the spans of the matches: each match with the text
    between the end of the match before it and its start. *)
Fixpoint segments (msg : string) (last_end : nat) (spans : list (nat * nat))
    : list (string * string) :=
  match spans with
  | [] => []
  | m :: spans' =>
      (Str.slice last_end (fst m) msg, Str.slice (fst m) (snd m) msg)
      :: segments msg (snd m) spans'
  end.

Fixpoint end_of (last_end : nat) (spans : list (nat * nat)) : nat :=
  match spans with
  | [] => last_end
  | m :: spans' => end_of (snd m) spans'
  end.

(** A text put together from its segments, each match going through [f]. *)
Definition rebuild (f : string -> string) (segs : list (string * string))
    (tail : string) : string :=
  Str.concat (map (fun gm => fst gm +:+ f (snd gm)) segs) +:+ tail.

(** the spans follow each other between [lo] and [hi] *)
Fixpoint chain (lo : nat) (spans : list (nat * nat)) (hi : nat) : Prop :=
  match spans with
  | [] => lo <= hi
  | m :: spans' => lo <= fst m /\ fst m <= snd m /\ chain (snd m) spans' hi
  end.

(** [cut prev s segs tail]: the text [s], which comes after the character
    [prev], is the segments [segs] followed by [tail], and every match of the
    segments is an IP literal where it stands. *)
Inductive cut : option ascii -> string -> list (string * string) -> string -> Prop :=
  | cut_nil prev tail : cut prev tail [] tail
  | cut_cons prev gap m rest segs tail :
      ip_literal (Re.last_char prev gap) m rest ->
      cut (Re.last_char prev (gap +:+ m)) rest segs tail ->
      cut prev (gap +:+ m +:+ rest) ((gap, m) :: segs) tail.

Definition char_before (msg : string) (n : nat) : option ascii :=
  Re.last_char None (Str.take n msg).

(** no IP literal starts at position [p] of [msg] *)
Definition no_literal_at (msg : string) (p : nat) : Prop :=
  forall w rest, Str.drop p msg = w +:+ rest -> ~ ip_literal (char_before msg p) w rest.

(** position [p] is neither the start of a span nor inside one *)
Definition outside (p : nat) (spans : list (nat * nat)) : Prop :=
  Forall (fun m => (p < fst m \/ snd m <= p) /\ p <> fst m) spans.

(** what it means for a matcher of one pattern to be sound *)
Definition sound_for (r : Re.regex)
    (body : Re.cursor -> (Re.cursor -> option Re.cursor) -> option Re.cursor) : Prop :=
  forall prev s k e, body (prev, s) k = Some e ->
    exists w rest, s = w +:+ rest /\ Re.matches r prev w rest
                   /\ k (Re.last_char prev w, rest) = Some e.

(** *** The noise filter *)

(** the lifecycle markers *)
Definition is_marker (p : string) : Prop := p = "START" \/ p = "END" \/ p = "REPORT".

(** *** The handler and the shipper *)

Section Batch.
Context {L : PyLib}.
Variable environ : gmap string string.
Variable additional_data : gmap string value.

(** what one turn of the handler's loop comes to for an entry *)
Definition entry_outcome (entry : value) : result (bool * gmap string value) :=
  match entry with
  | VDict items => _parse_cloudwatch_log environ (dict_of_items items) additional_data
  | _ => Raise TypeError
  end.

(** the records handed to the shipper, up to the first entry that raises *)
Fixpoint delivered (logEvents : list value) : list (gmap string value) :=
  match logEvents with
  | [] => []
  | entry :: rest =>
      match entry_outcome entry with
      | Ok (true, log) => log :: delivered rest
      | Ok (false, _) => delivered rest
      | Raise _ => []
      end
  end.

(** the exception of the first entry that raises *)
Fixpoint batch_error (logEvents : list value) : option exn :=
  match logEvents with
  | [] => None
  | entry :: rest =>
      match entry_outcome entry with
      | Ok _ => batch_error rest
      | Raise e => Some e
      end
  end.

End Batch.

(** the record of an entry that is kept *)
Definition survivor (o : result (bool * gmap string value)) : option (gmap string value) :=
  match o with
  | Ok (true, log) => Some log
  | _ => None
  end.

(** the test of [_is_valid_log], on the text of a message *)
Definition is_noise (message : string) : bool :=
  Str.startswith "START" message || Str.startswith "END" message
  || Str.startswith "REPORT" message.

Definition is_flush (c : call) : bool :=
  match c with Flush => true | Add _ => false end.

(** how many times a method was called *)
Definition count (which : call -> bool) (calls : list call) : nat :=
  length (List.filter which calls).

(** *** The JSON flattener, the enrichment data and the decoder *)

(** JSON flattening is not asked for *)
Definition flatten_off (environ : gmap string string) : Prop :=
  forall format, environ !! "FORMAT" = Some format ->
                 String.eqb (Str.lower format) "json" = false.

(** the text of [s] before its first [c], and the text after it *)
Definition before (c : ascii) (s : string) : string :=
  match Str.index c s with
  | Some n => Str.take n s
  | None => s
  end.

Definition after (c : ascii) (s : string) : string :=
  match Str.index c s with
  | Some n => Str.drop (S n) s
  | None => EmptyString
  end.

(** the key and the value the builder takes from one piece of ENRICH *)
Definition pair_key (piece : string) : string := before "=" piece.
Definition pair_value (piece : string) : string := before "=" (after "=" piece).

Definition base_data (service logger_name : value) : gmap string value :=
  <["logger_name" := logger_name]> (<["service" := service]> ∅).

Definition enriched (data : gmap string value) (pieces : list string)
    : gmap string value :=
  foldl (fun data piece => <[pair_key piece := VStr (pair_value piece)]> data)
        data pieces.

Definition type_of (environ : gmap string string) : string :=
  match environ !! "TYPE" with
  | Some type => type
  | None => "logzio_cloudwatch_lambda"
  end.

(** the error the decoder leaves with, for the error [e] of one of its steps *)
Definition decode_error (e : exn) : exn :=
  if is_ValueError e then ValueError "Exception: json loads" else e.

(** ** A library instance to run the functions on

    The theorems below are stated for every [PyLib].  To evaluate the functions
    on concrete inputs one instance is fixed here.  Its JSON reader covers the
    JSON texts made of objects, arrays, strings with the two-character escapes,
    integers and the three literals, where it agrees with [json.loads]; on
    any other text it answers [JSONDecodeError].  Its transport layer is a
    stand-in: [b64decode] hands the characters of a string back as bytes, and
    [gzip_read] expects the two magic bytes of a gzip stream followed by the
    content in clear; like the real reader it answers nothing on no bytes and
    raises [BadGzipFile] when the magic bytes are not there. *)

Module Json.

Definition is_ws (c : ascii) : bool :=
  Ascii.eqb c " " || Ascii.eqb c "009" || Ascii.eqb c "010" || Ascii.eqb c "013".

Fixpoint skip_ws (s : string) : string :=
  match s with
  | String c s' => if is_ws c then skip_ws s' else s
  | EmptyString => s
  end.

Definition unescape (c : ascii) : option ascii :=
  if Ascii.eqb c "034" then Some "034"%char
  else if Ascii.eqb c "\" then Some "\"%char
  else if Ascii.eqb c "/" then Some "/"%char
  else if Ascii.eqb c "b" then Some "008"%char
  else if Ascii.eqb c "f" then Some "012"%char
  else if Ascii.eqb c "n" then Some "010"%char
  else if Ascii.eqb c "r" then Some "013"%char
  else if Ascii.eqb c "t" then Some "009"%char
  else None.

(** the text of a string, read from just after its opening quote *)
Fixpoint str_body (s : string) : option (string * string) :=
  match s with
  | EmptyString => None
  | String c s' =>
      if Ascii.eqb c "034" then Some (EmptyString, s')
      else if Ascii.eqb c "\" then
        match s' with
        | String e s'' =>
            match unescape e, str_body s'' with
            | Some ch, Some (w, rest) => Some (String ch w, rest)
            | _, _ => None
            end
        | EmptyString => None
        end
      else if Str.in_range 0 31 c then None
      else match str_body s' with
           | Some (w, rest) => Some (String c w, rest)
           | None => None
           end
  end.

Definition digit_val (c : ascii) : option Z :=
  if Str.in_range 48 57 c then Some (Z.of_N (N_of_ascii c) - 48)%Z else None.

(** the digits that go on a numeral, with the value so far *)
Fixpoint more_digits (acc : Z) (s : string) : Z * string :=
  match s with
  | String c s' =>
      match digit_val c with
      | Some d => more_digits (10 * acc + d)%Z s'
      | None => (acc, s)
      end
  | EmptyString => (acc, s)
  end.

Definition ends_integer (s : string) : bool :=
  match s with
  | String c _ => negb (Ascii.eqb c "." || Ascii.eqb c "e" || Ascii.eqb c "E")
  | EmptyString => true
  end.

(** [0] or a numeral that starts with [1..9]; fractions and exponents are
    outside the fragment *)
Definition natural (s : string) : option (Z * string) :=
  match s with
  | String c s' =>
      match digit_val c with
      | Some 0%Z => if ends_integer s' then Some (0%Z, s') else None
      | Some d =>
          let '(n, rest) := more_digits d s' in
          if ends_integer rest then Some (n, rest) else None
      | None => None
      end
  | EmptyString => None
  end.

Definition strip (p s : string) : option string :=
  if Str.startswith p s then Some (Str.drop (String.length p) s) else None.

(** [d[k] = v] on the items of a dict *)
Fixpoint set_item (k : string) (v : value) (items : list (string * value))
    : list (string * value) :=
  match items with
  | [] => [(k, v)]
  | (k', v') :: items' =>
      if String.eqb k' k then (k', v) :: items' else (k', v') :: set_item k v items'
  end.

Fixpoint parse_value (fuel : nat) (s : string) : option (value * string) :=
  match fuel with
  | 0 => None
  | S fuel' =>
      match s with
      | String "{" s1 =>
          match skip_ws s1 with
          | String "}" rest => Some (VDict [], rest)
          | s2 => parse_members fuel' [] s2
          end
      | String "[" s1 =>
          match skip_ws s1 with
          | String "]" rest => Some (VList [], rest)
          | s2 => parse_elements fuel' [] s2
          end
      | String "034" s1 =>
          match str_body s1 with
          | Some (w, rest) => Some (VStr w, rest)
          | None => None
          end
      | String "-" s1 =>
          match natural s1 with
          | Some (n, rest) => Some (VInt (- n), rest)
          | None => None
          end
      | _ =>
          match strip "null" s, strip "true" s, strip "false" s, natural s with
          | Some rest, _, _, _ => Some (VNone, rest)
          | _, Some rest, _, _ => Some (VBool true, rest)
          | _, _, Some rest, _ => Some (VBool false, rest)
          | _, _, _, Some (n, rest) => Some (VInt n, rest)
          | _, _, _, _ => None
          end
      end
  end
with parse_elements (fuel : nat) (acc : list value) (s : string)
    : option (value * string) :=
  match fuel with
  | 0 => None
  | S fuel' =>
      match parse_value fuel' s with
      | Some (v, rest) =>
          match skip_ws rest with
          | String "," rest' => parse_elements fuel' (acc ++ [v]) (skip_ws rest')
          | String "]" rest' => Some (VList (acc ++ [v]), rest')
          | _ => None
          end
      | None => None
      end
  end
with parse_members (fuel : nat) (acc : list (string * value)) (s : string)
    : option (value * string) :=
  match fuel with
  | 0 => None
  | S fuel' =>
      match s with
      | String "034" s1 =>
          match str_body s1 with
          | Some (k, rest) =>
              match skip_ws rest with
              | String ":" rest1 =>
                  match parse_value fuel' (skip_ws rest1) with
                  | Some (v, rest2) =>
                      match skip_ws rest2 with
                      | String "," rest3 =>
                          parse_members fuel' (set_item k v acc) (skip_ws rest3)
                      | String "}" rest3 => Some (VDict (set_item k v acc), rest3)
                      | _ => None
                      end
                  | None => None
                  end
              | _ => None
              end
          | None => None
          end
      | _ => None
      end
  end.

Definition loads (s : string) : result value :=
  match parse_value (S (String.length s)) (skip_ws s) with
  | Some (v, rest) =>
      match skip_ws rest with
      | EmptyString => Ok v
      | _ => Raise JSONDecodeError
      end
  | None => Raise JSONDecodeError
  end.

End Json.

Module Sample.

Definition gzip_magic : string := String "031" (String "139" EmptyString).

Definition plain_b64decode (v : value) : result string :=
  match v with
  | VStr s => Ok s
  | _ => Raise TypeError
  end.

Definition framed_gzip_read (b : string) : result string :=
  match b with
  | EmptyString => Ok EmptyString
  | _ => if Str.startswith gzip_magic b then Ok (Str.drop 2 b) else Raise BadGzipFile
  end.

Fixpoint char_sum (s : string) : Z :=
  match s with
  | EmptyString => 0%Z
  | String c s' => (Z.of_N (N_of_ascii c) + char_sum s')%Z
  end.

Definition lib : PyLib := {|
  py_hash := char_sum;
  json_loads := Json.loads;
  json_loads_bytes := Json.loads;
  b64decode := plain_b64decode;
  gzip_read := framed_gzip_read
|}.

(** the invocation payload that carries the document [text] *)
Definition event_of (text : string) : value :=
  VDict [("awslogs", VDict [("data", VStr (gzip_magic +:+ text))])].

(** the inputs of the examples *)

Definition runtime_message : string :=
  "[ERROR] 2024-01-01T00:00:00Z" +:+ String tab "req-123" +:+ String tab "boom".
Definition runtime_log : gmap string value := {[ "message" := VStr runtime_message ]}.

Definition both_timestamps : gmap string value :=
  <["@timestamp" := VStr "2024-01-01T00:00:00Z"]> {[ "timestamp" := VInt 1704067200000 ]}.
Definition raw_timestamp : gmap string value :=
  <["message" := VStr "hello"]> {[ "timestamp" := VInt 1704067200000 ]}.

(** [s] with every apostrophe turned into a double quote, to write JSON down *)
Fixpoint quoted (s : string) : string :=
  match s with
  | EmptyString => EmptyString
  | String c s' => String (if Ascii.eqb c "'" then "034"%char else c) (quoted s')
  end.

Definition no_environ : gmap string string := ∅.

(** a batch of a function's log group: a lifecycle line and a line of the
    function's own *)
Definition lambda_batch : value :=
  event_of (quoted
    "{'logGroup':'/aws/lambda/fn','logStream':'2024/01/01/[1]abc','logEvents':[{'id':'1','timestamp':1704067200000,'message':'START RequestId: req-123'},{'id':'2','timestamp':1704067200001,'message':'hello from 10.0.0.1'}]}").

(** a batch with nothing but one lifecycle line *)
Definition start_batch : value :=
  event_of (quoted
    "{'logGroup':'/aws/lambda/fn','logStream':'s','logEvents':[{'id':'1','timestamp':1704067200000,'message':'START RequestId: req-123'}]}").

(** a batch whose one entry has no [id] *)
Definition no_id_batch : value :=
  event_of (quoted
    "{'logGroup':'/ecs/app','logStream':'s','logEvents':[{'timestamp':1704067200000,'message':'hello'}]}").

(** a batch whose one entry has a number for a message *)
Definition number_batch : value :=
  event_of (quoted
    "{'logGroup':'/ecs/app','logStream':'s','logEvents':[{'id':'7','timestamp':5,'message':42}]}").

Definition lambda_data : gmap string value :=
  <["type" := VStr "logzio_cloudwatch_lambda"]>
    (<["logger_name" := VStr "s"]> {[ "service" := VStr "/aws/lambda/fn" ]}).

Definition start_log : gmap string value :=
  <["id" := VStr "1"]>
    (<["timestamp" := VInt 1704067200000]>
       {[ "message" := VStr "START RequestId: req-123" ]}).

Definition start_items : list (string * value) :=
  [("id", VStr "1"); ("timestamp", VInt 1704067200000);
   ("message", VStr "START RequestId: req-123")].

Definition app_data : gmap string value :=
  <["type" := VStr "logzio_cloudwatch_lambda"]>
    (<["logger_name" := VStr "s"]> {[ "service" := VStr "/ecs/app" ]}).

Definition no_id_items : list (string * value) :=
  [("timestamp", VInt 1704067200000); ("message", VStr "hello")].

Definition no_id_log : gmap string value := dict_of_items no_id_items.

(** what the shipper gets from [lambda_batch] *)
Definition hello_record : gmap string value :=
  <["service" := VStr "/aws/lambda/fn"]>
    (<["logger_name" := VStr "2024/01/01/[1]abc"]>
       (<["type" := VStr "logzio_cloudwatch_lambda"]>
          (<["@timestamp" := VStr "1704067200001"]>
             {[ "message" := VStr "hello from IP(380)" ]}))).

(** what the shipper gets from [number_batch] *)
Definition number_record : gmap string value :=
  <["service" := VStr "/ecs/app"]>
    (<["logger_name" := VStr "s"]>
       (<["type" := VStr "logzio_cloudwatch_lambda"]>
          (<["@timestamp" := VStr "5"]> {[ "message" := VStr "42" ]}))).

Definition number_log : gmap string value :=
  <["id" := VStr "7"]> (<["timestamp" := VInt 5]> {[ "message" := VInt 42 ]}).

Definition json_environ : gmap string string := {[ "FORMAT" := "json" ]}.
Definition enrich_environ : gmap string string := {[ "ENRICH" := "env=prod;team=core" ]}.
Definition cut_environ : gmap string string := {[ "ENRICH" := "k=a=b" ]}.

Definition group_doc : value :=
  VDict [("logGroup", VStr "/ecs/app"); ("logStream", VStr "s"); ("logEvents", VList [])].

Definition five_log : gmap string value := {[ "message" := VStr "5" ]}.

(** a batch whose one message is the JSON text [5] *)
Definition five_batch : value :=
  event_of (quoted
    "{'logGroup':'/ecs/app','logStream':'s','logEvents':[{'id':'1','timestamp':5,'message':'5'}]}").

Definition user_log : gmap string value :=
  {[ "message" := VStr (quoted "{'user':'a','level':'warn','message':'hi'}") ]}.

(** a payload that is not a gzip stream *)
Definition not_gzip_event : value :=
  VDict [("awslogs", VDict [("data", VStr "plain text")])].

Definition hello_batch : value :=
  event_of (quoted
    "{'logGroup':'/ecs/app','logStream':'s','logEvents':[{'id':'1','timestamp':5,'message':'hello'}]}").

Definition enriched_record : gmap string value :=
  <["env" := VStr "prod"]>
    (<["team" := VStr "core"]>
       (<["service" := VStr "/ecs/app"]>
          (<["logger_name" := VStr "s"]>
             (<["type" := VStr "logzio_cloudwatch_lambda"]>
                (<["@timestamp" := VStr "5"]> {[ "message" := VStr "hello" ]}))))).

Definition enriched_data : gmap string value :=
  <["type" := VStr "logzio_cloudwatch_lambda"]>
    (<["team" := VStr "core"]>
       (<["env" := VStr "prod"]>
          (<["logger_name" := VStr "s"]> {[ "service" := VStr "/ecs/app" ]}))).

Definition flattened_user_log : gmap string value :=
  <["message" := VStr "hi"]>
    (<["level" := VStr "warn"]> {[ "user" := VStr "a" ]}).

End Sample.

(** ** The notions and the inputs of the further properties *)

(** *** The separators of an address *)

(** a colon or a dot *)
Definition is_sep (c : ascii) : bool := Ascii.eqb c ":" || Ascii.eqb c ".".

Fixpoint has_sep (s : string) : bool :=
  match s with
  | EmptyString => false
  | String c s' => is_sep c || has_sep s'
  end.

(** [needs_sep r]: by the shape of [r] alone, whatever [r] matches holds a
    colon or a dot.  A character set is taken to promise nothing. *)
Fixpoint needs_sep (r : Re.regex) : bool :=
  match r with
  | Re.RLit p => is_sep p
  | Re.RSeq r1 r2 => needs_sep r1 || needs_sep r2
  | Re.RAlt r1 r2 => needs_sep r1 && needs_sep r2
  | Re.RRep lo _ r' => negb (Nat.eqb lo 0) && needs_sep r'
  | _ => false
  end.

(** *** Texts of the shape of an IPv4 address *)

(** every character of [s] is in the set [cs] *)
Fixpoint all_in (cs : list Re.citem) (s : string) : bool :=
  match s with
  | EmptyString => true
  | String c s' => Re.in_set cs c && all_in cs s'
  end.

(** one to three decimal digits *)
Definition is_group (d : string) : Prop :=
  1 <= String.length d <= 3 /\ all_in [Re.CRange "0" "9"] d = true.

Definition dotted_quad (d1 d2 d3 d4 : string) : string :=
  d1 +:+ "." +:+ d2 +:+ "." +:+ d3 +:+ "." +:+ d4.

(** the inputs of the examples *)

Module Cases.

Definition renamed_log : gmap string value :=
  <["@timestamp" := VStr "1704067200000"]> {[ "message" := VStr "hello" ]}.

Definition bad_enrich_environ : gmap string string := {[ "ENRICH" := "env=prod;team" ]}.

(** a batch whose second entry is a number *)
Definition mixed_batch : value :=
  Sample.event_of (Sample.quoted
    "{'logGroup':'/ecs/app','logStream':'s','logEvents':[{'id':'1','timestamp':5,'message':'hello'},7,{'id':'2','timestamp':6,'message':'bye'}]}").

Definition hello_items : list (string * value) :=
  [("id", VStr "1"); ("timestamp", VInt 5); ("message", VStr "hello")].

Definition bye_items : list (string * value) :=
  [("id", VStr "2"); ("timestamp", VInt 6); ("message", VStr "bye")].

(** an entry of an application's group whose message looks like a lifecycle line *)
Definition start_app_log : gmap string value :=
  <["id" := VStr "1"]>
    (<["timestamp" := VInt 5]>
       (<["owner" := VStr "ops"]> {[ "message" := VStr "START of the job" ]})).

Definition start_app_record : gmap string value :=
  <["service" := VStr "/ecs/app"]>
    (<["logger_name" := VStr "s"]>
       (<["type" := VStr "logzio_cloudwatch_lambda"]>
          (<["@timestamp" := VStr "5"]>
             (<["owner" := VStr "ops"]> {[ "message" := VStr "START of the job" ]})))).

(** an entry whose message is a JSON object that names [type] and [user] *)
Definition typed_message : string := Sample.quoted "{'type':'audit','user':'a'}".

Definition typed_log : gmap string value :=
  <["id" := VStr "1"]> (<["timestamp" := VInt 5]> {[ "message" := VStr typed_message ]}).

Definition typed_items : list (string * value) :=
  [("type", VStr "audit"); ("user", VStr "a")].

Definition node_line : string :=
  "2024-01-01T00:00:00Z" +:+ String tab "req-9" +:+ String tab "WARN"
  +:+ String tab "disk is full".
Definition node_log : gmap string value := {[ "message" := VStr node_line ]}.

(** a batch document with no event list *)
Definition no_events_items : list (string * value) :=
  [("logGroup", VStr "/ecs/app"); ("logStream", VStr "s")].

Definition no_events_batch : value :=
  Sample.event_of (Sample.quoted "{'logGroup':'/ecs/app','logStream':'s'}").

End Cases.

(** * Theorems *)

Local Arguments String.append !_ _ / : simpl nomatch.

(** ** Facts about strings *)

Module StrFacts.

Lemma app_nil_r (s : string) : s +:+ EmptyString = s.
Proof. induction s as [|c s IH]; simpl; [done|]. by rewrite IH. Qed.

Lemma app_assoc (s t u : string) : (s +:+ t) +:+ u = s +:+ t +:+ u.
Proof. induction s as [|c s IH]; simpl; [done|]. by rewrite IH. Qed.

Lemma app_cons (c : ascii) (s t : string) : String c s +:+ t = String c (s +:+ t).
Proof. done. Qed.

Lemma length_app (s t : string) :
  String.length (s +:+ t) = String.length s + String.length t.
Proof. induction s as [|c s IH]; simpl; [done|]. by rewrite IH. Qed.

Lemma take_drop (n : nat) (s : string) : Str.take n s +:+ Str.drop n s = s.
Proof.
  revert s; induction n as [|n IH]; intros [|c s]; simpl; try done.
  by rewrite IH.
Qed.

Lemma drop_0 (s : string) : Str.drop 0 s = s.
Proof. by destruct s. Qed.

Lemma drop_drop (n m : nat) (s : string) :
  Str.drop m (Str.drop n s) = Str.drop (n + m) s.
Proof.
  revert s; induction n as [|n IH]; intros s; simpl.
  - done.
  - destruct s as [|c s]; [by destruct m|]. apply IH.
Qed.

Lemma length_drop (n : nat) (s : string) :
  String.length (Str.drop n s) = String.length s - n.
Proof.
  revert s; induction n as [|n IH]; intros [|c s]; simpl; try done.
Qed.

Lemma length_take (n : nat) (s : string) :
  n <= String.length s -> String.length (Str.take n s) = n.
Proof.
  revert s; induction n as [|n IH]; intros [|c s]; simpl; try done; try lia.
  intros. rewrite IH; lia.
Qed.

Lemma drop_app_length (s t : string) : Str.drop (String.length s) (s +:+ t) = t.
Proof. induction s as [|c s IH]; simpl; [apply drop_0|done]. Qed.

Lemma take_app_length (s t : string) : Str.take (String.length s) (s +:+ t) = s.
Proof. induction s as [|c s IH]; simpl; [by destruct t|]. by rewrite IH. Qed.

Lemma drop_all (n : nat) (s : string) : String.length s <= n -> Str.drop n s = EmptyString.
Proof.
  revert s; induction n as [|n IH]; intros [|c s]; simpl; try done; try lia.
  intros. apply IH. lia.
Qed.

(** a slice cut in two *)
Lemma slice_split (a b : nat) (s : string) :
  a <= b -> Str.drop a s = Str.slice a b s +:+ Str.drop b s.
Proof.
  intros Hab. unfold Str.slice.
  replace b with (a + (b - a)) at 2 by lia.
  rewrite <-drop_drop. by rewrite take_drop.
Qed.

Lemma startswith_app (p s : string) : Str.startswith p (p +:+ s) = true.
Proof.
  induction p as [|c p IH]; simpl; [done|].
  by rewrite Ascii.eqb_refl, IH.
Qed.

Lemma startswith_spec (p s : string) :
  Str.startswith p s = true <-> exists t, s = p +:+ t.
Proof.
  split.
  - revert s; induction p as [|c p IH]; intros s H; simpl in *.
    + by exists s.
    + destruct s as [|d s]; [done|].
      apply andb_prop in H as [Hc Hp]. apply Ascii.eqb_eq in Hc as ->.
      destruct (IH _ Hp) as [t ->]. by exists t.
  - intros [t ->]. apply startswith_app.
Qed.

Lemma startswith_take (p s t : string) :
  Str.take (String.length p) s = Str.take (String.length p) t ->
  Str.startswith p s = true -> Str.startswith p t = true.
Proof.
  intros Heq [u ->]%startswith_spec.
  rewrite take_app_length in Heq.
  apply startswith_spec. exists (Str.drop (String.length p) t).
  rewrite <-(take_drop (String.length p) t) at 1. by rewrite <-Heq.
Qed.

End StrFacts.

(** ** The matcher finds only what the pattern matches *)

Lemma last_char_app (prev : option ascii) (w1 w2 : string) :
  Re.last_char prev (w1 +:+ w2) = Re.last_char (Re.last_char prev w1) w2.
Proof. revert prev; induction w1 as [|c w1 IH]; intros prev; simpl; [done|apply IH]. Qed.

Lemma step_inv (ok : ascii -> bool) prev s k e :
  Re.step ok (prev, s) k = Some e ->
  exists c s', s = String c s' /\ ok c = true /\ k (Some c, s') = Some e.
Proof.
  unfold Re.step; simpl. destruct s as [|c s']; [done|].
  destruct (ok c) eqn:Hc; [|done]. intros. by exists c, s'.
Qed.

Lemma rep_sound (r : Re.regex) body :
  sound_for r body ->
  forall hi lo prev s k e, Re.rep body lo hi (prev, s) k = Some e ->
    exists w rest, s = w +:+ rest /\ Re.matches (Re.RRep lo hi r) prev w rest
                   /\ k (Re.last_char prev w, rest) = Some e.
Proof.
  intros Hbody. induction hi as [|hi IH]; intros lo prev s k e H; simpl in H.
  - destruct lo; [|done]. exists EmptyString, s. repeat split; [constructor|done].
  - destruct (body (prev, s) _) as [e'|] eqn:Hb.
    + injection H as ->.
      apply Hbody in Hb as (w1 & rest1 & -> & Hm1 & Hk).
      apply IH in Hk as (w2 & rest & -> & Hm2 & Hk).
      exists (w1 +:+ w2), rest. rewrite StrFacts.app_assoc, last_char_app.
      repeat split; [|done]. by constructor.
    + destruct lo; [|done]. exists EmptyString, s. repeat split; [constructor|done].
Qed.

Lemma rep_set_sound (cs : list Re.citem) :
  forall hi lo prev s k e,
    Re.rep (Re.step (Re.in_set cs)) lo hi (prev, s) k = Some e ->
    exists w rest, s = w +:+ rest /\ Re.matches (Re.RMin lo cs) prev w rest
                   /\ k (Re.last_char prev w, rest) = Some e.
Proof.
  induction hi as [|hi IH]; intros lo prev s k e H; simpl in H.
  - destruct lo; [|done]. exists EmptyString, s. repeat split; [constructor|done].
  - destruct (Re.step _ (prev, s) _) as [e'|] eqn:Hb.
    + injection H as ->.
      apply step_inv in Hb as (c & s' & -> & Hc & Hk).
      apply IH in Hk as (w & rest & -> & Hm & Hk).
      exists (String c w), rest. repeat split; [|done]. by constructor.
    + destruct lo; [|done]. exists EmptyString, s. repeat split; [constructor|done].
Qed.

Lemma run_sound (r : Re.regex) : sound_for r (Re.run r).
Proof.
  induction r as [p|cs|r1 IH1 r2 IH2|r1 IH1 r2 IH2|lo hi r IH|lo cs|cs|cs];
    intros prev s k e H; simpl in H.
  - apply step_inv in H as (c & s' & -> & Hc & Hk).
    exists (String c EmptyString), s'. repeat split; [|done]. by constructor.
  - apply step_inv in H as (c & s' & -> & Hc & Hk).
    exists (String c EmptyString), s'. repeat split; [|done]. by constructor.
  - apply IH1 in H as (w1 & rest1 & -> & Hm1 & Hk).
    apply IH2 in Hk as (w2 & rest & -> & Hm2 & Hk).
    exists (w1 +:+ w2), rest. rewrite StrFacts.app_assoc, last_char_app.
    repeat split; [|done]. by constructor.
  - destruct (Re.run r1 (prev, s) k) as [e'|] eqn:H1.
    + injection H as ->. apply IH1 in H1 as (w & rest & -> & Hm & Hk).
      exists w, rest. repeat split; [|done]. by apply Re.M_alt_l.
    + apply IH2 in H as (w & rest & -> & Hm & Hk).
      exists w, rest. repeat split; [|done]. by apply Re.M_alt_r.
  - by apply (rep_sound r (Re.run r)) in H.
  - by apply rep_set_sound in H.
  - destruct (Re.not_in_set cs prev) eqn:Hn; [|done].
    exists EmptyString, s. repeat split; [by constructor|done].
  - destruct (Re.not_in_set cs (Re.next_char s)) eqn:Hn; [|done].
    exists EmptyString, s. repeat split; [by constructor|done].
Qed.

Lemma match_at_sound (prev : option ascii) (s : string) (len : nat) :
  Re.match_at IP_PATTERN (prev, s) = Some len ->
  exists w rest, s = w +:+ rest /\ String.length w = len /\ ip_literal prev w rest.
Proof.
  unfold Re.match_at, IP_PATTERN.
  destruct (Re.run _ _ _) as [e|] eqn:H; [|done]. intros [= <-].
  cbn [Re.run fst snd] in H.
  destruct (Re.not_in_set Pattern.guard prev) eqn:Hb; [|done].
  apply run_sound in H as (w & rest & -> & Hm & Hk). simpl in Hk.
  destruct (Re.not_in_set Pattern.guard (Re.next_char rest)) eqn:Ha; [|done].
  injection Hk as <-. exists w, rest. simpl.
  rewrite StrFacts.length_app. repeat split; try done. lia.
Qed.

Lemma match_at_guarded (prev : option ascii) (s : string) :
  Re.not_in_set Pattern.guard prev = false ->
  Re.match_at IP_PATTERN (prev, s) = None.
Proof.
  intros H. unfold Re.match_at, IP_PATTERN. cbn [Re.run fst snd]. by rewrite H.
Qed.

Lemma match_at_le (r : Re.regex) (cur : Re.cursor) (len : nat) :
  Re.match_at r cur = Some len -> len <= String.length (snd cur).
Proof.
  unfold Re.match_at. destruct (Re.run _ _ _); [|done]. intros [= <-]. lia.
Qed.

(** ** The matches in a message, and the loop of the anonymizer *)

Lemma chain_weaken lo lo' spans hi : lo' <= lo -> chain lo spans hi -> chain lo' spans hi.
Proof. destruct spans as [|m spans]; simpl; intros; [lia|]. intuition lia. Qed.

Lemma chain_le lo spans hi : chain lo spans hi -> lo <= end_of lo spans <= hi.
Proof.
  revert lo; induction spans as [|m spans IH]; intros lo; simpl; [lia|].
  intros (? & ? & H). apply IH in H. lia.
Qed.

Lemma spans_chain (r : Re.regex) (s : string) :
  forall skip pos prev, skip <= String.length s ->
    chain (pos + skip) (Re.spans_from r s skip pos prev) (pos + String.length s).
Proof.
  induction s as [|c s IH]; intros skip pos prev Hskip; simpl in *.
  - assert (skip = 0) as -> by lia.
    destruct (Re.match_at r (prev, EmptyString)) as [len|] eqn:Hm; simpl; [|lia].
    apply match_at_le in Hm. simpl in Hm. lia.
  - destruct skip as [|skip].
    + destruct (Re.match_at r (prev, String c s)) as [len|] eqn:Hm; simpl.
      * apply match_at_le in Hm. simpl in Hm.
        split; [lia|]. split; [lia|].
        replace (pos + S (String.length s)) with (S pos + String.length s) by lia.
        eapply chain_weaken; [|apply IH]; lia.
      * replace (pos + S (String.length s)) with (S pos + String.length s) by lia.
        eapply chain_weaken; [|apply (IH 0)]; lia.
    + replace (pos + S (String.length s)) with (S pos + String.length s) by lia.
      replace (pos + S skip) with (S pos + skip) by lia.
      apply IH. lia.
Qed.

Lemma finditer_chain (r : Re.regex) (msg : string) :
  chain 0 (Re.finditer r msg) (String.length msg).
Proof. apply (spans_chain r msg 0 0 None). lia. Qed.

(** the loop of the anonymizer, from any state *)
Lemma anonymize_loop `{PyLib} (msg : string) (spans : list (nat * nat)) :
  forall last_end new_msg,
    foldl (fun acc m =>
             let new_msg := snd acc +:+ Str.slice (fst acc) (fst m) msg in
             let new_msg := new_msg +:+ ip_token (Str.slice (fst m) (snd m) msg) in
             (snd m, new_msg))
          (last_end, new_msg) spans
    = (end_of last_end spans,
       new_msg +:+ Str.concat (map (fun gm => fst gm +:+ ip_token (snd gm))
                                   (segments msg last_end spans))).
Proof.
  induction spans as [|m spans IH]; intros last_end new_msg; simpl.
  - by rewrite StrFacts.app_nil_r.
  - rewrite IH. by rewrite !StrFacts.app_assoc.
Qed.

Lemma anonymized_rebuild `{PyLib} (msg : string) :
  anonymized msg
  = rebuild ip_token (segments msg 0 (Re.finditer IP_PATTERN msg))
            (Str.drop (end_of 0 (Re.finditer IP_PATTERN msg)) msg).
Proof. unfold anonymized, rebuild. by rewrite anonymize_loop. Qed.

Lemma cut_rebuild prev s segs tail :
  cut prev s segs tail -> s = rebuild (fun m => m) segs tail.
Proof.
  induction 1 as [|prev gap m rest segs tail _ _ IH]; [done|].
  unfold rebuild in *. simpl. by rewrite !StrFacts.app_assoc, <-IH.
Qed.

Lemma take_nil (n : nat) : Str.take n EmptyString = EmptyString.
Proof. by destruct n. Qed.

Lemma drop_nil (n : nat) : Str.drop n EmptyString = EmptyString.
Proof. by destruct n. Qed.

Lemma take_slice (a b : nat) (s : string) :
  a <= b -> Str.take b s = Str.take a s +:+ Str.slice a b s.
Proof.
  intros Hab. unfold Str.slice. revert a b Hab.
  induction s as [|c s IH]; intros a b Hab.
  - by rewrite drop_nil, !take_nil.
  - destruct a as [|a]; simpl.
    + by rewrite Nat.sub_0_r.
    + destruct b as [|b]; [lia|]. simpl. f_equal. apply IH. lia.
Qed.

Lemma slice_same (a : nat) (s : string) : Str.slice a a s = EmptyString.
Proof. unfold Str.slice. rewrite Nat.sub_diag. by destruct (Str.drop a s). Qed.

Lemma char_before_slice (msg : string) (a b : nat) :
  a <= b -> Re.last_char (char_before msg a) (Str.slice a b msg) = char_before msg b.
Proof.
  intros Hab. unfold char_before. by rewrite (take_slice a b), last_char_app.
Qed.

Lemma drop_S (n : nat) (c : ascii) (s t : string) :
  Str.drop n s = String c t -> Str.drop (S n) s = t.
Proof.
  replace (S n) with (n + 1) by lia. rewrite <-StrFacts.drop_drop. by intros ->.
Qed.

Lemma char_before_S (n : nat) (c : ascii) (s t : string) :
  Str.drop n s = String c t -> char_before s (S n) = Some c.
Proof.
  intros Hd. unfold char_before.
  rewrite (take_slice n (S n)) by lia. rewrite last_char_app.
  unfold Str.slice. rewrite Hd. by replace (S n - n) with 1 by lia.
Qed.

Lemma spans_cut (msg : string) (s : string) :
  forall skip pos lo,
    Str.drop pos msg = s -> skip <= String.length s ->
    lo <= pos + skip -> (skip <> 0 -> lo = pos + skip) ->
    let spans := Re.spans_from IP_PATTERN s skip pos (char_before msg pos) in
    cut (char_before msg lo) (Str.drop lo msg)
        (segments msg lo spans) (Str.drop (end_of lo spans) msg).
Proof.
  induction s as [|c s IH]; intros skip pos lo Hs Hskip Hlo Heq; simpl in *.
  - assert (skip = 0) as -> by lia. simpl.
    destruct (Re.match_at IP_PATTERN _) as [len|] eqn:Hm; simpl; [|constructor].
    pose proof (match_at_le _ _ _ Hm) as Hle. simpl in Hle.
    assert (len = 0) as -> by lia.
    apply match_at_sound in Hm as (w & rest & Hw & Hlen & Hlit).
    destruct w; [|done]. simpl in Hw. subst rest.
    rewrite Nat.add_0_r.
    rewrite (StrFacts.slice_split lo pos msg) by lia.
    rewrite slice_same, Hs.
    apply (cut_cons _ _ EmptyString EmptyString); [|constructor].
    by rewrite char_before_slice by lia.
  - pose proof (drop_S _ _ _ _ Hs) as Hs'.
    pose proof (char_before_S _ _ _ _ Hs) as Hc.
    destruct skip as [|skip].
    + destruct (Re.match_at IP_PATTERN _) as [len|] eqn:Hm; simpl.
      * pose proof (match_at_le _ _ _ Hm) as Hle. simpl in Hle.
        apply match_at_sound in Hm as (w & rest & Hw & Hlen & Hlit).
        assert (Str.drop (pos + len) msg = rest) as Hrest.
        { rewrite <-StrFacts.drop_drop, Hs, Hw, <-Hlen. apply StrFacts.drop_app_length. }
        assert (Str.slice pos (pos + len) msg = w) as Hsl.
        { unfold Str.slice. replace (pos + len - pos) with len by lia.
          rewrite Hs, Hw, <-Hlen. apply StrFacts.take_app_length. }
        rewrite (StrFacts.slice_split lo pos msg) by lia.
        rewrite (StrFacts.slice_split pos (pos + len) msg) by lia.
        rewrite Hsl, Hrest. constructor.
        -- by rewrite char_before_slice by lia.
        -- rewrite last_char_app, char_before_slice by lia.
           rewrite <-Hsl, char_before_slice by lia. rewrite <-Hrest.
           rewrite <-Hc. apply IH; try done; try lia.
      * rewrite <-Hc. apply IH; try done; lia.
    + rewrite <-Hc. apply IH; try done; lia.
Qed.

Lemma finditer_cut (msg : string) :
  cut None msg (segments msg 0 (Re.finditer IP_PATTERN msg))
      (Str.drop (end_of 0 (Re.finditer IP_PATTERN msg)) msg).
Proof. apply (spans_cut msg msg 0 0 0); try done; lia. Qed.

(** ** The matcher finds what the pattern matches *)

Lemma rep_stop body hi cur k :
  is_Some (k cur) -> is_Some (Re.rep body 0 hi cur k).
Proof.
  intros Hk. destruct hi as [|hi]; simpl; [done|].
  by destruct (body cur _).
Qed.

Lemma rep_S body lo hi cur k :
  Re.rep body lo (S hi) cur k
  = match body cur (fun cur' => Re.rep body (pred lo) hi cur' k) with
    | Some e => Some e
    | None => match lo with 0 => k cur | S _ => None end
    end.
Proof. done. Qed.

Lemma step_cons (ok : ascii -> bool) prev c s k :
  Re.step ok (prev, String c s) k = if ok c then k (Some c, s) else None.
Proof. done. Qed.

Lemma step_nil (ok : ascii -> bool) prev k : Re.step ok (prev, EmptyString) k = None.
Proof. done. Qed.

Lemma rep_set_more (ok : ascii -> bool) (hi : nat) :
  forall lo cur k hi',
    is_Some (Re.rep (Re.step ok) lo hi cur k) -> hi <= hi' ->
    is_Some (Re.rep (Re.step ok) lo hi' cur k).
Proof.
  induction hi as [|hi IH]; intros lo cur k hi' Hs Hle.
  - simpl in Hs. destruct lo; [|by destruct Hs]. by apply rep_stop.
  - destruct hi' as [|hi']; [lia|]. rewrite rep_S in *.
    destruct cur as [prev [|c s]].
    + by rewrite step_nil in *.
    + rewrite step_cons in *. destruct (ok c); [|done].
      destruct (Re.rep (Re.step ok) (pred lo) hi (Some c, s) k) as [e|] eqn:H1.
      * destruct (IH (pred lo) (Some c, s) k hi') as [e' ->]; [by rewrite H1|lia|].
        done.
      * destruct lo; [|by destruct Hs].
        by destruct (Re.rep (Re.step ok) (pred 0) hi' (Some c, s) k).
Qed.

Lemma run_complete (r : Re.regex) (prev : option ascii) (w rest : string) :
  Re.matches r prev w rest ->
  forall k, is_Some (k (Re.last_char prev w, rest)) ->
            is_Some (Re.run r (prev, w +:+ rest) k).
Proof.
  induction 1 as [p c prev rest Hc|cs c prev rest Hc
                 |r1 r2 prev w1 w2 rest _ IH1 _ IH2
                 |r1 r2 prev w rest _ IH|r1 r2 prev w rest _ IH
                 |hi r prev rest
                 |lo hi r prev w1 w2 rest _ IH1 _ IH2
                 |cs prev rest
                 |lo cs c prev w rest Hc _ IH
                 |cs prev rest Hn|cs prev rest Hn]; intros k Hk; cbn [Re.run].
  - change (String c EmptyString +:+ rest) with (String c rest).
    by rewrite step_cons, Hc.
  - change (String c EmptyString +:+ rest) with (String c rest).
    by rewrite step_cons, Hc.
  - rewrite StrFacts.app_assoc. apply IH1. apply IH2. by rewrite <-last_char_app.
  - by destruct (IH k Hk) as [e ->].
  - destruct (Re.run r1 (prev, w +:+ rest) k); [done|]. by apply IH.
  - by apply rep_stop.
  - rewrite rep_S, StrFacts.app_assoc.
    destruct (IH1 (fun cur' : Re.cursor => Re.rep (Re.run r) (pred lo) hi cur' k)) as [e ->]; [|done].
    apply (IH2 k). by rewrite <-last_char_app.
  - by apply rep_stop.
  - change (String c w +:+ rest) with (String c (w +:+ rest)). cbn [snd String.length].
    replace (lo + S (String.length (w +:+ rest)))
      with (S (lo + String.length (w +:+ rest))) by lia.
    rewrite rep_S, step_cons, Hc.
    destruct (rep_set_more (Re.in_set cs) (pred lo + String.length (w +:+ rest))
                (pred lo) (Some c, w +:+ rest) k (lo + String.length (w +:+ rest)))
      as [e ->]; [by apply (IH k)|lia|done].
  - cbn [fst]. by rewrite Hn.
  - cbn [snd]. change (EmptyString +:+ rest) with rest. by rewrite Hn.
Qed.

Lemma match_at_complete (prev : option ascii) (w rest : string) :
  ip_literal prev w rest -> is_Some (Re.match_at IP_PATTERN (prev, w +:+ rest)).
Proof.
  intros (Hb & Hm & Ha). unfold Re.match_at.
  destruct (Re.run IP_PATTERN (prev, w +:+ rest) Some) as [e|] eqn:Hrun; [done|].
  exfalso. unfold IP_PATTERN in Hrun. cbn [Re.run fst snd] in Hrun.
  rewrite Hb in Hrun.
  destruct (run_complete _ _ _ _ Hm
              (fun cur' : Re.cursor =>
                 if Re.not_in_set Pattern.guard (Re.next_char (snd cur'))
                 then Some cur' else None)) as [e He].
  - simpl. by rewrite Ha.
  - assert (Some e = None) as [=]. rewrite <-He. exact Hrun.
Qed.

Lemma match_at_none (msg : string) (p : nat) :
  Re.match_at IP_PATTERN (char_before msg p, Str.drop p msg) = None ->
  no_literal_at msg p.
Proof.
  intros Hn w rest Hd Hlit. apply match_at_complete in Hlit.
  rewrite <-Hd, Hn in Hlit. by destruct Hlit.
Qed.

(** where [finditer] reports nothing and is not inside a match, there is no
    IP literal *)
Lemma spans_free (msg : string) (s : string) :
  forall skip pos p,
    Str.drop pos msg = s -> skip <= String.length s ->
    pos + skip <= p <= pos + String.length s ->
    outside p (Re.spans_from IP_PATTERN s skip pos (char_before msg pos)) ->
    no_literal_at msg p.
Proof.
  induction s as [|c s IH]; intros skip pos p Hs Hskip Hp Hout; simpl in *.
  - assert (skip = 0) as -> by lia. assert (p = pos) as -> by lia.
    destruct (Re.match_at IP_PATTERN _) as [len|] eqn:Hm.
    + apply Forall_cons in Hout as [[_ Hne] _]. done.
    + apply match_at_none. by rewrite Hs.
  - pose proof (drop_S _ _ _ _ Hs) as Hs'.
    pose proof (char_before_S _ _ _ _ Hs) as Hc.
    destruct skip as [|skip].
    + destruct (Re.match_at IP_PATTERN _) as [len|] eqn:Hm.
      * apply Forall_cons in Hout as [[Hor Hne] Hout]. simpl in *.
        pose proof (match_at_le _ _ _ Hm) as Hle. simpl in Hle.
        rewrite <-Hc in Hout.
        apply (IH (pred len) (S pos) p); try done; lia.
      * destruct (decide (p = pos)) as [->|Hne].
        -- apply match_at_none. by rewrite Hs.
        -- rewrite <-Hc in Hout. apply (IH 0 (S pos) p); try done; lia.
    + rewrite <-Hc in Hout. apply (IH skip (S pos) p); try done; lia.
Qed.

Lemma finditer_free (msg : string) (p : nat) :
  p <= String.length msg -> outside p (Re.finditer IP_PATTERN msg) ->
  no_literal_at msg p.
Proof.
  intros Hp Hout. apply (spans_free msg msg 0 0 p); try done; lia.
Qed.

Lemma char_before_app (gap rest : string) :
  char_before (gap +:+ rest) (String.length gap) = Re.last_char None gap.
Proof. unfold char_before. by rewrite StrFacts.take_app_length. Qed.

Lemma cut_first prev s gap w segs tail :
  cut prev s ((gap, w) :: segs) tail ->
  exists rest, s = gap +:+ w +:+ rest /\ ip_literal (Re.last_char prev gap) w rest.
Proof. inversion 1; subst. by eexists. Qed.

(** a message in which no IP literal starts anywhere has no match *)
Lemma no_literal_no_match (msg : string) :
  (forall p, p <= String.length msg -> no_literal_at msg p) ->
  Re.finditer IP_PATTERN msg = [].
Proof.
  intros Hfree. pose proof (finditer_cut msg) as Hcut.
  destruct (Re.finditer IP_PATTERN msg) as [|m spans]; [done|]. exfalso.
  simpl in Hcut. apply cut_first in Hcut as (rest & Hmsg & Hlit).
  set (gap := Str.slice 0 (fst m) msg) in *.
  set (w := Str.slice (fst m) (snd m) msg) in *.
  apply (Hfree (String.length gap)) with (w := w) (rest := rest).
  - rewrite Hmsg, StrFacts.length_app. lia.
  - rewrite Hmsg at 1. apply StrFacts.drop_app_length.
  - rewrite Hmsg at 1. by rewrite char_before_app.
Qed.

(** ** The lifecycle markers go through the anonymizer *)

Lemma chain_starts lo spans hi :
  chain lo spans hi -> Forall (fun m => lo <= fst m) spans.
Proof.
  revert lo; induction spans as [|m spans IH]; intros lo; simpl; [constructor|].
  intros (H1 & H2 & H3). constructor; [done|].
  eapply Forall_impl; [apply (IH _ H3)|]. simpl. intros. lia.
Qed.

Lemma take_take_app (n a : nat) (s t : string) :
  n <= a -> a <= String.length s -> Str.take n (Str.take a s +:+ t) = Str.take n s.
Proof.
  revert a s; induction n as [|n IH]; intros a s Hn Ha.
  - by destruct (Str.take a s +:+ t), s.
  - destruct a as [|a]; [lia|]. destruct s as [|c s]; simpl in *; [lia|].
    f_equal. apply IH; lia.
Qed.

(** What comes before the first match is left as it is. *)
Lemma anonymized_take `{PyLib} (n : nat) (msg : string) :
  Forall (fun m => n <= fst m) (Re.finditer IP_PATTERN msg) ->
  Str.take n (anonymized msg) = Str.take n msg.
Proof.
  intros Hall. rewrite anonymized_rebuild.
  pose proof (finditer_chain IP_PATTERN msg) as Hch.
  destruct (Re.finditer IP_PATTERN msg) as [|m spans]; simpl in *.
  - done.
  - unfold rebuild. simpl. destruct Hch as (_ & Hab & Hch).
    apply chain_le in Hch. apply Forall_cons in Hall as [Hn _].
    unfold Str.slice. simpl. rewrite Nat.sub_0_r, !StrFacts.app_assoc.
    apply take_take_app; lia.
Qed.

Lemma spans_from_skip_none (r : Re.regex) c s pos prev :
  Re.match_at r (prev, String c s) = None ->
  Re.spans_from r (String c s) 0 pos prev = Re.spans_from r s 0 (S pos) (Some c).
Proof. intros H. simpl. by rewrite H. Qed.

Lemma finditer_START (rest : string) :
  Re.finditer IP_PATTERN ("START" +:+ rest)
  = Re.spans_from IP_PATTERN rest 0 5 (Some "T"%char).
Proof.
  unfold Re.finditer. cbn [String.append].
  rewrite spans_from_skip_none by (vm_compute; reflexivity).
  do 4 (rewrite spans_from_skip_none by (by apply match_at_guarded)).
  done.
Qed.

Lemma finditer_END (rest : string) :
  Re.finditer IP_PATTERN ("END" +:+ rest)
  = Re.spans_from IP_PATTERN rest 0 3 (Some "D"%char).
Proof.
  unfold Re.finditer. cbn [String.append].
  rewrite spans_from_skip_none by (vm_compute; reflexivity).
  do 2 (rewrite spans_from_skip_none by (by apply match_at_guarded)).
  done.
Qed.

Lemma finditer_REPORT (rest : string) :
  Re.finditer IP_PATTERN ("REPORT" +:+ rest)
  = Re.spans_from IP_PATTERN rest 0 6 (Some "T"%char).
Proof.
  unfold Re.finditer. cbn [String.append].
  rewrite spans_from_skip_none by (vm_compute; reflexivity).
  do 5 (rewrite spans_from_skip_none by (by apply match_at_guarded)).
  done.
Qed.

(** A lifecycle marker at the start of a message is still there after the
    anonymizer. *)
Lemma anonymized_marker `{PyLib} (p msg : string) :
  is_marker p -> Str.startswith p msg = true ->
  Str.startswith p (anonymized msg) = true.
Proof.
  intros Hp Hs. apply (StrFacts.startswith_take p msg); [|done].
  symmetry. apply anonymized_take.
  apply StrFacts.startswith_spec in Hs as [rest ->].
  destruct Hp as [->| [->| ->]].
  - rewrite finditer_START.
    eapply Forall_impl; [eapply chain_starts; apply (spans_chain _ rest 0 5); lia|].
    simpl. intros. lia.
  - rewrite finditer_END.
    eapply Forall_impl; [eapply chain_starts; apply (spans_chain _ rest 0 3); lia|].
    simpl. intros. lia.
  - rewrite finditer_REPORT.
    eapply Forall_impl; [eapply chain_starts; apply (spans_chain _ rest 0 6); lia|].
    simpl. intros. lia.
Qed.

(** ** The runtime message parser *)

Lemma index_app (c : ascii) (s t : string) :
  Str.index c (s +:+ t)
  = match Str.index c s with
    | Some n => Some n
    | None => (fun n => String.length s + n) <$> Str.index c t
    end.
Proof.
  induction s as [|d s IH]; simpl.
  - by destruct (Str.index c t).
  - destruct (Ascii.eqb d c); [done|]. rewrite IH.
    destruct (Str.index c s); [done|]. by destruct (Str.index c t).
Qed.

Lemma index_take (c : ascii) (s : string) (n : nat) :
  Str.index c s = Some n ->
  Str.index c (Str.take n s) = None /\ Str.drop n s = String c (Str.drop (S n) s).
Proof.
  revert n; induction s as [|d s IH]; intros n; simpl; [done|].
  destruct (Ascii.eqb d c) eqn:Hd.
  - intros [= <-]. apply Ascii.eqb_eq in Hd as ->. by destruct s.
  - destruct (Str.index c s) as [m|]; [|done]. intros [= <-].
    destruct (IH m eq_refl) as [H1 H2]. simpl. by rewrite Hd, H1.
Qed.

Lemma index_app_None (c : ascii) (s t : string) :
  Str.index c (s +:+ t) = None -> Str.index c s = None /\ Str.index c t = None.
Proof.
  rewrite index_app. destruct (Str.index c s); [done|].
  by destruct (Str.index c t).
Qed.

(** the two brackets of a level, seen from the code *)
Lemma bracketed_indices (pre tok rest : string) :
  Str.index "[" pre = None -> Str.index "]" pre = None -> Str.index "]" tok = None ->
  let msg := pre +:+ "[" +:+ tok +:+ "]" +:+ rest in
  Str.index "[" msg = Some (String.length pre)
  /\ Str.index "]" msg = Some (String.length pre + 1 + String.length tok)
  /\ Str.slice (String.length pre + 1) (String.length pre + 1 + String.length tok) msg = tok
  /\ Str.drop (String.length pre + 1 + String.length tok + 2) msg = Str.drop 1 rest.
Proof.
  intros H1 H2 H3 msg. subst msg. repeat split.
  - rewrite index_app, H1. simpl. f_equal. lia.
  - rewrite index_app, H2. simpl. rewrite index_app, H3. simpl. f_equal. lia.
  - unfold Str.slice. rewrite <-StrFacts.drop_drop, StrFacts.drop_app_length. simpl.
    replace (String.length pre + 1 + String.length tok - (String.length pre + 1))
      with (String.length tok) by lia.
    apply StrFacts.take_app_length.
  - rewrite <-!StrFacts.drop_drop, StrFacts.drop_app_length. simpl.
    rewrite StrFacts.drop_app_length. simpl. by destruct rest.
Qed.

Lemma find_level_spec (msg : string) :
  level_prefix msg (fst (find_level msg)) (Str.drop (snd (find_level msg)) msg).
Proof.
  unfold find_level.
  destruct (Str.index "[" msg) as [a|] eqn:Ha; cycle 1.
  { simpl. apply level_absent. intros pre tok rest -> H1 H2 H3.
    destruct (bracketed_indices pre tok rest H1 H2 H3) as (Hi & _). congruence. }
  destruct (Str.index "]" msg) as [b|] eqn:Hb; cycle 1.
  { simpl. apply level_absent. intros pre tok rest -> H1 H2 H3.
    destruct (bracketed_indices pre tok rest H1 H2 H3) as (_ & Hi & _). congruence. }
  case_bool_decide as Hlev; simpl.
  - destruct (decide (a + 1 <= b)) as [Hab|Hab]; cycle 1.
    { exfalso. unfold Str.slice in Hlev.
      replace (b - (a + 1)) with 0 in Hlev by lia. simpl in Hlev.
      destruct (Str.drop (a + 1) msg); vm_compute in Hlev;
        by repeat (apply elem_of_cons in Hlev as [?|Hlev]; [done|]);
           apply elem_of_nil in Hlev. }
    destruct (index_take _ _ _ Ha) as [Ha1 Ha2].
    destruct (index_take _ _ _ Hb) as [Hb1 Hb2].
    assert (Str.take b msg = Str.take a msg +:+ "[" +:+ Str.slice (a + 1) b msg) as Htb.
    { rewrite (take_slice a b) by lia. f_equal.
      unfold Str.slice. rewrite Ha2.
      replace (b - a) with (S (b - (a + 1))) by lia. simpl.
      by replace (a + 1) with (S a) by lia. }
    rewrite Htb in Hb1. apply index_app_None in Hb1 as [Hb1 Hb3].
    assert (Str.index "]" (Str.slice (a + 1) b msg) = None) as Hb4.
    { simpl in Hb3. by destruct (Str.index "]" (Str.slice (a + 1) b msg)). }
    assert (msg = Str.take a msg +:+ "[" +:+ Str.slice (a + 1) b msg
                  +:+ "]" +:+ Str.drop (S b) msg) as Hmsg.
    { rewrite <-(StrFacts.take_drop b msg) at 1. rewrite Htb, Hb2. by rewrite !StrFacts.app_assoc. }
    replace (Str.drop (b + 2) msg) with (Str.drop 1 (Str.drop (S b) msg))
      by (rewrite StrFacts.drop_drop; f_equal; lia).
    by apply (level_found msg (Str.take a msg) (Str.slice (a + 1) b msg)
                (Str.drop (S b) msg)).
  - apply level_absent. intros pre tok rest Hmsg H1 H2 H3.
    destruct (bracketed_indices pre tok rest H1 H2 H3) as (Hi1 & Hi2 & Hsl & _).
    rewrite <-Hmsg in Hi1, Hi2, Hsl.
    assert (a = String.length pre) by congruence.
    assert (b = String.length pre + 1 + String.length tok) by congruence.
    subst a b. by rewrite Hsl in Hlev.
Qed.

Lemma split_nonempty (c : ascii) (s : string) : Str.split c s <> [].
Proof.
  destruct s as [|d s]; simpl; [done|].
  destruct (Ascii.eqb d c); [done|]. by destruct (Str.split c s).
Qed.

(** [split] cuts at every separator and nowhere else. *)
Lemma split_spec (c : ascii) (s : string) :
  Str.join (String c EmptyString) (Str.split c s) = s
  /\ Forall (fun p => Str.index c p = None) (Str.split c s).
Proof.
  induction s as [|d s [IH1 IH2]]; simpl.
  - split; [done|]. by repeat constructor.
  - destruct (Ascii.eqb d c) eqn:Hd.
    + apply Ascii.eqb_eq in Hd as ->. split.
      * pose proof (split_nonempty c s).
        destruct (Str.split c s) as [|p ps]; [done|].
        simpl in *. by rewrite IH1.
      * by constructor.
    + pose proof (split_nonempty c s).
      destruct (Str.split c s) as [|p ps]; [done|]. split.
      * destruct ps; simpl in *; by rewrite <-IH1.
      * apply Forall_cons in IH2 as [Hp Hps]. constructor; [|done].
        simpl. by rewrite Hd, Hp.
Qed.

Lemma extract_lambda_log_message_parts (log : gmap string value) (v : value) :
  log !! "message" = Some v ->
  let f := find_level (py_str v) in
  _extract_lambda_log_message log
  = Ok (parsed_record (fst f) (Str.split tab (Str.drop (snd f) (py_str v))) log).
Proof.
  intros Hm. unfold _extract_lambda_log_message, getitem. rewrite Hm. simpl.
  destruct (find_level (py_str v)) as [level start]. simpl.
  fold tab. fold (with_level level log).
  destruct (Str.split tab (Str.drop start (py_str v))) as [|p0 [|p1 [|p2 [|p3 [|p4 ps]]]]];
    done.
Qed.

(** C1. The runtime message parser, on a record with a message: step 1 finds
    the level in brackets and the remainder (the text after the closing
    bracket and one more character), or no level and the whole message; the
    remainder is split at the tabs; with 3 or 4 parts the record gets
    [@timestamp], [requestID] and [message] from the first, the second and the
    last part, with 4 parts also [log_level] from the third, whatever step 1
    found; with any other number of parts the record is as step 1 left it.
    No error is raised.  The message of the specification's example is parsed
    into ERROR, the timestamp, req-123 and boom. *)
Theorem runtime_message_parser :
  (forall (log : gmap string value) (v : value),
      log !! "message" = Some v ->
      exists level remainder,
        level_prefix (py_str v) level remainder
        /\ Str.join (String tab EmptyString) (Str.split tab remainder) = remainder
        /\ Forall (fun p => Str.index tab p = None) (Str.split tab remainder)
        /\ _extract_lambda_log_message log
           = Ok (parsed_record level (Str.split tab remainder) log))
  /\ _extract_lambda_log_message Sample.runtime_log
     = Ok (<["message" := VStr "boom"]>
             (<["requestID" := VStr "req-123"]>
                (<["@timestamp" := VStr "2024-01-01T00:00:00Z"]>
                   (<["log_level" := VStr "ERROR"]> Sample.runtime_log)))).
Proof.
  split.
  - intros log v Hm.
    exists (fst (find_level (py_str v))),
           (Str.drop (snd (find_level (py_str v))) (py_str v)).
    split; [apply find_level_spec|].
    destruct (split_spec tab (Str.drop (snd (find_level (py_str v))) (py_str v)))
      as [Hj Hf].
    repeat split; try done.
    by apply extract_lambda_log_message_parts.
  - by rewrite (extract_lambda_log_message_parts _ (VStr Sample.runtime_message)).
Qed.

Lemma runtime_message_parser_witness :
  exists level remainder,
    level_prefix Sample.runtime_message level remainder
    /\ Str.join (String tab EmptyString) (Str.split tab remainder) = remainder
    /\ Forall (fun p => Str.index tab p = None) (Str.split tab remainder)
    /\ _extract_lambda_log_message Sample.runtime_log
       = Ok (parsed_record level (Str.split tab remainder) Sample.runtime_log).
Proof.
  apply (proj1 runtime_message_parser Sample.runtime_log
               (VStr Sample.runtime_message)).
  reflexivity.
Defined.

(** ** The timestamp *)

Lemma add_timestamp_renames (log : gmap string value) (ts : value) :
  log !! "@timestamp" = None -> log !! "timestamp" = Some ts ->
  _add_timestamp log
  = Ok (delete "timestamp" (<["@timestamp" := VStr (py_str ts)]> log)).
Proof.
  intros H1 H2. unfold _add_timestamp, getitem, delitem. rewrite H1, H2. simpl.
  by rewrite lookup_insert_ne, H2.
Qed.

Lemma add_timestamp_keeps (log : gmap string value) :
  is_Some (log !! "@timestamp") -> _add_timestamp log = Ok log.
Proof. intros [v Hv]. unfold _add_timestamp. by rewrite Hv. Qed.

Lemma add_timestamp_missing (log : gmap string value) :
  log !! "@timestamp" = None -> log !! "timestamp" = None ->
  _add_timestamp log = Raise (KeyError "timestamp").
Proof. intros H1 H2. unfold _add_timestamp, getitem. by rewrite H1, H2. Qed.

(** C8, as the code has it.  On a record that has one of the two keys the
    first step returns, and [@timestamp] is a key afterwards.  A record that
    came without [@timestamp] has its [timestamp] renamed, so exactly one of
    the two keys is left; a record that came with [@timestamp] is returned
    as it is, so exactly one key is left unless it came with both. *)
Theorem add_timestamp_keys (log : gmap string value) :
  is_Some (log !! "@timestamp") \/ is_Some (log !! "timestamp") ->
  exists log',
    _add_timestamp log = Ok log'
    /\ is_Some (log' !! "@timestamp")
    /\ (log !! "@timestamp" = None ->
        log' !! "timestamp" = None
        /\ exists ts, log !! "timestamp" = Some ts
                      /\ log' = delete "timestamp" (<["@timestamp" := VStr (py_str ts)]> log))
    /\ (is_Some (log !! "@timestamp") -> log' = log)
    /\ (~ (is_Some (log !! "@timestamp") /\ is_Some (log !! "timestamp")) ->
        one_timestamp log').
Proof.
  intros Hkeys.
  destruct (log !! "@timestamp") as [at_ts|] eqn:Hat.
  - exists log. rewrite add_timestamp_keeps by (by rewrite Hat).
    split; [done|]. split; [by rewrite Hat|]. split; [done|]. split; [done|].
    intros Hnot. unfold one_timestamp, has_key.
    rewrite bool_decide_eq_true_2 by (by rewrite Hat).
    rewrite bool_decide_eq_false_2; [done|].
    intros Hts. apply Hnot. split; [by eexists|done].
  - destruct Hkeys as [[? ?]|[ts Hts]]; [done|].
    exists (delete "timestamp" (<["@timestamp" := VStr (py_str ts)]> log)).
    rewrite (add_timestamp_renames log ts) by done.
    assert (delete "timestamp" (<["@timestamp" := VStr (py_str ts)]> log) !! "@timestamp"
            = Some (VStr (py_str ts))) as Hnew.
    { by rewrite lookup_delete_ne, lookup_insert_eq. }
    split; [done|]. split; [by rewrite Hnew|].
    split; [intros _; split; [apply lookup_delete_eq|by exists ts]|].
    split; [by intros [? ?]|].
    intros _. unfold one_timestamp, has_key.
    rewrite bool_decide_eq_true_2 by (by rewrite Hnew).
    rewrite bool_decide_eq_false_2; [done|].
    rewrite lookup_delete_eq. by intros [? ?].
Qed.

Lemma add_timestamp_keys_witness :
  exists log',
    _add_timestamp Sample.raw_timestamp = Ok log'
    /\ is_Some (log' !! "@timestamp")
    /\ (Sample.raw_timestamp !! "@timestamp" = None ->
        log' !! "timestamp" = None
        /\ exists ts, Sample.raw_timestamp !! "timestamp" = Some ts
                      /\ log' = delete "timestamp"
                                  (<["@timestamp" := VStr (py_str ts)]> Sample.raw_timestamp))
    /\ (is_Some (Sample.raw_timestamp !! "@timestamp") -> log' = Sample.raw_timestamp)
    /\ (~ (is_Some (Sample.raw_timestamp !! "@timestamp")
           /\ is_Some (Sample.raw_timestamp !! "timestamp")) ->
        one_timestamp log').
Proof.
  apply (add_timestamp_keys Sample.raw_timestamp).
  right. exists (VInt 1704067200000). reflexivity.
Defined.

(** C8 as the specification words it fails on a record that arrives with both
    keys: the step returns it unchanged, and both keys are still there. *)
Lemma add_timestamp_both_keys :
  _add_timestamp Sample.both_timestamps = Ok Sample.both_timestamps
  /\ ~ one_timestamp Sample.both_timestamps.
Proof. split; [reflexivity|]. vm_compute. discriminate. Qed.

(** ** The loop of the handler and the steps on a record *)

Section Loop.
Context {L : PyLib}.
Variable environ : gmap string string.

Lemma ship_spec (additional_data : gmap string value) (logEvents : list value) :
  forall calls,
    ship environ additional_data logEvents calls
    = (calls ++ map Add (delivered environ additional_data logEvents),
       match batch_error environ additional_data logEvents with
       | Some e => Raise e
       | None => Ok tt
       end).
Proof.
  induction logEvents as [|entry rest IH]; intros calls; simpl.
  - by rewrite app_nil_r.
  - destruct entry; simpl; try by rewrite app_nil_r.
    destruct (_parse_cloudwatch_log _ _ _) as [[[] log]|e]; simpl.
    + rewrite IH. by rewrite <-app_assoc.
    + apply IH.
    + by rewrite app_nil_r.
Qed.

Lemma lambda_handler_spec (event : value) :
  lambda_handler environ event
  = match read_batch environ event with
    | Raise e => ([], Raise e)
    | Ok (additional_data, logEvents) =>
        match batch_error environ additional_data logEvents with
        | Some e => (map Add (delivered environ additional_data logEvents), Raise e)
        | None => (map Add (delivered environ additional_data logEvents) ++ [Flush], Ok tt)
        end
    end.
Proof.
  unfold lambda_handler. destruct (read_batch environ event) as [[ad evs]|e]; [|done].
  rewrite ship_spec. simpl. by destruct (batch_error environ ad evs).
Qed.

Lemma batch_all_return (additional_data : gmap string value) (logEvents : list value) :
  Forall (fun entry => returns (entry_outcome environ additional_data entry)) logEvents ->
  batch_error environ additional_data logEvents = None
  /\ delivered environ additional_data logEvents
     = omap (fun entry => survivor (entry_outcome environ additional_data entry)) logEvents.
Proof.
  induction 1 as [|entry rest Hret _ [IH1 IH2]]; simpl; [done|].
  destruct (entry_outcome environ additional_data entry) as [[[] log]|e]; simpl;
    try done; by rewrite IH1, IH2.
Qed.

Lemma batch_first_raise (additional_data : gmap string value)
    (before : list value) (entry : value) (after : list value) (e : exn) :
  Forall (fun entry => returns (entry_outcome environ additional_data entry)) before ->
  entry_outcome environ additional_data entry = Raise e ->
  batch_error environ additional_data (before ++ entry :: after) = Some e
  /\ delivered environ additional_data (before ++ entry :: after)
     = omap (fun entry => survivor (entry_outcome environ additional_data entry)) before.
Proof.
  intros Hbefore Hentry.
  induction Hbefore as [|x before Hret _ [IH1 IH2]]; simpl.
  - by rewrite Hentry.
  - destruct (entry_outcome environ additional_data x) as [[[] log]|e']; simpl;
      try done; by rewrite IH1, IH2.
Qed.

Lemma batch_some_raise (additional_data : gmap string value) (logEvents : list value)
    (entry : value) :
  entry ∈ logEvents -> raises (entry_outcome environ additional_data entry) ->
  is_Some (batch_error environ additional_data logEvents).
Proof.
  induction 1 as [entry rest|entry x rest _ IH]; intros Hr; simpl.
  - destruct (entry_outcome _ _ entry); [done|by eexists].
  - destruct (entry_outcome _ _ x); [by apply IH|by eexists].
Qed.

(** every record handed to the shipper is what the loop made of an entry *)
Lemma delivered_from_entry (additional_data : gmap string value)
    (logEvents : list value) (log : gmap string value) :
  log ∈ delivered environ additional_data logEvents ->
  exists entry, entry ∈ logEvents
                /\ entry_outcome environ additional_data entry = Ok (true, log).
Proof.
  induction logEvents as [|x rest IH]; simpl; [by intros ?%elem_of_nil|].
  destruct (entry_outcome environ additional_data x) as [[[] log']|e] eqn:Hx.
  - intros [->|Hin]%elem_of_cons.
    + exists x. split; [left|done].
    + destruct (IH Hin) as (entry & ? & ?). exists entry. split; [by right|done].
  - intros Hin. destruct (IH Hin) as (entry & ? & ?). exists entry. split; [by right|done].
  - by intros ?%elem_of_nil.
Qed.

Lemma add_timestamp_other (log log' : gmap string value) (k : string) :
  _add_timestamp log = Ok log' -> k <> "@timestamp" -> k <> "timestamp" ->
  log' !! k = log !! k.
Proof.
  unfold _add_timestamp, getitem, delitem.
  destruct (log !! "@timestamp") eqn:Hat; [by intros [= ->]|].
  destruct (log !! "timestamp") eqn:Hts; simpl; [|done].
  rewrite lookup_insert_ne, Hts by done. intros [= <-] ? ?.
  by rewrite lookup_delete_ne, lookup_insert_ne.
Qed.

Lemma anonymize_ip_addresses_spec (log : gmap string value) (v : value) :
  log !! "message" = Some v ->
  _anonymize_ip_addresses log = Ok (<["message" := VStr (anonymized (py_str v))]> log).
Proof. intros Hm. unfold _anonymize_ip_addresses, getitem. by rewrite Hm. Qed.

Lemma anonymize_ip_addresses_missing (log : gmap string value) :
  log !! "message" = None ->
  _anonymize_ip_addresses log = Raise (KeyError "message").
Proof. intros Hm. unfold _anonymize_ip_addresses, getitem. by rewrite Hm. Qed.

Lemma is_valid_log_spec (log : gmap string value) (m : string) :
  log !! "message" = Some (VStr m) -> _is_valid_log log = Ok (negb (is_noise m)).
Proof. intros Hm. unfold _is_valid_log, getitem. by rewrite Hm. Qed.

Lemma parsed_record_other (level : option string) (parts : list string)
    (log : gmap string value) (k : string) :
  k <> "log_level" -> k <> "@timestamp" -> k <> "requestID" -> k <> "message" ->
  parsed_record level parts log !! k = log !! k.
Proof.
  intros. assert (with_level level log !! k = log !! k) as Hl.
  { destruct level; simpl; [by rewrite lookup_insert_ne|done]. }
  destruct parts as [|p0 [|p1 [|p2 [|p3 [|p4 ps]]]]]; simpl; try done;
    by rewrite !lookup_insert_ne.
Qed.

Lemma finish_log_no_id (log additional_data : gmap string value) :
  log !! "id" = None -> finish_log environ log additional_data = Raise (KeyError "id").
Proof. intros Hid. unfold finish_log, delitem. by rewrite Hid. Qed.

(** the steps of [_parse_cloudwatch_log], once the first ones have gone through *)
Lemma parse_cloudwatch_log_steps (log log1 additional_data : gmap string value)
    (v service : value) (is_lambda : bool) :
  _add_timestamp log = Ok log1 ->
  log !! "message" = Some v ->
  additional_data !! "service" = Some service ->
  py_contains LAMBDA_LOG_GROUP service = Ok is_lambda ->
  let text := anonymized (py_str v) in
  let log2 := <["message" := VStr text]> log1 in
  _parse_cloudwatch_log environ log additional_data
  = if is_lambda then
      if is_noise text then Ok (false, log2)
      else finish_log environ
             (parsed_record (fst (find_level text))
                (Str.split tab (Str.drop (snd (find_level text)) text)) log2)
             additional_data
    else finish_log environ log2 additional_data.
Proof.
  intros Hts Hm Hsvc Hin text log2.
  unfold _parse_cloudwatch_log. rewrite Hts. simpl.
  rewrite (anonymize_ip_addresses_spec log1 v)
    by (by rewrite (add_timestamp_other log log1)).
  simpl. unfold getitem at 1. rewrite Hsvc. simpl. rewrite Hin. simpl.
  destruct is_lambda; [|done].
  rewrite (is_valid_log_spec _ text) by apply lookup_insert_eq. simpl.
  fold text. destruct (is_noise text); simpl; [done|].
  rewrite (extract_lambda_log_message_parts _ (VStr text)) by apply lookup_insert_eq.
  done.
Qed.

End Loop.

(** ** Records that are dropped, emitted, or fatal *)

Section Steps.
Context {L : PyLib}.
Variable environ : gmap string string.

Lemma is_noise_marker (marker message : string) :
  is_marker marker -> Str.startswith marker message = true ->
  is_noise (anonymized message) = true.
Proof.
  intros Hm Hs. pose proof (anonymized_marker marker message Hm Hs) as Ha.
  unfold is_noise. destruct Hm as [->|[->| ->]]; rewrite Ha; simpl;
    by rewrite ?orb_true_r.
Qed.

Lemma add_timestamp_returns (log : gmap string value) :
  is_Some (log !! "@timestamp") \/ is_Some (log !! "timestamp") ->
  exists log1, _add_timestamp log = Ok log1.
Proof.
  intros Hk. destruct (log !! "@timestamp") as [x|] eqn:Hat.
  - exists log. apply add_timestamp_keeps. by rewrite Hat.
  - destruct Hk as [[? ?]|[ts Hts]]; [done|]. eexists.
    by apply add_timestamp_renames.
Qed.

Lemma add_timestamp_raises (log : gmap string value) (e : exn) :
  _add_timestamp log = Raise e -> e = KeyError "timestamp".
Proof.
  unfold _add_timestamp, getitem, delitem.
  destruct (log !! "@timestamp"); [done|].
  destruct (log !! "timestamp") eqn:Hts; simpl; [|congruence].
  by rewrite lookup_insert_ne, Hts.
Qed.

Lemma parse_to_json_off (log : gmap string value) :
  flatten_off environ -> _parse_to_json environ log = Ok log.
Proof.
  intros Hoff. unfold _parse_to_json, getenv.
  destruct (environ !! "FORMAT") as [format|] eqn:Hf; simpl; [|done].
  by rewrite (Hoff format Hf).
Qed.

Lemma finish_log_off (log additional_data : gmap string value) :
  flatten_off environ -> is_Some (log !! "id") ->
  finish_log environ log additional_data = Ok (true, additional_data ∪ delete "id" log).
Proof.
  intros Hoff [x Hid]. unfold finish_log, delitem. rewrite Hid. simpl.
  by rewrite parse_to_json_off.
Qed.

Lemma parsed_record_message (level : option string) (parts : list string)
    (log : gmap string value) (text : string) :
  log !! "message" = Some (VStr text) ->
  exists s, parsed_record level parts log !! "message" = Some (VStr s).
Proof.
  intros Hm. assert (with_level level log !! "message" = Some (VStr text)) as Hl.
  { destruct level; simpl; [by rewrite lookup_insert_ne|done]. }
  destruct parts as [|p0 [|p1 [|p2 [|p3 [|p4 ps]]]]]; simpl; eauto.
  - eexists. apply lookup_insert_eq.
  - eexists. rewrite lookup_insert_ne by done. apply lookup_insert_eq.
Qed.

End Steps.



Section MissingId.
Context {L : PyLib}.
Variable environ : gmap string string.

(** an entry without [id] that gets as far as the removal of [id] *)
Lemma parse_cloudwatch_log_no_id (log additional_data : gmap string value)
    (service v : value) (is_lambda : bool) :
  log !! "id" = None ->
  is_Some (log !! "@timestamp") \/ is_Some (log !! "timestamp") ->
  log !! "message" = Some v ->
  additional_data !! "service" = Some service ->
  py_contains LAMBDA_LOG_GROUP service = Ok is_lambda ->
  (is_lambda = true -> is_noise (anonymized (py_str v)) = false) ->
  _parse_cloudwatch_log environ log additional_data = Raise (KeyError "id").
Proof.
  intros Hid Hk Hm Hsvc Hin Hvalid.
  destruct (add_timestamp_returns log Hk) as [log1 H1].
  rewrite (parse_cloudwatch_log_steps environ log log1 additional_data v service is_lambda)
    by done.
  assert (log1 !! "id" = None) as Hid1 by (by rewrite (add_timestamp_other log log1)).
  destruct is_lambda.
  - rewrite Hvalid by done. apply finish_log_no_id.
    rewrite parsed_record_other by done. by rewrite lookup_insert_ne.
  - apply finish_log_no_id. by rewrite lookup_insert_ne.
Qed.

(** an entry without [id], whatever else it has *)
Lemma parse_cloudwatch_log_no_id_any (log additional_data : gmap string value)
    (service : value) (is_lambda : bool) :
  log !! "id" = None ->
  additional_data !! "service" = Some service ->
  py_contains LAMBDA_LOG_GROUP service = Ok is_lambda ->
  (exists log', _parse_cloudwatch_log environ log additional_data = Ok (false, log'))
  \/ (exists key, _parse_cloudwatch_log environ log additional_data = Raise (KeyError key)).
Proof.
  intros Hid Hsvc Hin.
  destruct (_add_timestamp log) as [log1|e] eqn:H1; cycle 1.
  { right. exists "timestamp". unfold _parse_cloudwatch_log. rewrite H1.
    by rewrite (add_timestamp_raises log e H1). }
  destruct (log !! "message") as [v|] eqn:Hm; cycle 1.
  { right. exists "message". unfold _parse_cloudwatch_log. rewrite H1. simpl.
    rewrite anonymize_ip_addresses_missing; [done|].
    by rewrite (add_timestamp_other log log1). }
  rewrite (parse_cloudwatch_log_steps environ log log1 additional_data v service is_lambda)
    by done.
  assert (log1 !! "id" = None) as Hid1 by (by rewrite (add_timestamp_other log log1)).
  destruct is_lambda.
  - destruct (is_noise _); [left; by eexists|].
    right. exists "id". apply finish_log_no_id.
    rewrite parsed_record_other by done. by rewrite lookup_insert_ne.
  - right. exists "id". apply finish_log_no_id. by rewrite lookup_insert_ne.
Qed.

Lemma handler_aborts (event : value) (additional_data : gmap string value)
    (logEvents : list value) (entry : value) :
  read_batch environ event = Ok (additional_data, logEvents) ->
  entry ∈ logEvents -> raises (entry_outcome environ additional_data entry) ->
  (exists e, snd (lambda_handler environ event) = Raise e)
  /\ Flush ∉ fst (lambda_handler environ event).
Proof.
  intros Hb Hin Hr. rewrite lambda_handler_spec, Hb.
  destruct (batch_some_raise environ _ _ _ Hin Hr) as [e ->]. simpl.
  split; [by exists e|].
  intros (x & [=] & _)%list_elem_of_fmap.
Qed.

End MissingId.

(** C9.  An entry that is a dict, has the fields the earlier steps read, is
    not dropped as noise, and has no [id]: [_parse_cloudwatch_log] raises
    KeyError at the removal of [id]; nothing catches it, so the handler ends
    with that error after the adds of the entries before it, and flush is not
    called.  Whatever else an entry without [id] lacks, it is dropped as noise
    or a KeyError ends the invocation. *)
Theorem missing_id_is_fatal :
  (forall (L : PyLib) (environ : gmap string string)
          (additional_data log : gmap string value)
          (service v : value) (is_lambda : bool),
      log !! "id" = None ->
      is_Some (log !! "@timestamp") \/ is_Some (log !! "timestamp") ->
      log !! "message" = Some v ->
      additional_data !! "service" = Some service ->
      py_contains LAMBDA_LOG_GROUP service = Ok is_lambda ->
      (is_lambda = true -> is_noise (anonymized (py_str v)) = false) ->
      _parse_cloudwatch_log environ log additional_data = Raise (KeyError "id")
      /\ forall event before after items,
           read_batch environ event
           = Ok (additional_data, before ++ VDict items :: after) ->
           dict_of_items items = log ->
           (exists e, snd (lambda_handler environ event) = Raise e)
           /\ (Flush ∉ fst (lambda_handler environ event))
           /\ (Forall (fun entry => returns (entry_outcome environ additional_data entry))
                      before ->
               lambda_handler environ event
               = (map Add (omap (fun entry =>
                                   survivor (entry_outcome environ additional_data entry))
                                before),
                  Raise (KeyError "id"))))
  /\ (forall (L : PyLib) (environ : gmap string string)
             (additional_data log : gmap string value)
             (service : value) (is_lambda : bool),
         log !! "id" = None ->
         additional_data !! "service" = Some service ->
         py_contains LAMBDA_LOG_GROUP service = Ok is_lambda ->
         (exists log', _parse_cloudwatch_log environ log additional_data = Ok (false, log'))
         \/ (exists key, _parse_cloudwatch_log environ log additional_data
                         = Raise (KeyError key))).
Proof.
  split; [|intros; by eapply parse_cloudwatch_log_no_id_any].
  intros L environ additional_data log service v is_lambda Hid Hk Hm Hsvc Hin Hvalid.
  pose proof (parse_cloudwatch_log_no_id environ log additional_data service v is_lambda
                Hid Hk Hm Hsvc Hin Hvalid) as Hraise.
  split; [done|].
  intros event before after items Hb Hitems.
  assert (entry_outcome environ additional_data (VDict items) = Raise (KeyError "id"))
    as Hout by (simpl; by rewrite Hitems).
  destruct (handler_aborts environ event additional_data _ (VDict items) Hb) as [He Hf].
  { apply elem_of_app. right. left. }
  { by rewrite Hout. }
  split; [done|]. split; [done|].
  intros Hbefore. rewrite lambda_handler_spec, Hb.
  destruct (batch_first_raise environ additional_data before (VDict items) after
              (KeyError "id") Hbefore Hout) as [-> ->].
  done.
Qed.

Lemma missing_id_is_fatal_witness :
  _parse_cloudwatch_log (L:=Sample.lib) Sample.no_environ Sample.no_id_log
    Sample.app_data = Raise (KeyError "id")
  /\ forall event before after items,
       read_batch (L:=Sample.lib) Sample.no_environ event
       = Ok (Sample.app_data, before ++ VDict items :: after) ->
       dict_of_items items = Sample.no_id_log ->
       (exists e, snd (lambda_handler (L:=Sample.lib) Sample.no_environ event) = Raise e)
       /\ (Flush ∉ fst (lambda_handler (L:=Sample.lib) Sample.no_environ event))
       /\ (Forall (fun entry => returns (entry_outcome (L:=Sample.lib) Sample.no_environ
                                           Sample.app_data entry)) before ->
           lambda_handler (L:=Sample.lib) Sample.no_environ event
           = (map Add (omap (fun entry =>
                               survivor (entry_outcome (L:=Sample.lib) Sample.no_environ
                                           Sample.app_data entry)) before),
              Raise (KeyError "id"))).
Proof.
  apply (proj1 missing_id_is_fatal Sample.lib Sample.no_environ Sample.app_data
           Sample.no_id_log (VStr "/ecs/app") (VStr "hello") false).
  - reflexivity.
  - right. exists (VInt 1704067200000). reflexivity.
  - reflexivity.
  - reflexivity.
  - reflexivity.
  - discriminate.
Defined.

(** an entry with the fields the loop reads goes through it *)
Lemma entry_returns `{PyLib} (environ : gmap string string)
    (additional_data : gmap string value) (items : list (string * value))
    (service : value) (is_lambda : bool) :
  flatten_off environ ->
  additional_data !! "service" = Some service ->
  py_contains LAMBDA_LOG_GROUP service = Ok is_lambda ->
  is_Some (dict_of_items items !! "@timestamp")
  \/ is_Some (dict_of_items items !! "timestamp") ->
  is_Some (dict_of_items items !! "message") ->
  is_Some (dict_of_items items !! "id") ->
  returns (entry_outcome environ additional_data (VDict items)).
Proof.
  intros Hoff Hsvc Hin Hts [v Hm] Hid. simpl.
  destruct (add_timestamp_returns _ Hts) as [log1 H1].
  rewrite (parse_cloudwatch_log_steps environ _ log1 additional_data v service is_lambda)
    by done.
  assert (is_Some (log1 !! "id")) as Hid1
    by (by rewrite (add_timestamp_other (dict_of_items items) log1)).
  destruct is_lambda; [destruct (is_noise _); [done|]|].
  - rewrite finish_log_off; [done..|].
    rewrite parsed_record_other by done. by rewrite lookup_insert_ne.
  - rewrite finish_log_off; [done..|]. by rewrite lookup_insert_ne.
Qed.

(** C3, as the code has it.  When no entry of the batch makes the loop raise,
    the handler calls [add] once for each entry that is not dropped, in the
    order of the event list, then [flush] once, and ends normally.  An entry
    does not make the loop raise when it is a dict with a timestamp, a
    message and an [id], the [service] value can be searched for the marker,
    and JSON flattening is off.  The batch with a lifecycle line and a line of
    the function's own gives one [add] and one [flush]. *)
Theorem shipper_calls :
  (forall (L : PyLib) (environ : gmap string string) (event : value)
          (additional_data : gmap string value) (logEvents : list value),
      read_batch environ event = Ok (additional_data, logEvents) ->
      Forall (fun entry => returns (entry_outcome environ additional_data entry))
             logEvents ->
      lambda_handler environ event
      = (map Add (omap (fun entry =>
                          survivor (entry_outcome environ additional_data entry))
                       logEvents) ++ [Flush],
         Ok tt))
  /\ (forall (L : PyLib) (environ : gmap string string)
             (additional_data : gmap string value) (items : list (string * value))
             (service : value) (is_lambda : bool),
         flatten_off environ ->
         additional_data !! "service" = Some service ->
         py_contains LAMBDA_LOG_GROUP service = Ok is_lambda ->
         is_Some (dict_of_items items !! "@timestamp")
         \/ is_Some (dict_of_items items !! "timestamp") ->
         is_Some (dict_of_items items !! "message") ->
         is_Some (dict_of_items items !! "id") ->
         returns (entry_outcome environ additional_data (VDict items)))
  /\ lambda_handler (L:=Sample.lib) Sample.no_environ Sample.lambda_batch
     = ([Add Sample.hello_record; Flush], Ok tt).
Proof.
  split; [|split; [intros; by eapply entry_returns|by vm_compute]].
  intros L environ event additional_data logEvents Hb Hall.
  rewrite lambda_handler_spec, Hb.
  by destruct (batch_all_return environ additional_data logEvents Hall) as [-> ->].
Qed.

Lemma shipper_calls_witness :
  lambda_handler (L:=Sample.lib) Sample.no_environ Sample.start_batch
  = (map Add (omap (fun entry =>
                      survivor (entry_outcome (L:=Sample.lib) Sample.no_environ
                                  Sample.lambda_data entry))
                   [VDict Sample.start_items]) ++ [Flush],
     Ok tt).
Proof.
  apply (proj1 shipper_calls Sample.lib Sample.no_environ Sample.start_batch
           Sample.lambda_data [VDict Sample.start_items]).
  - vm_compute. reflexivity.
  - by repeat constructor.
Defined.

(** C3 as the specification words it fails: every entry of this batch is a
    dict, and the handler makes no call at all, [flush] included. *)
Lemma shipper_calls_no_flush :
  exists additional_data logEvents,
    read_batch (L:=Sample.lib) Sample.no_environ Sample.no_id_batch
    = Ok (additional_data, logEvents)
    /\ Forall (fun entry => is_dict entry = true) logEvents
    /\ lambda_handler (L:=Sample.lib) Sample.no_environ Sample.no_id_batch
       = ([], Raise (KeyError "id"))
    /\ count is_flush (fst (lambda_handler (L:=Sample.lib) Sample.no_environ
                              Sample.no_id_batch)) <> 1.
Proof.
  exists Sample.app_data, [VDict Sample.no_id_items].
  split; [by vm_compute|]. split; [by repeat constructor|].
  split; [by vm_compute|]. by vm_compute.
Qed.

(** ** The message of an emitted record, and the anonymizer *)

Section Emitted.
Context {L : PyLib}.
Variable environ : gmap string string.

Lemma anonymized_no_match (msg : string) :
  Re.finditer IP_PATTERN msg = [] -> anonymized msg = msg.
Proof. intros H. unfold anonymized. by rewrite H. Qed.

(** what went well when [_parse_cloudwatch_log] returns *)
Lemma parse_cloudwatch_log_inv (log additional_data : gmap string value)
    (answer : bool) (log' : gmap string value) :
  _parse_cloudwatch_log environ log additional_data = Ok (answer, log') ->
  exists log1 v service is_lambda,
    _add_timestamp log = Ok log1 /\ log !! "message" = Some v
    /\ additional_data !! "service" = Some service
    /\ py_contains LAMBDA_LOG_GROUP service = Ok is_lambda.
Proof.
  unfold _parse_cloudwatch_log.
  destruct (_add_timestamp log) as [log1|e] eqn:H1; [|done]. simpl.
  destruct (log !! "message") as [v|] eqn:Hm; cycle 1.
  { rewrite anonymize_ip_addresses_missing; [done|].
    by rewrite (add_timestamp_other log log1). }
  rewrite (anonymize_ip_addresses_spec log1 v)
    by (by rewrite (add_timestamp_other log log1)).
  simpl. unfold getitem at 1.
  destruct (additional_data !! "service") as [service|] eqn:Hsvc; [|done]. simpl.
  destruct (py_contains LAMBDA_LOG_GROUP service) as [is_lambda|e] eqn:Hin; [|done].
  intros _. by exists log1, v, service, is_lambda.
Qed.

Lemma finish_log_message (log additional_data log' : gmap string value) (text : string) :
  flatten_off environ -> additional_data !! "message" = None ->
  log !! "message" = Some (VStr text) ->
  finish_log environ log additional_data = Ok (true, log') ->
  log' !! "message" = Some (VStr text).
Proof.
  intros Hoff Had Hm. unfold finish_log, delitem.
  destruct (log !! "id") eqn:Hid; [|done]. simpl.
  rewrite parse_to_json_off by done. simpl. intros [= <-].
  rewrite lookup_union_r by done. by rewrite lookup_delete_ne.
Qed.

Lemma emitted_message_is_string (log additional_data log' : gmap string value) :
  flatten_off environ -> additional_data !! "message" = None ->
  _parse_cloudwatch_log environ log additional_data = Ok (true, log') ->
  exists s, log' !! "message" = Some (VStr s).
Proof.
  intros Hoff Had Hp.
  destruct (parse_cloudwatch_log_inv _ _ _ _ Hp)
    as (log1 & v & service & is_lambda & H1 & Hm & Hsvc & Hin).
  rewrite (parse_cloudwatch_log_steps environ log log1 additional_data v service is_lambda)
    in Hp by done.
  destruct is_lambda.
  - destruct (is_noise _); [done|].
    destruct (parsed_record_message
                (fst (find_level (anonymized (py_str v))))
                (Str.split tab (Str.drop (snd (find_level (anonymized (py_str v))))
                                  (anonymized (py_str v))))
                (<["message" := VStr (anonymized (py_str v))]> log1)
                (anonymized (py_str v))) as [s Hs]; [apply lookup_insert_eq|].
    exists s. by eapply finish_log_message.
  - exists (anonymized (py_str v)). eapply finish_log_message; try done.
    apply lookup_insert_eq.
Qed.

Lemma plain_record_emitted (log additional_data : gmap string value)
    (v service : value) :
  flatten_off environ -> additional_data !! "message" = None ->
  is_Some (log !! "@timestamp") \/ is_Some (log !! "timestamp") ->
  is_Some (log !! "id") ->
  log !! "message" = Some v ->
  additional_data !! "service" = Some service ->
  py_contains LAMBDA_LOG_GROUP service = Ok false ->
  Re.finditer IP_PATTERN (py_str v) = [] ->
  exists log', _parse_cloudwatch_log environ log additional_data = Ok (true, log')
               /\ log' !! "message" = Some (VStr (py_str v)).
Proof.
  intros Hoff Had Hk Hid Hm Hsvc Hin Hno.
  destruct (add_timestamp_returns log Hk) as [log1 H1].
  rewrite (parse_cloudwatch_log_steps environ log log1 additional_data v service false)
    by done.
  rewrite anonymized_no_match by done.
  rewrite finish_log_off; [|done|].
  - eexists. split; [done|]. rewrite lookup_union_r by done.
    rewrite lookup_delete_ne by done. apply lookup_insert_eq.
  - rewrite lookup_insert_ne by done. by rewrite (add_timestamp_other log log1).
Qed.

End Emitted.

(** C10.  On a record with a message the anonymizer returns, and the message
    of the record it leaves is a string: the anonymized text of [str] of the
    value that was there, which is that text itself when no IP literal
    matches.  A record that is emitted while JSON flattening is off has a
    string for a message; one whose raw message is not a string and holds no
    IP literal is emitted, from a log group that is not a function's, with
    [str] of that value.  A message that is the number 42 reaches the shipper
    as the text 42. *)
Theorem message_is_a_string :
  (forall (L : PyLib) (log : gmap string value) (v : value),
      log !! "message" = Some v ->
      _anonymize_ip_addresses log = Ok (<["message" := VStr (anonymized (py_str v))]> log)
      /\ (Re.finditer IP_PATTERN (py_str v) = [] -> anonymized (py_str v) = py_str v))
  /\ (forall (L : PyLib) (environ : gmap string string)
             (log additional_data log' : gmap string value),
         flatten_off environ -> additional_data !! "message" = None ->
         _parse_cloudwatch_log environ log additional_data = Ok (true, log') ->
         exists s, log' !! "message" = Some (VStr s))
  /\ (forall (L : PyLib) (environ : gmap string string)
             (log additional_data : gmap string value) (v service : value),
         flatten_off environ -> additional_data !! "message" = None ->
         is_Some (log !! "@timestamp") \/ is_Some (log !! "timestamp") ->
         is_Some (log !! "id") ->
         log !! "message" = Some v ->
         additional_data !! "service" = Some service ->
         py_contains LAMBDA_LOG_GROUP service = Ok false ->
         Re.finditer IP_PATTERN (py_str v) = [] ->
         exists log', _parse_cloudwatch_log environ log additional_data = Ok (true, log')
                      /\ log' !! "message" = Some (VStr (py_str v)))
  /\ lambda_handler (L:=Sample.lib) Sample.no_environ Sample.number_batch
     = ([Add Sample.number_record; Flush], Ok tt)
  /\ Sample.number_record !! "message" = Some (VStr "42").
Proof.
  split; [|split; [|split; [|split]]].
  - intros L log v Hm. split; [by apply anonymize_ip_addresses_spec|].
    apply anonymized_no_match.
  - intros. by eapply emitted_message_is_string.
  - intros. by eapply plain_record_emitted.
  - by vm_compute.
  - reflexivity.
Qed.

Lemma message_is_a_string_witness :
  (_anonymize_ip_addresses (L:=Sample.lib) Sample.number_log
   = Ok (<["message" := VStr (anonymized (L:=Sample.lib) (py_str (VInt 42)))]>
           Sample.number_log)
   /\ (Re.finditer IP_PATTERN (py_str (VInt 42)) = [] ->
       anonymized (L:=Sample.lib) (py_str (VInt 42)) = py_str (VInt 42)))
  /\ (exists log',
        _parse_cloudwatch_log (L:=Sample.lib) Sample.no_environ Sample.number_log
          Sample.app_data = Ok (true, log')
        /\ log' !! "message" = Some (VStr (py_str (VInt 42)))).
Proof.
  split.
  - apply (proj1 message_is_a_string Sample.lib Sample.number_log (VInt 42)).
    reflexivity.
  - apply (proj1 (proj2 (proj2 message_is_a_string)) Sample.lib Sample.no_environ
             Sample.number_log Sample.app_data (VInt 42) (VStr "/ecs/app")).
    + intros format Hf. discriminate Hf.
    + reflexivity.
    + right. exists (VInt 5). reflexivity.
    + exists (VStr "7"). reflexivity.
    + reflexivity.
    + reflexivity.
    + reflexivity.
    + reflexivity.
Defined.

(** C2.  The anonymizer, on every message.  The matches [finditer] reports
    follow each other without overlap; the message is a sequence of segments,
    each a stretch of text followed by an IP literal that stands between
    characters (or ends of the text) that are no word character, colon or dot,
    and of a tail; no IP literal starts at a position that is neither the
    start of a match nor inside one.  The result is the same sequence with
    each literal [m] replaced by 'IP(' + str(hash(m)) + ')', a function of the
    matched text alone, the stretches and the tail being kept as they are and
    in order.  A message in which no IP literal starts anywhere comes back
    unchanged, and on a record with a message no error is raised. *)
Theorem ip_anonymizer :
  (forall (L : PyLib) (msg : string),
      let spans := Re.finditer IP_PATTERN msg in
      let segs := segments msg 0 spans in
      let tail := Str.drop (end_of 0 spans) msg in
      chain 0 spans (String.length msg)
      /\ cut None msg segs tail
      /\ (forall p, p <= String.length msg -> outside p spans -> no_literal_at msg p)
      /\ msg = rebuild (fun m => m) segs tail
      /\ anonymized msg = rebuild ip_token segs tail
      /\ ((forall p, p <= String.length msg -> no_literal_at msg p) ->
          anonymized msg = msg)
      /\ forall log : gmap string value,
           log !! "message" = Some (VStr msg) ->
           _anonymize_ip_addresses log
           = Ok (<["message" := VStr (anonymized msg)]> log))
  /\ anonymized (L:=Sample.lib) "from 10.0.0.1 to fe80::1 via 10.0.0.1, v1.2.3.4"
     = "from IP(380) to IP(472) via IP(380), v1.2.3.4".
Proof.
  split; [|by vm_compute].
  intros L msg spans segs tail.
  split; [apply finditer_chain|]. split; [apply finditer_cut|].
  split; [intros p; apply finditer_free|].
  split; [apply (cut_rebuild None), finditer_cut|].
  split; [apply anonymized_rebuild|].
  split; [intros Hfree; by apply anonymized_no_match, no_literal_no_match|].
  intros log Hm. by apply (anonymize_ip_addresses_spec log (VStr msg)).
Qed.

Lemma ip_anonymizer_witness :
  let msg := "hello from 10.0.0.1" in
  let spans := Re.finditer IP_PATTERN msg in
  let segs := segments msg 0 spans in
  let tail := Str.drop (end_of 0 spans) msg in
  chain 0 spans (String.length msg)
  /\ cut None msg segs tail
  /\ (forall p, p <= String.length msg -> outside p spans -> no_literal_at msg p)
  /\ msg = rebuild (fun m => m) segs tail
  /\ anonymized (L:=Sample.lib) msg = rebuild (ip_token (L:=Sample.lib)) segs tail
  /\ ((forall p, p <= String.length msg -> no_literal_at msg p) ->
      anonymized (L:=Sample.lib) msg = msg)
  /\ forall log : gmap string value,
       log !! "message" = Some (VStr msg) ->
       _anonymize_ip_addresses (L:=Sample.lib) log
       = Ok (<["message" := VStr (anonymized (L:=Sample.lib) msg)]> log).
Proof. exact (proj1 ip_anonymizer Sample.lib "hello from 10.0.0.1"). Defined.

(** ** The enrichment data *)

Lemma split_no_sep (c : ascii) (s : string) :
  Str.index c s = None -> Str.split c s = [s].
Proof.
  induction s as [|d s IH]; simpl; [done|].
  destruct (Ascii.eqb d c); [done|].
  destruct (Str.index c s); [done|]. intros _. by rewrite IH.
Qed.

Lemma split_at_sep (c : ascii) (s : string) (n : nat) :
  Str.index c s = Some n ->
  Str.split c s = Str.take n s :: Str.split c (Str.drop (S n) s).
Proof.
  revert n; induction s as [|d s IH]; intros n; simpl; [done|].
  destruct (Ascii.eqb d c).
  - intros [= <-]. simpl. by destruct s.
  - destruct (Str.index c s) as [m|]; [|done]. intros [= <-].
    rewrite (IH m eq_refl). done.
Qed.

Lemma split_head (c : ascii) (s : string) :
  exists parts, Str.split c s = before c s :: parts.
Proof.
  unfold before. destruct (Str.index c s) as [n|] eqn:Hi.
  - eexists. by apply split_at_sep.
  - exists []. by apply split_no_sep.
Qed.

Lemma split_pair (piece : string) :
  Str.index "=" piece <> None ->
  exists parts, Str.split "=" piece = pair_key piece :: pair_value piece :: parts.
Proof.
  intros Hi. unfold pair_key, pair_value, before at 1, after.
  destruct (Str.index "=" piece) as [n|] eqn:Hn; [|done].
  rewrite (split_at_sep _ _ n Hn).
  destruct (split_head "=" (Str.drop (S n) piece)) as [parts ->]. by exists parts.
Qed.

Lemma enrich_one_pair (data : gmap string value) (piece : string) :
  Str.index "=" piece <> None ->
  enrich_one (Ok data) piece = Ok (<[pair_key piece := VStr (pair_value piece)]> data).
Proof.
  intros Hi. destruct (split_pair piece Hi) as [parts Hs].
  unfold enrich_one. simpl. by rewrite Hs.
Qed.

Lemma enrich_one_no_pair (data : gmap string value) (piece : string) :
  Str.index "=" piece = None -> enrich_one (Ok data) piece = Raise IndexError.
Proof.
  intros Hi. unfold enrich_one. simpl. by rewrite (split_no_sep _ _ Hi).
Qed.

Lemma enrich_all (pieces : list string) :
  forall data, Forall (fun piece => Str.index "=" piece <> None) pieces ->
    foldl enrich_one (Ok data) pieces = Ok (enriched data pieces).
Proof.
  induction pieces as [|piece pieces IH]; intros data Hall; [done|].
  apply Forall_cons in Hall as [Hp Hall]. cbn [foldl].
  rewrite enrich_one_pair by done. by apply IH.
Qed.

Lemma enriched_app (data : gmap string value) (l1 l2 : list string) :
  enriched data (l1 ++ l2) = enriched (enriched data l1) l2.
Proof. unfold enriched. apply foldl_app. Qed.

Lemma enriched_other (pieces : list string) :
  forall (data : gmap string value) (k : string),
    Forall (fun piece => pair_key piece <> k) pieces ->
    enriched data pieces !! k = data !! k.
Proof.
  induction pieces as [|piece pieces IH]; intros data k Hall; simpl; [done|].
  apply Forall_cons in Hall as [Hp Hall].
  unfold enriched in *. simpl. rewrite IH by done. by rewrite lookup_insert_ne.
Qed.

(** the last piece with a key gives the key its value *)
Lemma enriched_last (data : gmap string value) (l1 l2 : list string) (piece : string) :
  Forall (fun q => pair_key q <> pair_key piece) l2 ->
  enriched data (l1 ++ piece :: l2) !! pair_key piece = Some (VStr (pair_value piece)).
Proof.
  intros Hl2. rewrite enriched_app. simpl.
  change (enriched (enriched data l1) (piece :: l2))
    with (enriched (<[pair_key piece := VStr (pair_value piece)]> (enriched data l1)) l2).
  rewrite enriched_other by done. apply lookup_insert_eq.
Qed.

Lemma get_additional_logs_data_enrich (environ : gmap string string)
    (aws_logs_data service logger_name : value) (enrich : string) :
  py_getitem aws_logs_data "logGroup" = Ok service ->
  py_getitem aws_logs_data "logStream" = Ok logger_name ->
  environ !! "ENRICH" = Some enrich -> enrich <> EmptyString ->
  Forall (fun piece => Str.index "=" piece <> None) (Str.split ";" enrich) ->
  _get_additional_logs_data environ aws_logs_data
  = Ok (<["type" := VStr (type_of environ)]>
          (enriched (base_data service logger_name) (Str.split ";" enrich))).
Proof.
  intros Hg Hs He Hne Hall. unfold _get_additional_logs_data.
  rewrite Hg, Hs, He. simpl.
  destruct enrich as [|c enrich]; [done|].
  rewrite enrich_all by done. simpl. unfold type_of.
  by destruct (environ !! "TYPE").
Qed.

Lemma index_at_sep (c : ascii) (k rest : string) :
  Str.index c k = None -> Str.index c (k +:+ String c rest) = Some (String.length k).
Proof.
  intros Hk. rewrite index_app, Hk. simpl. rewrite Ascii.eqb_refl. simpl.
  by rewrite Nat.add_0_r.
Qed.

Lemma before_app (c : ascii) (k rest : string) :
  Str.index c k = None -> before c (k +:+ String c rest) = k.
Proof.
  intros Hk. unfold before. rewrite index_at_sep by done.
  apply StrFacts.take_app_length.
Qed.

Lemma after_app (c : ascii) (k rest : string) :
  Str.index c k = None -> after c (k +:+ String c rest) = rest.
Proof.
  intros Hk. unfold after. rewrite index_at_sep by done.
  replace (S (String.length k)) with (String.length k + 1) by lia.
  rewrite <-StrFacts.drop_drop, StrFacts.drop_app_length. by destruct rest.
Qed.

Lemma before_none (c : ascii) (s : string) : Str.index c s = None -> before c s = s.
Proof. intros H. unfold before. by rewrite H. Qed.

(** every field of the enrichment data is in the record that is emitted *)
Lemma emitted_has_enrichment `{PyLib} (environ : gmap string string)
    (log additional_data log' : gmap string value) (k : string) (v : value) :
  flatten_off environ ->
  _parse_cloudwatch_log environ log additional_data = Ok (true, log') ->
  additional_data !! k = Some v -> log' !! k = Some v.
Proof.
  intros Hoff Hp Hk.
  assert (forall l, finish_log environ l additional_data = Ok (true, log') ->
                    log' !! k = Some v) as Hfin.
  { intros l. unfold finish_log, delitem. destruct (l !! "id"); [|done]. simpl.
    rewrite parse_to_json_off by done. simpl. intros [= <-].
    by apply lookup_union_Some_l. }
  destruct (parse_cloudwatch_log_inv _ _ _ _ _ Hp)
    as (log1 & m & service & is_lambda & H1 & Hm & Hsvc & Hin).
  rewrite (parse_cloudwatch_log_steps environ log log1 additional_data m service is_lambda)
    in Hp by done.
  destruct is_lambda; [destruct (is_noise _); [done|]|]; by eapply Hfin.
Qed.

Lemma enrich_raised (pieces : list string) (e : exn) :
  foldl enrich_one (Raise e) pieces = Raise e.
Proof. induction pieces as [|piece pieces IH]; [done|]. apply IH. Qed.

Lemma enrich_all_inv (pieces : list string) :
  forall data data',
    foldl enrich_one (Ok data) pieces = Ok data' ->
    Forall (fun piece => Str.index "=" piece <> None) pieces.
Proof.
  induction pieces as [|piece pieces IH]; intros data data' H; [constructor|].
  cbn [foldl] in H.
  destruct (Str.index "=" piece) as [n|] eqn:Hi.
  - constructor; [by rewrite Hi|].
    rewrite enrich_one_pair in H by (by rewrite Hi). by eapply IH.
  - rewrite enrich_one_no_pair, enrich_raised in H by done. done.
Qed.

(** the [service] of the enrichment data is the log group, unless a piece
    of ENRICH has [service] for a key *)
Lemma service_is_log_group (environ : gmap string string)
    (aws_logs_data : value) (data : gmap string value) :
  _get_additional_logs_data environ aws_logs_data = Ok data ->
  (forall enrich, environ !! "ENRICH" = Some enrich ->
                  Forall (fun piece => pair_key piece <> "service")
                         (Str.split ";" enrich)) ->
  exists log_group,
    py_getitem aws_logs_data "logGroup" = Ok log_group
    /\ data !! "service" = Some log_group.
Proof.
  unfold _get_additional_logs_data. intros H Hkeys.
  destruct (py_getitem aws_logs_data "logGroup") as [service|] eqn:Hg; [|done].
  destruct (py_getitem aws_logs_data "logStream") as [logger|] eqn:Hs; [|done].
  exists service. split; [done|]. simpl in H.
  assert (forall d : gmap string value,
             d !! "service" = Some service ->
             match environ !! "TYPE" with
             | Some type => Ok (<["type" := VStr type]> d)
             | None => Ok (<["type" := VStr "logzio_cloudwatch_lambda"]> d)
             end = Ok data -> data !! "service" = Some service) as Htype.
  { intros d Hd. destruct (environ !! "TYPE"); intros [= <-];
      by rewrite lookup_insert_ne. }
  assert ((<["logger_name" := logger]> (<["service" := service]> ∅) : gmap string value)
            !! "service" = Some service) as Hbase.
  { rewrite lookup_insert_ne by done. apply lookup_insert_eq. }
  destruct (environ !! "ENRICH") as [enrich|] eqn:He; [|by eapply Htype].
  destruct enrich as [|c enrich]; [by eapply Htype|].
  cbv beta iota in H.
  destruct (foldl enrich_one _ _) as [d|e] eqn:Hfold; [|done]. simpl in H.
  pose proof (enrich_all_inv _ _ _ Hfold) as Hall.
  rewrite enrich_all in Hfold by done. injection Hfold as <-.
  eapply Htype; [|done].
  rewrite enriched_other; [done|]. exact (Hkeys (String c enrich) eq_refl).
Qed.

(** C7.  With a [service] value that contains the marker of a function's log
    group, a record whose message starts with START, END or REPORT is never
    emitted: [_parse_cloudwatch_log] does not answer True for it.  When the
    record has a timestamp the answer is False, and the record is dropped as
    the anonymizer left it, before the enrichment.  No [add] of the handler
    carries such a record.  The [service] value is the log group of the batch
    unless ENRICH sets [service] itself.  A batch with the one message
    "START RequestId: req-123" ends with a flush and no add. *)
Theorem lifecycle_noise_dropped :
  (forall (L : PyLib) (environ : gmap string string)
          (additional_data log : gmap string value) (service : value)
          (message marker : string),
      additional_data !! "service" = Some service ->
      py_contains LAMBDA_LOG_GROUP service = Ok true ->
      log !! "message" = Some (VStr message) ->
      is_marker marker -> Str.startswith marker message = true ->
      (forall log', _parse_cloudwatch_log environ log additional_data <> Ok (true, log'))
      /\ (is_Some (log !! "@timestamp") \/ is_Some (log !! "timestamp") ->
          exists log1,
            _add_timestamp log = Ok log1
            /\ _parse_cloudwatch_log environ log additional_data
               = Ok (false, <["message" := VStr (anonymized message)]> log1))
      /\ (forall event logEvents items log',
             read_batch environ event = Ok (additional_data, logEvents) ->
             dict_of_items items = log ->
             Add log' ∈ fst (lambda_handler environ event) ->
             exists entry, entry ∈ logEvents /\ entry <> VDict items
                           /\ entry_outcome environ additional_data entry = Ok (true, log')))
  /\ (forall (environ : gmap string string) (aws_logs_data : value)
             (additional_data : gmap string value),
         _get_additional_logs_data environ aws_logs_data = Ok additional_data ->
         (forall enrich, environ !! "ENRICH" = Some enrich ->
                         Forall (fun piece => pair_key piece <> "service")
                                (Str.split ";" enrich)) ->
         exists log_group,
           py_getitem aws_logs_data "logGroup" = Ok log_group
           /\ additional_data !! "service" = Some log_group)
  /\ lambda_handler (L:=Sample.lib) Sample.no_environ Sample.start_batch
     = ([Flush], Ok tt).
Proof.
  split; [|split; [apply service_is_log_group|by vm_compute]].
  intros L environ additional_data log service message marker Hsvc Hin Hm Hmk Hs.
  assert (forall log1, _add_timestamp log = Ok log1 ->
            _parse_cloudwatch_log environ log additional_data
            = Ok (false, <["message" := VStr (anonymized message)]> log1)) as Hdrop.
  { intros log1 H1.
    rewrite (parse_cloudwatch_log_steps environ log log1 additional_data
               (VStr message) service true) by done.
    simpl. by rewrite (is_noise_marker marker message). }
  assert (forall log', _parse_cloudwatch_log environ log additional_data <> Ok (true, log'))
    as Hnever.
  { intros log'. destruct (_add_timestamp log) as [log1|e] eqn:H1.
    - by rewrite (Hdrop log1).
    - unfold _parse_cloudwatch_log. by rewrite H1. }
  split; [done|]. split.
  - intros Hk. destruct (add_timestamp_returns log Hk) as [log1 H1].
    exists log1. split; [done|]. by apply Hdrop.
  - intros event logEvents items log' Hb Hitems Hadd.
    rewrite lambda_handler_spec, Hb in Hadd.
    assert (log' ∈ delivered environ additional_data logEvents) as Hdel.
    { destruct (batch_error environ additional_data logEvents); simpl in Hadd.
      - apply list_elem_of_fmap in Hadd as (x & [= <-] & Hx). done.
      - apply elem_of_app in Hadd as [Hadd|Hadd].
        + apply list_elem_of_fmap in Hadd as (x & [= <-] & Hx). done.
        + apply list_elem_of_singleton in Hadd. done. }
    destruct (delivered_from_entry environ _ _ _ Hdel) as (entry & Hentry & Hout).
    exists entry. split; [done|]. split; [|done].
    intros ->. simpl in Hout. rewrite Hitems in Hout. by apply Hnever in Hout.
Qed.

Lemma lifecycle_noise_dropped_witness :
  (forall log', _parse_cloudwatch_log (L:=Sample.lib) Sample.no_environ
                  Sample.start_log Sample.lambda_data <> Ok (true, log'))
  /\ (is_Some (Sample.start_log !! "@timestamp")
      \/ is_Some (Sample.start_log !! "timestamp") ->
      exists log1,
        _add_timestamp Sample.start_log = Ok log1
        /\ _parse_cloudwatch_log (L:=Sample.lib) Sample.no_environ
             Sample.start_log Sample.lambda_data
           = Ok (false, <["message" := VStr (anonymized (L:=Sample.lib)
                                               "START RequestId: req-123")]> log1))
  /\ (forall event logEvents items log',
         read_batch (L:=Sample.lib) Sample.no_environ event
         = Ok (Sample.lambda_data, logEvents) ->
         dict_of_items items = Sample.start_log ->
         Add log' ∈ fst (lambda_handler (L:=Sample.lib) Sample.no_environ event) ->
         exists entry, entry ∈ logEvents /\ entry <> VDict items
                       /\ entry_outcome (L:=Sample.lib) Sample.no_environ
                            Sample.lambda_data entry = Ok (true, log')).
Proof.
  apply (proj1 lifecycle_noise_dropped Sample.lib Sample.no_environ
           Sample.lambda_data Sample.start_log (VStr "/aws/lambda/fn")
           "START RequestId: req-123" "START").
  - reflexivity.
  - reflexivity.
  - reflexivity.
  - left. reflexivity.
  - reflexivity.
Defined.

(** C5, as the code has it.  For a non-empty ENRICH string whose pieces
    between semicolons all hold an equals sign, the builder returns the data
    with, for each piece in turn, the key before the first equals sign and the
    value between the first and the next equals sign (or the end of the
    piece), then [type]; the last piece with a key decides its value.  A value
    is cut at a further equals sign.  Every field of the data is in each
    record that is emitted while JSON flattening is off.  With
    "env=prod;team=core" the data and the emitted record hold env, team,
    service, logger_name and type. *)
Theorem enrichment_pairs :
  (forall (environ : gmap string string) (aws_logs_data service logger_name : value)
          (enrich : string),
      py_getitem aws_logs_data "logGroup" = Ok service ->
      py_getitem aws_logs_data "logStream" = Ok logger_name ->
      environ !! "ENRICH" = Some enrich -> enrich <> EmptyString ->
      Forall (fun piece => Str.index "=" piece <> None) (Str.split ";" enrich) ->
      exists data,
        _get_additional_logs_data environ aws_logs_data = Ok data
        /\ data = <["type" := VStr (type_of environ)]>
                    (enriched (base_data service logger_name) (Str.split ";" enrich))
        /\ (forall l1 piece l2,
               Str.split ";" enrich = l1 ++ piece :: l2 ->
               Forall (fun q => pair_key q <> pair_key piece) l2 ->
               pair_key piece <> "type" ->
               data !! pair_key piece = Some (VStr (pair_value piece)))
        /\ data !! "type" = Some (VStr (type_of environ)))
  /\ (forall k v rest : string,
         Str.index "=" k = None -> Str.index "=" v = None ->
         pair_key (k +:+ "=" +:+ v) = k /\ pair_value (k +:+ "=" +:+ v) = v
         /\ pair_key (k +:+ "=" +:+ v +:+ "=" +:+ rest) = k
         /\ pair_value (k +:+ "=" +:+ v +:+ "=" +:+ rest) = v)
  /\ (forall (L : PyLib) (environ : gmap string string)
             (log additional_data log' : gmap string value) (k : string) (v : value),
         flatten_off environ ->
         _parse_cloudwatch_log environ log additional_data = Ok (true, log') ->
         additional_data !! k = Some v -> log' !! k = Some v)
  /\ _get_additional_logs_data Sample.enrich_environ Sample.group_doc
     = Ok Sample.enriched_data
  /\ lambda_handler (L:=Sample.lib) Sample.enrich_environ Sample.hello_batch
     = ([Add Sample.enriched_record; Flush], Ok tt).
Proof.
  split; [|split; [|split; [|split]]].
  - intros environ aws service logger_name enrich Hg Hs He Hne Hall.
    eexists. split; [by apply (get_additional_logs_data_enrich _ _ service logger_name enrich)|].
    split; [done|]. split.
    + intros l1 piece l2 Hsplit Hl2 Hty. rewrite lookup_insert_ne by done.
      rewrite Hsplit. by apply enriched_last.
    + apply lookup_insert_eq.
  - intros k v rest Hk Hv. unfold pair_key, pair_value.
    change (k +:+ "=" +:+ v) with (k +:+ String "=" v).
    change (k +:+ "=" +:+ v +:+ "=" +:+ rest) with (k +:+ String "=" (v +:+ String "=" rest)).
    rewrite !before_app, !after_app by done.
    rewrite before_app by done. by rewrite before_none.
  - intros. by eapply emitted_has_enrichment.
  - by vm_compute.
  - by vm_compute.
Qed.

Lemma enrichment_pairs_witness :
  exists data,
    _get_additional_logs_data Sample.enrich_environ Sample.group_doc = Ok data
    /\ data = <["type" := VStr (type_of Sample.enrich_environ)]>
                (enriched (base_data (VStr "/ecs/app") (VStr "s"))
                          (Str.split ";" "env=prod;team=core"))
    /\ (forall l1 piece l2,
           Str.split ";" "env=prod;team=core" = l1 ++ piece :: l2 ->
           Forall (fun q => pair_key q <> pair_key piece) l2 ->
           pair_key piece <> "type" ->
           data !! pair_key piece = Some (VStr (pair_value piece)))
    /\ data !! "type" = Some (VStr (type_of Sample.enrich_environ)).
Proof.
  apply (proj1 enrichment_pairs Sample.enrich_environ Sample.group_doc
           (VStr "/ecs/app") (VStr "s") "env=prod;team=core").
  - reflexivity.
  - reflexivity.
  - reflexivity.
  - discriminate.
  - vm_compute. repeat constructor; discriminate.
Defined.

(** C5 as the specification words it fails: the value of the piece [k=a=b]
    is [a], not [a=b]. *)
Lemma enrichment_value_cut :
  exists data,
    _get_additional_logs_data Sample.cut_environ Sample.group_doc = Ok data
    /\ data !! "k" = Some (VStr "a")
    /\ data !! "k" <> Some (VStr "a=b").
Proof.
  eexists. split; [by vm_compute|]. split; [reflexivity|]. by vm_compute.
Qed.

(** ** The JSON flattener *)

Section Flatten.
Context {L : PyLib}.
Variable environ : gmap string string.

Lemma parse_to_json_object (log : gmap string value) (format text : string)
    (items : list (string * value)) :
  environ !! "FORMAT" = Some format -> String.eqb (Str.lower format) "json" = true ->
  log !! "message" = Some (VStr text) -> json_loads text = Ok (VDict items) ->
  _parse_to_json environ log
  = Ok (foldl (fun log kv => <[fst kv := snd kv]> log) log items).
Proof.
  intros Hf Hj Hm Hl. unfold _parse_to_json, getenv, getitem.
  rewrite Hf. simpl. rewrite Hj, Hm. simpl. by rewrite Hl.
Qed.

Lemma parse_to_json_failure (log : gmap string value) (format text : string) (e : exn) :
  environ !! "FORMAT" = Some format -> String.eqb (Str.lower format) "json" = true ->
  log !! "message" = Some (VStr text) -> json_loads text = Raise e ->
  is_ValueError e = true ->
  _parse_to_json environ log = Ok log.
Proof.
  intros Hf Hj Hm Hl He. unfold _parse_to_json, getenv, getitem.
  rewrite Hf. simpl. rewrite Hj, Hm. simpl. rewrite Hl. simpl.
  by rewrite He, orb_true_r.
Qed.

Lemma parse_to_json_non_object (log : gmap string value) (format text : string)
    (v : value) :
  environ !! "FORMAT" = Some format -> String.eqb (Str.lower format) "json" = true ->
  log !! "message" = Some (VStr text) -> json_loads text = Ok v ->
  is_dict v = false ->
  _parse_to_json environ log = Raise AttributeError.
Proof.
  intros Hf Hj Hm Hl Hd. unfold _parse_to_json, getenv, getitem.
  rewrite Hf. simpl. rewrite Hj, Hm. simpl. rewrite Hl. simpl.
  by destruct v.
Qed.

End Flatten.

(** C4, where the code departs from it.  With the flag at json, a message
    that is JSON for an object is merged into the record, key by key, over
    what was there; a message that is not JSON leaves the record as it was, and
    so does an absent flag.  But a message that is JSON for something else than
    an object makes [_parse_to_json] raise AttributeError, which nothing
    catches: for the message [5] the handler ends with that error and calls
    neither add nor flush. *)
Theorem flattener_non_object :
  (forall (L : PyLib) (environ : gmap string string) (log : gmap string value)
          (format text : string) (v : value),
      environ !! "FORMAT" = Some format -> String.eqb (Str.lower format) "json" = true ->
      log !! "message" = Some (VStr text) -> json_loads text = Ok v ->
      is_dict v = false ->
      _parse_to_json environ log = Raise AttributeError)
  /\ (forall (L : PyLib) (environ : gmap string string) (log : gmap string value)
             (format text : string) (items : list (string * value)),
         environ !! "FORMAT" = Some format -> String.eqb (Str.lower format) "json" = true ->
         log !! "message" = Some (VStr text) -> json_loads text = Ok (VDict items) ->
         _parse_to_json environ log
         = Ok (foldl (fun log kv => <[fst kv := snd kv]> log) log items))
  /\ (forall (L : PyLib) (environ : gmap string string) (log : gmap string value)
             (format text : string) (e : exn),
         environ !! "FORMAT" = Some format -> String.eqb (Str.lower format) "json" = true ->
         log !! "message" = Some (VStr text) -> json_loads text = Raise e ->
         is_ValueError e = true ->
         _parse_to_json environ log = Ok log)
  /\ (forall (L : PyLib) (environ : gmap string string) (log : gmap string value),
         flatten_off environ -> _parse_to_json environ log = Ok log)
  /\ _parse_to_json (L:=Sample.lib) Sample.json_environ Sample.user_log
     = Ok Sample.flattened_user_log
  /\ _parse_to_json (L:=Sample.lib) Sample.json_environ Sample.five_log
     = Raise AttributeError
  /\ lambda_handler (L:=Sample.lib) Sample.json_environ Sample.five_batch
     = ([], Raise AttributeError).
Proof.
  split; [intros; by eapply parse_to_json_non_object|].
  split; [intros; by eapply parse_to_json_object|].
  split; [intros; by eapply parse_to_json_failure|].
  split; [intros; by apply parse_to_json_off|].
  split; [by vm_compute|]. split; by vm_compute.
Qed.

Lemma flattener_non_object_witness :
  _parse_to_json (L:=Sample.lib) Sample.json_environ Sample.five_log
  = Raise AttributeError.
Proof.
  apply (proj1 flattener_non_object Sample.lib Sample.json_environ Sample.five_log
           "json" "5" (VInt 5)); reflexivity.
Defined.

(** ** The batch decoder *)

Section Decoder.
Context {L : PyLib}.

Lemma extract_aws_logs_data_steps (event awslogs event_str : value) :
  py_getitem event "awslogs" = Ok awslogs ->
  py_getitem awslogs "data" = Ok event_str ->
  _extract_aws_logs_data event
  = match (logs_data_decoded ← b64decode event_str;
           logs_data_unzipped ← gzip_read logs_data_decoded;
           json_loads_bytes logs_data_unzipped) with
    | Ok doc => Ok doc
    | Raise e => Raise (decode_error e)
    end.
Proof.
  intros Ha Hd. unfold _extract_aws_logs_data. rewrite Ha. simpl. rewrite Hd. simpl.
  unfold try_except, decode_error.
  destruct (b64decode event_str ≫= _) as [doc|e]; [done|].
  by destruct (is_ValueError e).
Qed.

Lemma handler_decode_failure (environ : gmap string string) (event : value) (e : exn) :
  _extract_aws_logs_data event = Raise e ->
  lambda_handler environ event = ([], Raise e).
Proof.
  intros He. unfold lambda_handler, read_batch. by rewrite He.
Qed.

End Decoder.

(** C6, as the code has it.  When one of the three steps of the decoder
    fails, the decoder raises: ValueError('Exception: json loads') if the
    error of the step is of the ValueError class, as those of base64 and of
    the JSON reader are, and the error of the step itself otherwise, as for
    the errors of the gzip reader.  Either way the handler ends with that
    error before any call on the shipper.  When the three steps go through,
    the decoder returns the parsed document. *)
Theorem batch_decoder :
  (forall (L : PyLib) (event awslogs event_str : value),
      py_getitem event "awslogs" = Ok awslogs ->
      py_getitem awslogs "data" = Ok event_str ->
      (forall e, b64decode event_str = Raise e ->
                 _extract_aws_logs_data event = Raise (decode_error e))
      /\ (forall decoded e,
             b64decode event_str = Ok decoded -> gzip_read decoded = Raise e ->
             _extract_aws_logs_data event = Raise (decode_error e))
      /\ (forall decoded unzipped e,
             b64decode event_str = Ok decoded -> gzip_read decoded = Ok unzipped ->
             json_loads_bytes unzipped = Raise e ->
             _extract_aws_logs_data event = Raise (decode_error e))
      /\ (forall decoded unzipped doc,
             b64decode event_str = Ok decoded -> gzip_read decoded = Ok unzipped ->
             json_loads_bytes unzipped = Ok doc ->
             _extract_aws_logs_data event = Ok doc))
  /\ (forall e, decode_error e
                = if is_ValueError e then ValueError "Exception: json loads" else e)
  /\ (forall (L : PyLib) (environ : gmap string string) (event : value) (e : exn),
         _extract_aws_logs_data event = Raise e ->
         lambda_handler environ event = ([], Raise e)).
Proof.
  split; [|split; [done|intros; by apply handler_decode_failure]].
  intros L event awslogs event_str Ha Hd.
  rewrite (extract_aws_logs_data_steps event awslogs event_str Ha Hd).
  split; [by intros e ->|]. split; [intros decoded e -> He; simpl; by rewrite He|].
  split.
  - intros decoded unzipped e -> Hu He. simpl. rewrite Hu. simpl. by rewrite He.
  - intros decoded unzipped doc -> Hu Hdoc. simpl. rewrite Hu. simpl. by rewrite Hdoc.
Qed.

Lemma batch_decoder_witness :
  (forall e, b64decode (PyLib:=Sample.lib) (VStr "plain text") = Raise e ->
             _extract_aws_logs_data (L:=Sample.lib) Sample.not_gzip_event
             = Raise (decode_error e))
  /\ (forall decoded e,
         b64decode (PyLib:=Sample.lib) (VStr "plain text") = Ok decoded ->
         gzip_read (PyLib:=Sample.lib) decoded = Raise e ->
         _extract_aws_logs_data (L:=Sample.lib) Sample.not_gzip_event
         = Raise (decode_error e))
  /\ (forall decoded unzipped e,
         b64decode (PyLib:=Sample.lib) (VStr "plain text") = Ok decoded ->
         gzip_read (PyLib:=Sample.lib) decoded = Ok unzipped ->
         json_loads_bytes (PyLib:=Sample.lib) unzipped = Raise e ->
         _extract_aws_logs_data (L:=Sample.lib) Sample.not_gzip_event
         = Raise (decode_error e))
  /\ (forall decoded unzipped doc,
         b64decode (PyLib:=Sample.lib) (VStr "plain text") = Ok decoded ->
         gzip_read (PyLib:=Sample.lib) decoded = Ok unzipped ->
         json_loads_bytes (PyLib:=Sample.lib) unzipped = Ok doc ->
         _extract_aws_logs_data (L:=Sample.lib) Sample.not_gzip_event = Ok doc).
Proof.
  apply (proj1 batch_decoder Sample.lib Sample.not_gzip_event
           (VDict [("data", VStr "plain text")]) (VStr "plain text")); reflexivity.
Defined.

(** C6 as the specification words it fails: the gzip reader of this instance
    raises [BadGzipFile] on a payload that is no gzip stream, as the real one
    does; that is no ValueError, and the decoder leaves with it. *)
Lemma decoder_gzip_error :
  gzip_read (PyLib:=Sample.lib) "plain text" = Raise BadGzipFile
  /\ is_ValueError BadGzipFile = false
  /\ _extract_aws_logs_data (L:=Sample.lib) Sample.not_gzip_event = Raise BadGzipFile
  /\ _extract_aws_logs_data (L:=Sample.lib) Sample.not_gzip_event
     <> Raise (ValueError "Exception: json loads").
Proof. by vm_compute. Qed.

(** * Further properties of the code

    Error and edge behaviour, invariants and the way the steps compose, read
    off [lambda_function.py]. *)

(** ** The timestamp, once more *)

(** X1.  The timestamp step is idempotent: once [_add_timestamp] has returned
    a record, running it on that record returns the same record, and the first
    run changed no key other than [@timestamp] and [timestamp]. *)
Theorem add_timestamp_idempotent (log log' : gmap string value) :
  _add_timestamp log = Ok log' ->
  _add_timestamp log' = Ok log'
  /\ forall k, k <> "@timestamp" -> k <> "timestamp" -> log' !! k = log !! k.
Proof.
  intros H. split.
  - apply add_timestamp_keeps.
    destruct (log !! "@timestamp") as [x|] eqn:Hat.
    + rewrite add_timestamp_keeps in H by (by rewrite Hat). injection H as <-.
      by rewrite Hat.
    + destruct (log !! "timestamp") as [ts|] eqn:Hts.
      * rewrite (add_timestamp_renames log ts) in H by done. injection H as <-.
        rewrite lookup_delete_ne, lookup_insert_eq by done. by eexists.
      * by rewrite add_timestamp_missing in H.
  - intros k H1 H2. by apply add_timestamp_other.
Qed.

Lemma add_timestamp_idempotent_witness :
  _add_timestamp Cases.renamed_log = Ok Cases.renamed_log
  /\ forall k, k <> "@timestamp" -> k <> "timestamp" ->
               Cases.renamed_log !! k = Sample.raw_timestamp !! k.
Proof.
  apply (add_timestamp_idempotent Sample.raw_timestamp Cases.renamed_log).
  reflexivity.
Defined.

(** ** The enrichment data, once more *)

Lemma enrich_some_bad (pieces : list string) :
  forall data,
    Exists (fun piece => Str.index "=" piece = None) pieces ->
    foldl enrich_one (Ok data) pieces = Raise IndexError.
Proof.
  induction pieces as [|piece pieces IH]; intros data Hex.
  - by apply Exists_nil in Hex.
  - cbn [foldl]. destruct (Str.index "=" piece) as [n|] eqn:Hi.
    + rewrite enrich_one_pair by (by rewrite Hi). apply IH.
      apply Exists_cons in Hex as [Hbad|Hex]; [congruence|done].
    + rewrite enrich_one_no_pair by done. apply enrich_raised.
Qed.

Lemma split_trailing (c : ascii) (s : string) :
  exists p ps, Str.split c (s +:+ String c EmptyString) = (p :: ps) ++ [EmptyString].
Proof.
  induction s as [|d s (p & ps & IH)]; simpl.
  - rewrite Ascii.eqb_refl. by exists EmptyString, [].
  - rewrite IH. destruct (Ascii.eqb d c).
    + by exists EmptyString, (p :: ps).
    + by exists (String d p), ps.
Qed.

Lemma get_additional_logs_data_bad_piece (environ : gmap string string)
    (aws_logs_data service logger_name : value) (enrich : string) :
  py_getitem aws_logs_data "logGroup" = Ok service ->
  py_getitem aws_logs_data "logStream" = Ok logger_name ->
  environ !! "ENRICH" = Some enrich -> enrich <> EmptyString ->
  Exists (fun piece => Str.index "=" piece = None) (Str.split ";" enrich) ->
  _get_additional_logs_data environ aws_logs_data = Raise IndexError.
Proof.
  intros Hg Hs He Hne Hex. unfold _get_additional_logs_data.
  rewrite Hg, Hs, He. simpl. destruct enrich as [|c enrich]; [done|].
  by rewrite enrich_some_bad.
Qed.

(** X2.  A piece of the ENRICH string without [=] is fatal: when ENRICH is
    set, not empty, and one of its [;]-separated pieces holds no [=],
    [_get_additional_logs_data] raises IndexError (the [except KeyError] does
    not catch it) and [lambda_handler] ends with it without a call on the
    shipper.  A string that ends in [;] always has such a piece, the empty
    one. *)
Theorem enrichment_malformed :
  (forall (environ : gmap string string) (aws_logs_data service logger_name : value)
          (enrich : string),
      py_getitem aws_logs_data "logGroup" = Ok service ->
      py_getitem aws_logs_data "logStream" = Ok logger_name ->
      environ !! "ENRICH" = Some enrich -> enrich <> EmptyString ->
      Exists (fun piece => Str.index "=" piece = None) (Str.split ";" enrich) ->
      _get_additional_logs_data environ aws_logs_data = Raise IndexError
      /\ forall (L : PyLib) (event : value),
           _extract_aws_logs_data event = Ok aws_logs_data ->
           lambda_handler environ event = ([], Raise IndexError))
  /\ (forall enrich : string,
         Exists (fun piece => Str.index "=" piece = None)
                (Str.split ";" (enrich +:+ ";"))).
Proof.
  split.
  - intros environ aws service logger_name enrich Hg Hs He Hne Hex.
    pose proof (get_additional_logs_data_bad_piece _ _ _ _ _ Hg Hs He Hne Hex) as Hr.
    split; [done|]. intros L event Hd.
    unfold lambda_handler, read_batch. rewrite Hd. simpl. by rewrite Hr.
  - intros enrich. destruct (split_trailing ";" enrich) as (p & ps & ->).
    apply Exists_app. right. by constructor.
Qed.

Lemma enrichment_malformed_witness :
  _get_additional_logs_data Cases.bad_enrich_environ Sample.group_doc = Raise IndexError
  /\ forall (L : PyLib) (event : value),
       _extract_aws_logs_data event = Ok Sample.group_doc ->
       lambda_handler Cases.bad_enrich_environ event = ([], Raise IndexError).
Proof.
  apply (proj1 enrichment_malformed Cases.bad_enrich_environ Sample.group_doc
           (VStr "/ecs/app") (VStr "s") "env=prod;team").
  - reflexivity.
  - reflexivity.
  - reflexivity.
  - discriminate.
  - apply Exists_cons_tl, Exists_cons_hd. reflexivity.
Defined.

Lemma get_additional_logs_data_fields (environ : gmap string string)
    (aws_logs_data : value) (data : gmap string value) :
  _get_additional_logs_data environ aws_logs_data = Ok data ->
  is_Some (data !! "service") /\ is_Some (data !! "logger_name")
  /\ data !! "type" = Some (VStr (type_of environ)).
Proof.
  intros H. unfold _get_additional_logs_data in H.
  destruct (py_getitem aws_logs_data "logGroup") as [service|] eqn:Hg; [|done].
  destruct (py_getitem aws_logs_data "logStream") as [logger|] eqn:Hs; [|done].
  simpl in H.
  assert (forall d : gmap string value,
             is_Some (d !! "service") -> is_Some (d !! "logger_name") ->
             match environ !! "TYPE" with
             | Some type => Ok (<["type" := VStr type]> d)
             | None => Ok (<["type" := VStr "logzio_cloudwatch_lambda"]> d)
             end = Ok data ->
             is_Some (data !! "service") /\ is_Some (data !! "logger_name")
             /\ data !! "type" = Some (VStr (type_of environ))) as Htype.
  { intros d H1 H2. unfold type_of.
    destruct (environ !! "TYPE"); intros [= <-];
      rewrite !lookup_insert_ne by done; by rewrite lookup_insert_eq. }
  assert (forall pieces (d : gmap string value),
             is_Some (d !! "service") -> is_Some (d !! "logger_name") ->
             is_Some (enriched d pieces !! "service")
             /\ is_Some (enriched d pieces !! "logger_name")) as Henr.
  { induction pieces as [|piece pieces IH]; intros d H1 H2; [done|].
    apply (IH (<[pair_key piece := VStr (pair_value piece)]> d));
      rewrite lookup_insert; case_decide; by eauto. }
  assert (is_Some ((<["logger_name" := logger]> (<["service" := service]> ∅)
                     : gmap string value) !! "service")
          /\ is_Some ((<["logger_name" := logger]> (<["service" := service]> ∅)
                         : gmap string value) !! "logger_name")) as [Hb1 Hb2].
  { rewrite lookup_insert_ne, !lookup_insert_eq by done. by eauto. }
  destruct (environ !! "ENRICH") as [enrich|] eqn:He; [|by eapply Htype].
  destruct enrich as [|c enrich]; [by eapply Htype|].
  cbv beta iota in H.
  destruct (foldl enrich_one _ _) as [d|e] eqn:Hfold; [|done]. simpl in H.
  pose proof (enrich_all_inv _ _ _ Hfold) as Hall.
  rewrite enrich_all in Hfold by done. injection Hfold as <-.
  destruct (Henr (Str.split ";" (String c enrich)) _ Hb1 Hb2) as [? ?].
  by eapply Htype.
Qed.

(** X3.  Whenever [_get_additional_logs_data] returns, its result has
    [service] and [logger_name], and its [type] is the value of TYPE, or
    [logzio_cloudwatch_lambda] when TYPE is not set: ENRICH cannot change
    [type].  With ENRICH unset or empty the result is exactly these three
    fields, [service] and [logger_name] being the document's [logGroup] and
    [logStream]. *)
Theorem enrichment_fields :
  (forall (environ : gmap string string) (aws_logs_data : value)
          (data : gmap string value),
      _get_additional_logs_data environ aws_logs_data = Ok data ->
      is_Some (data !! "service") /\ is_Some (data !! "logger_name")
      /\ data !! "type" = Some (VStr (type_of environ)))
  /\ (forall (environ : gmap string string) (aws_logs_data service logger_name : value),
         py_getitem aws_logs_data "logGroup" = Ok service ->
         py_getitem aws_logs_data "logStream" = Ok logger_name ->
         environ !! "ENRICH" = None \/ environ !! "ENRICH" = Some EmptyString ->
         _get_additional_logs_data environ aws_logs_data
         = Ok (<["type" := VStr (type_of environ)]> (base_data service logger_name))).
Proof.
  split; [exact get_additional_logs_data_fields|].
  intros environ aws service logger Hg Hs He. unfold _get_additional_logs_data.
  rewrite Hg, Hs. simpl. unfold type_of, base_data.
  destruct He as [-> | ->]; simpl; by destruct (environ !! "TYPE").
Qed.

Lemma enrichment_fields_witness :
  is_Some (Sample.enriched_data !! "service")
  /\ is_Some (Sample.enriched_data !! "logger_name")
  /\ Sample.enriched_data !! "type" = Some (VStr (type_of Sample.enrich_environ)).
Proof.
  apply (proj1 enrichment_fields Sample.enrich_environ Sample.group_doc
           Sample.enriched_data).
  by vm_compute.
Defined.

(** ** The calls of an invocation *)

Section Calls.
Context {L : PyLib}.
Variable environ : gmap string string.

(** the records handed over are the answers of some of the entries, in the
    order of the entries *)
Lemma delivered_sublist (additional_data : gmap string value) (logEvents : list value) :
  exists kept,
    sublist kept logEvents
    /\ Forall2 (fun entry log =>
                  entry_outcome environ additional_data entry = Ok (true, log))
               kept (delivered environ additional_data logEvents).
Proof.
  induction logEvents as [|x rest (kept & Hsub & Hall)]; simpl.
  - exists []. by split; constructor.
  - destruct (entry_outcome environ additional_data x) as [[[] log]|e] eqn:Hx.
    + exists (x :: kept). split; [by constructor|by constructor].
    + exists kept. split; [by constructor|done].
    + exists []. split; [apply sublist_nil_l|constructor].
Qed.

Lemma non_dict_outcome (additional_data : gmap string value) (entry : value) :
  is_dict entry = false -> entry_outcome environ additional_data entry = Raise TypeError.
Proof. by destruct entry. Qed.

End Calls.

(** X4.  The calls of an invocation, whatever the payload: some [add]s,
    followed by one [flush] exactly when the handler returns, and by nothing
    when it raises.  Nothing is added when the batch cannot be read.  The
    records added are the answers of [_parse_cloudwatch_log] on a
    subsequence of the entries, in the order of the entries: no entry is
    added twice, and none out of order. *)
Theorem handler_calls_shape (L : PyLib) (environ : gmap string string) (event : value) :
  exists records : list (gmap string value),
    (fst (lambda_handler environ event) = map Add records ++ [Flush]
     /\ snd (lambda_handler environ event) = Ok tt
     \/ fst (lambda_handler environ event) = map Add records
        /\ raises (snd (lambda_handler environ event)))
    /\ (forall e, read_batch environ event = Raise e ->
                  records = [] /\ snd (lambda_handler environ event) = Raise e)
    /\ (forall additional_data logEvents,
           read_batch environ event = Ok (additional_data, logEvents) ->
           exists kept,
             sublist kept logEvents
             /\ Forall2 (fun entry log =>
                           entry_outcome environ additional_data entry = Ok (true, log))
                        kept records).
Proof.
  rewrite lambda_handler_spec.
  destruct (read_batch environ event) as [[ad evs]|e].
  - exists (delivered environ ad evs). split; [|split].
    + destruct (batch_error environ ad evs); simpl; [by right|by left].
    + done.
    + intros ? ? [= <- <-]. apply delivered_sublist.
  - exists []. split; [by right|]. split; [by intros ? [= <-]|done].
Qed.

(** X5.  An entry of [logEvents] that is not a dict ends the invocation:
    the handler raises, never calls [flush], and, when the entries before it
    all go through, it has added exactly their surviving records and the
    error is TypeError. *)
Theorem non_dict_entry (L : PyLib) (environ : gmap string string) (event : value)
    (additional_data : gmap string value) (before : list value) (entry : value)
    (after : list value) :
  read_batch environ event = Ok (additional_data, before ++ entry :: after) ->
  is_dict entry = false ->
  (exists e, snd (lambda_handler environ event) = Raise e)
  /\ (Flush ∉ fst (lambda_handler environ event))
  /\ (Forall (fun x => returns (entry_outcome environ additional_data x)) before ->
      lambda_handler environ event
      = (map Add (omap (fun x => survivor (entry_outcome environ additional_data x)) before),
         Raise TypeError)).
Proof.
  intros Hread Hentry.
  pose proof (non_dict_outcome environ additional_data entry Hentry) as Hout.
  assert (raises (entry_outcome environ additional_data entry)) as Hr by by rewrite Hout.
  assert (entry ∈ before ++ entry :: after) as Hin
    by (apply elem_of_app; right; left).
  destruct (handler_aborts environ event _ _ entry Hread Hin Hr) as [He Hf].
  split; [done|]. split; [done|]. intros Hbefore.
  rewrite lambda_handler_spec, Hread.
  destruct (batch_first_raise environ additional_data before entry after TypeError
              Hbefore Hout) as [-> ->]. done.
Qed.

Lemma non_dict_entry_witness :
  (exists e, snd (lambda_handler (L:=Sample.lib) Sample.no_environ Cases.mixed_batch)
             = Raise e)
  /\ (Flush ∉ fst (lambda_handler (L:=Sample.lib) Sample.no_environ Cases.mixed_batch))
  /\ (Forall (fun x => returns (entry_outcome (L:=Sample.lib) Sample.no_environ
                                  Sample.app_data x)) [VDict Cases.hello_items] ->
      lambda_handler (L:=Sample.lib) Sample.no_environ Cases.mixed_batch
      = (map Add (omap (fun x => survivor (entry_outcome (L:=Sample.lib)
                                             Sample.no_environ Sample.app_data x))
                       [VDict Cases.hello_items]),
         Raise TypeError)).
Proof.
  apply (non_dict_entry Sample.lib Sample.no_environ Cases.mixed_batch Sample.app_data
           [VDict Cases.hello_items] (VInt 7) [VDict Cases.bye_items]).
  - by vm_compute.
  - reflexivity.
Defined.

(** ** What an emitted record holds *)

Section Record.
Context {L : PyLib}.
Variable environ : gmap string string.

Lemma add_timestamp_has (log log1 : gmap string value) :
  _add_timestamp log = Ok log1 -> is_Some (log1 !! "@timestamp").
Proof.
  intros H. destruct (log !! "@timestamp") as [x|] eqn:Hat.
  - rewrite add_timestamp_keeps in H by (by rewrite Hat). injection H as <-.
    by rewrite Hat.
  - destruct (log !! "timestamp") as [ts|] eqn:Hts.
    + rewrite (add_timestamp_renames log ts) in H by done. injection H as <-.
      rewrite lookup_delete_ne, lookup_insert_eq by done. by eexists.
    + by rewrite add_timestamp_missing in H.
Qed.

Lemma parsed_record_timestamp (level : option string) (parts : list string)
    (log : gmap string value) :
  is_Some (log !! "@timestamp") -> is_Some (parsed_record level parts log !! "@timestamp").
Proof.
  intros H. assert (is_Some (with_level level log !! "@timestamp")) as Hl.
  { destruct level; simpl; [by rewrite lookup_insert_ne|done]. }
  destruct parts as [|p0 [|p1 [|p2 [|p3 [|p4 ps]]]]]; simpl; try done.
  - rewrite !lookup_insert_ne, lookup_insert_eq by done. by eexists.
  - rewrite !lookup_insert_ne, lookup_insert_eq by done. by eexists.
Qed.

(** the record that goes through the last steps: the message parser has run
    on it for a runtime group *)
Lemma parse_cloudwatch_log_emitted (log additional_data log' : gmap string value) :
  _parse_cloudwatch_log environ log additional_data = Ok (true, log') ->
  exists log1 parsed,
    _add_timestamp log = Ok log1
    /\ is_Some (parsed !! "@timestamp")
    /\ parsed !! "message" <> None
    /\ (forall k, k <> "log_level" -> k <> "@timestamp" -> k <> "requestID" ->
                  k <> "message" -> parsed !! k = log1 !! k)
    /\ finish_log environ parsed additional_data = Ok (true, log').
Proof.
  intros H.
  destruct (parse_cloudwatch_log_inv environ _ _ _ _ H)
    as (log1 & v & service & is_lambda & Hts & Hm & Hsvc & Hin).
  rewrite (parse_cloudwatch_log_steps environ log log1 additional_data v service
             is_lambda Hts Hm Hsvc Hin) in H.
  pose proof (add_timestamp_has _ _ Hts) as Hat.
  set (text := anonymized (py_str v)) in *.
  set (log2 := <["message" := VStr text]> log1) in *.
  assert (is_Some (log2 !! "@timestamp")) as Hat2
    by (unfold log2; by rewrite lookup_insert_ne).
  assert (log2 !! "message" = Some (VStr text)) as Hm2 by apply lookup_insert_eq.
  assert (forall k, k <> "message" -> log2 !! k = log1 !! k) as Ho2
    by (intros k ?; unfold log2; by rewrite lookup_insert_ne).
  destruct is_lambda.
  - destruct (is_noise text); [done|].
    eexists log1, _. split; [done|]. split; [by apply parsed_record_timestamp|].
    split; [|split; [|exact H]].
    + destruct (parsed_record_message (fst (find_level text))
                  (Str.split tab (Str.drop (snd (find_level text)) text)) log2 text Hm2)
        as [s ->]. done.
    + intros k ? ? ? ?. rewrite parsed_record_other by done. by apply Ho2.
  - exists log1, log2. split; [done|]. split; [done|]. split; [by rewrite Hm2|].
    split; [|exact H]. intros k ? ? ? ?. by apply Ho2.
Qed.

End Record.

(** X6.  With JSON flattening off, a record that [_parse_cloudwatch_log]
    answers [True] for: has [@timestamp]; came from a record with [id], and
    has an [id] only if the enrichment data has one; has lost its raw
    [timestamp] when it came without [@timestamp] (unless the enrichment data
    has that key); and keeps, for every key that is neither in the enrichment
    data nor one of [id], [timestamp], [@timestamp], [message], [log_level],
    [requestID], what the input record had there. *)
Theorem emitted_record_keys (L : PyLib) (environ : gmap string string)
    (log additional_data log' : gmap string value) :
  flatten_off environ ->
  _parse_cloudwatch_log environ log additional_data = Ok (true, log') ->
  is_Some (log' !! "@timestamp")
  /\ is_Some (log !! "id")
  /\ log' !! "id" = additional_data !! "id"
  /\ (log !! "@timestamp" = None -> log' !! "timestamp" = additional_data !! "timestamp")
  /\ (forall k, additional_data !! k = None ->
                k <> "id" -> k <> "timestamp" -> k <> "@timestamp" ->
                k <> "message" -> k <> "log_level" -> k <> "requestID" ->
                log' !! k = log !! k).
Proof.
  intros Hoff H.
  destruct (parse_cloudwatch_log_emitted environ _ _ _ H)
    as (log1 & parsed & Hts & Hat & Hmsg & Hother & Hfin).
  unfold finish_log, delitem in Hfin.
  destruct (parsed !! "id") as [i|] eqn:Hid; [|done]. simpl in Hfin.
  rewrite parse_to_json_off in Hfin by done. simpl in Hfin. injection Hfin as <-.
  assert (forall k, additional_data !! k = None ->
             (additional_data ∪ delete "id" parsed) !! k = delete "id" parsed !! k) as Hr
    by (intros k Hk; by apply lookup_union_r).
  split; [|split; [|split; [|split]]].
  - destruct (additional_data !! "@timestamp") as [x|] eqn:Hx.
    + exists x. by apply lookup_union_Some_l.
    + rewrite Hr, lookup_delete_ne by done. done.
  - rewrite Hother in Hid by done.
    rewrite (add_timestamp_other log log1) in Hid by done. by rewrite Hid.
  - destruct (additional_data !! "id") as [x|] eqn:Hx.
    + by apply lookup_union_Some_l.
    + by rewrite Hr, lookup_delete_eq.
  - intros Hno. destruct (additional_data !! "timestamp") as [x|] eqn:Hx.
    + by apply lookup_union_Some_l.
    + rewrite Hr, lookup_delete_ne, Hother by done.
      destruct (log !! "timestamp") as [ts|] eqn:Hraw.
      * rewrite (add_timestamp_renames log ts) in Hts by done. injection Hts as <-.
        by rewrite lookup_delete_eq.
      * by rewrite add_timestamp_missing in Hts.
  - intros k Hk ? ? ? ? ? ?.
    rewrite Hr, lookup_delete_ne, Hother by done.
    by apply add_timestamp_other.
Qed.

Lemma emitted_record_keys_witness :
  is_Some (Cases.start_app_record !! "@timestamp")
  /\ is_Some (Cases.start_app_log !! "id")
  /\ Cases.start_app_record !! "id" = Sample.app_data !! "id"
  /\ (Cases.start_app_log !! "@timestamp" = None ->
      Cases.start_app_record !! "timestamp" = Sample.app_data !! "timestamp")
  /\ (forall k, Sample.app_data !! k = None ->
                k <> "id" -> k <> "timestamp" -> k <> "@timestamp" ->
                k <> "message" -> k <> "log_level" -> k <> "requestID" ->
                Cases.start_app_record !! k = Cases.start_app_log !! k).
Proof.
  apply (emitted_record_keys Sample.lib Sample.no_environ Cases.start_app_log
           Sample.app_data Cases.start_app_record).
  - intros format Hf. by vm_compute in Hf.
  - by vm_compute.
Defined.

(** X7.  For a log group whose [service] does not hold [/aws/lambda/]:
    [_parse_cloudwatch_log] never answers [False], whatever the message
    starts with; and with flattening off, a record with a timestamp key, a
    message and an [id] comes out as the enrichment data laid over the record
    without [id], its message anonymized and not parsed for runtime fields. *)
Theorem plain_group_record :
  (forall (L : PyLib) (environ : gmap string string)
          (log additional_data : gmap string value) (service : value),
      additional_data !! "service" = Some service ->
      py_contains LAMBDA_LOG_GROUP service = Ok false ->
      forall log', _parse_cloudwatch_log environ log additional_data <> Ok (false, log'))
  /\ (forall (L : PyLib) (environ : gmap string string)
             (log additional_data : gmap string value) (v service : value),
         flatten_off environ ->
         additional_data !! "service" = Some service ->
         py_contains LAMBDA_LOG_GROUP service = Ok false ->
         is_Some (log !! "@timestamp") \/ is_Some (log !! "timestamp") ->
         log !! "message" = Some v ->
         is_Some (log !! "id") ->
         exists log1,
           _add_timestamp log = Ok log1
           /\ _parse_cloudwatch_log environ log additional_data
              = Ok (true, additional_data
                          ∪ delete "id" (<["message" := VStr (anonymized (py_str v))]> log1))).
Proof.
  split.
  - intros L environ log ad service Hsvc Hin log' H.
    destruct (parse_cloudwatch_log_inv environ _ _ _ _ H)
      as (log1 & v & service' & is_lambda & Hts & Hm & Hsvc' & Hin').
    rewrite Hsvc in Hsvc'. injection Hsvc' as <-. rewrite Hin in Hin'.
    injection Hin' as <-.
    rewrite (parse_cloudwatch_log_steps environ log log1 ad v service false
               Hts Hm Hsvc Hin) in H.
    unfold finish_log in H.
    destruct (delitem _ "id") as [x|]; [|done]. simpl in H.
    by destruct (_parse_to_json environ _).
  - intros L environ log ad v service Hoff Hsvc Hin Hstamp Hm Hid.
    destruct (add_timestamp_returns log Hstamp) as [log1 Hts]. exists log1.
    split; [done|].
    rewrite (parse_cloudwatch_log_steps environ log log1 ad v service false
               Hts Hm Hsvc Hin).
    apply finish_log_off; [done|].
    rewrite lookup_insert_ne by done.
    by rewrite (add_timestamp_other log log1).
Qed.

Lemma plain_group_record_witness :
  exists log1,
    _add_timestamp Cases.start_app_log = Ok log1
    /\ _parse_cloudwatch_log (L:=Sample.lib) Sample.no_environ Cases.start_app_log
         Sample.app_data
       = Ok (true, Sample.app_data
                   ∪ delete "id" (<["message" := VStr (anonymized (L:=Sample.lib)
                                                         (py_str (VStr "START of the job")))]>
                                    log1)).
Proof.
  apply (proj2 plain_group_record Sample.lib Sample.no_environ Cases.start_app_log
           Sample.app_data (VStr "START of the job") (VStr "/ecs/app")).
  - intros format Hf. by vm_compute in Hf.
  - reflexivity.
  - reflexivity.
  - right. by eexists.
  - reflexivity.
  - by eexists.
Defined.



(** ** The anonymizer and the separators *)

Lemma lit_eq_sep (p c : ascii) :
  is_sep p = true -> Re.lit_eq p c = true -> is_sep c = true.
Proof.
  unfold is_sep. intros [Hp|Hp]%orb_true_iff; apply Ascii.eqb_eq in Hp; subst p;
    destruct c as [[] [] [] [] [] [] [] []]; vm_compute; congruence.
Qed.

Lemma has_sep_app (s t : string) : has_sep (s +:+ t) = has_sep s || has_sep t.
Proof. induction s as [|c s IH]; simpl; [done|]. by rewrite IH, orb_assoc. Qed.

Lemma has_sep_drop (n : nat) (s : string) :
  has_sep s = false -> has_sep (Str.drop n s) = false.
Proof.
  revert s; induction n as [|n IH]; intros s H; [by destruct s|].
  destruct s as [|c s]; [done|]. simpl in *.
  apply orb_false_iff in H as [_ H]. by apply IH.
Qed.

Lemma matches_needs_sep (r : Re.regex) (prev : option ascii) (w rest : string) :
  Re.matches r prev w rest -> needs_sep r = true -> has_sep w = true.
Proof.
  induction 1 as [p c prev rest Hc|cs c prev rest Hc|r1 r2 prev w1 w2 rest _ IH1 _ IH2
                 |r1 r2 prev w rest _ IH|r1 r2 prev w rest _ IH|hi r prev rest
                 |lo hi r prev w1 w2 rest _ IH1 _ IH2|cs prev rest
                 |lo cs c prev w rest Hc _ IH|cs prev rest Hp|cs prev rest Hp];
    simpl; intros Hn; try done.
  - rewrite orb_false_r. by apply (lit_eq_sep p c).
  - rewrite has_sep_app. apply orb_true_iff in Hn as [Hn|Hn];
      [rewrite IH1 by done|rewrite IH2 by done]; by rewrite ?orb_true_r.
  - apply andb_true_iff in Hn as [Hn _]. by apply IH.
  - apply andb_true_iff in Hn as [_ Hn]. by apply IH.
  - apply andb_true_iff in Hn as [_ Hn]. rewrite has_sep_app, IH1 by done. done.
Qed.

Lemma ip_literal_has_sep (prev : option ascii) (w rest : string) :
  ip_literal prev w rest -> has_sep w = true.
Proof. intros (_ & Hm & _). by apply (matches_needs_sep _ _ _ _ Hm). Qed.

Lemma cut_has_sep prev s segs tail :
  cut prev s segs tail -> Forall (fun gm => has_sep (snd gm) = true) segs.
Proof.
  induction 1 as [|prev gap m rest segs tail Hlit _ IH]; constructor; [|done].
  by apply (ip_literal_has_sep _ _ _ Hlit).
Qed.

(** X9.  Every text that [IP_PATTERN] matches holds a colon or a dot: so
    does every match the anonymizer replaces, and a message with neither
    character has no match and comes back unchanged. *)
Theorem anonymizer_needs_separator :
  (forall (prev : option ascii) (w rest : string),
      ip_literal prev w rest -> has_sep w = true)
  /\ (forall msg : string,
         Forall (fun gm => has_sep (snd gm) = true)
                (segments msg 0 (Re.finditer IP_PATTERN msg)))
  /\ (forall (L : PyLib) (msg : string),
         has_sep msg = false ->
         Re.finditer IP_PATTERN msg = [] /\ anonymized msg = msg).
Proof.
  split; [exact ip_literal_has_sep|]. split.
  - intros msg. exact (cut_has_sep _ _ _ _ (finditer_cut msg)).
  - intros L msg Hno.
    assert (Re.finditer IP_PATTERN msg = []) as Hnone.
    { apply no_literal_no_match. intros p _ w rest Hdrop Hlit.
      pose proof (has_sep_drop p msg Hno) as Hd.
      rewrite Hdrop, has_sep_app in Hd. apply orb_false_iff in Hd as [Hd _].
      by rewrite (ip_literal_has_sep _ _ _ Hlit) in Hd. }
    split; [done|]. by apply anonymized_no_match.
Qed.

Lemma anonymizer_needs_separator_witness :
  Re.finditer IP_PATTERN "GET /items/42 took 17 ms" = []
  /\ anonymized (L:=Sample.lib) "GET /items/42 took 17 ms" = "GET /items/42 took 17 ms".
Proof.
  apply (proj2 (proj2 anonymizer_needs_separator) Sample.lib "GET /items/42 took 17 ms").
  reflexivity.
Defined.

(** ** The JSON flattener, once more *)

Lemma foldl_insert_union (items : list (string * value)) :
  forall a m : gmap string value,
    foldl (fun log kv => <[fst kv := snd kv]> log) (a ∪ m) items
    = foldl (fun log kv => <[fst kv := snd kv]> log) a items ∪ m.
Proof.
  induction items as [|kv items IH]; intros a m; simpl; [done|].
  by rewrite insert_union_l, IH.
Qed.

Lemma flatten_union (items : list (string * value)) (log : gmap string value) :
  foldl (fun log kv => <[fst kv := snd kv]> log) log items = dict_of_items items ∪ log.
Proof.
  unfold dict_of_items. rewrite <-foldl_insert_union. by rewrite (left_id_L ∅ (∪)).
Qed.

Section FlattenMore.
Context {L : PyLib}.
Variable environ : gmap string string.

(** what [_parse_to_json] comes to, case by case *)
Lemma parse_to_json_cases (log : gmap string value) :
  (_parse_to_json environ log = Ok log
   /\ (flatten_off environ \/ log !! "message" = None
       \/ exists text e, log !! "message" = Some (VStr text)
                         /\ json_loads text = Raise e
                         /\ is_KeyError e || is_ValueError e = true))
  \/ (exists format v,
        environ !! "FORMAT" = Some format /\ String.eqb (Str.lower format) "json" = true
        /\ log !! "message" = Some v
        /\ ((exists text items,
               v = VStr text /\ json_loads text = Ok (VDict items)
               /\ _parse_to_json environ log = Ok (dict_of_items items ∪ log))
            \/ (exists e, _parse_to_json environ log = Raise e
                          /\ is_KeyError e = false /\ is_ValueError e = false
                          /\ (is_str v = false -> e = TypeError)
                          /\ (forall text doc, v = VStr text -> json_loads text = Ok doc ->
                                               e = AttributeError)))).
Proof.
  destruct (environ !! "FORMAT") as [format|] eqn:Hf.
  2:{ left. assert (flatten_off environ) as Hoff by (intros f Hf'; congruence).
      split; [by apply parse_to_json_off|by left]. }
  destruct (String.eqb (Str.lower format) "json") eqn:Hj.
  2:{ left. assert (flatten_off environ) as Hoff by (intros f Hf'; congruence).
      split; [by apply parse_to_json_off|by left]. }
  destruct (log !! "message") as [v|] eqn:Hm.
  2:{ left. split; [|by right; left].
      unfold _parse_to_json, getenv, getitem. by rewrite Hf, Hm; simpl; rewrite Hj. }
  destruct v as [| | | |text| |];
    try (right; exists format; eexists; split; [done|]; split; [done|]; split; [done|];
         right; exists TypeError;
         split; [by unfold _parse_to_json, getenv, getitem;
                    rewrite Hf, Hm; simpl; rewrite Hj|];
         split; [done|]; split; [done|]; split; [done|]; by intros).
  destruct (json_loads text) as [doc|e] eqn:Hl.
  - destruct (is_dict doc) eqn:Hd.
    + destruct doc as [| | | | | |items]; try done.
      right. exists format, (VStr text). split; [done|]. split; [done|]. split; [done|].
      left. exists text, items. split; [done|]. split; [done|].
      rewrite (parse_to_json_object environ log format text items) by done.
      by rewrite flatten_union.
    + right. exists format, (VStr text). split; [done|]. split; [done|]. split; [done|].
      right. exists AttributeError.
      rewrite (parse_to_json_non_object environ log format text doc) by done.
      split; [done|]. split; [done|]. split; [done|]. split; [done|]. by intros.
  - destruct (is_KeyError e || is_ValueError e) eqn:Hv.
    + left. split; [|right; right; by exists text, e].
      unfold _parse_to_json, getenv, getitem. rewrite Hf, Hm; simpl.
      rewrite Hj; simpl. rewrite Hl; simpl. by rewrite Hv.
    + right. exists format, (VStr text). split; [done|]. split; [done|]. split; [done|].
      right. exists e.
      assert (_parse_to_json environ log = Raise e) as Hr.
      { unfold _parse_to_json, getenv, getitem. rewrite Hf, Hm; simpl.
        rewrite Hj; simpl. rewrite Hl; simpl. by rewrite Hv. }
      apply orb_false_iff in Hv as [Hk Hv].
      split; [done|]. split; [done|]. split; [done|]. split; [done|].
      intros text' doc [= <-] Hd. congruence.
Qed.

End FlattenMore.

(** X10.  [_parse_to_json] never removes a key.  When it returns, the record
    is unchanged or is the JSON object of the message laid over the record
    (FORMAT being [json]); a record without [message] is returned unchanged.
    When it raises, the exception is neither a KeyError nor a ValueError,
    FORMAT is [json] and there is a message: TypeError for a message that is
    not a string, AttributeError for a message whose JSON value is not an
    object. *)
Theorem parse_to_json_keeps (L : PyLib) (environ : gmap string string)
    (log : gmap string value) :
  (log !! "message" = None -> _parse_to_json environ log = Ok log)
  /\ (forall log', _parse_to_json environ log = Ok log' ->
        (forall k, is_Some (log !! k) -> is_Some (log' !! k))
        /\ (log' = log
            \/ exists format text items,
                 environ !! "FORMAT" = Some format
                 /\ String.eqb (Str.lower format) "json" = true
                 /\ log !! "message" = Some (VStr text)
                 /\ json_loads text = Ok (VDict items)
                 /\ log' = dict_of_items items ∪ log))
  /\ (forall e, _parse_to_json environ log = Raise e ->
        is_KeyError e = false /\ is_ValueError e = false
        /\ exists format v,
             environ !! "FORMAT" = Some format
             /\ String.eqb (Str.lower format) "json" = true
             /\ log !! "message" = Some v
             /\ (is_str v = false -> e = TypeError)
             /\ (forall text doc, v = VStr text -> json_loads text = Ok doc ->
                                  is_dict doc = false /\ e = AttributeError)).
Proof.
  destruct (parse_to_json_cases environ log)
    as [[Hsame Hwhy]|(format & v & Hf & Hj & Hm & [(text & items & -> & Hl & Hr)
                                                  |(e & Hr & Hk & Hv & Hty & Hattr)])].
  - split; [done|]. split.
    + intros log' H. rewrite Hsame in H. injection H as <-. split; [done|by left].
    + intros e H. by rewrite Hsame in H.
  - split; [by rewrite Hm|]. split.
    + intros log' H. rewrite Hr in H. injection H as <-. split.
      * intros k [x Hx]. destruct (dict_of_items items !! k) as [y|] eqn:Hy.
        -- exists y. by apply lookup_union_Some_l.
        -- rewrite lookup_union_r by done. by exists x.
      * right. by exists format, text, items.
    + intros e H. by rewrite Hr in H.
  - split; [by rewrite Hm|]. split.
    + intros log' H. by rewrite Hr in H.
    + intros e' H. rewrite Hr in H. injection H as <-.
      split; [done|]. split; [done|]. exists format, v.
      split; [done|]. split; [done|]. split; [done|]. split; [done|].
      intros text doc -> Hl. split; [|by apply (Hattr text doc)].
      destruct (is_dict doc) eqn:Hd; [|done].
      destruct doc as [| | | | | |items]; try done.
      rewrite (parse_to_json_object environ log format text items) in Hr by done.
      done.
Qed.

(** X11.  With FORMAT [json], for a log group that is not a runtime group
    and a record whose anonymized message reads as a JSON object:
    [_parse_cloudwatch_log] answers [True] with the fields of the object laid
    over the enrichment data, laid over the record without [id].  The object
    is read from the message after the anonymizer, and its fields win over
    both the enrichment fields and the record's own. *)
Theorem flattened_record (L : PyLib) (environ : gmap string string)
    (log additional_data : gmap string value) (v service : value) (format : string)
    (items : list (string * value)) :
  environ !! "FORMAT" = Some format -> String.eqb (Str.lower format) "json" = true ->
  additional_data !! "service" = Some service ->
  py_contains LAMBDA_LOG_GROUP service = Ok false ->
  additional_data !! "message" = None ->
  is_Some (log !! "@timestamp") \/ is_Some (log !! "timestamp") ->
  log !! "message" = Some v ->
  is_Some (log !! "id") ->
  json_loads (anonymized (py_str v)) = Ok (VDict items) ->
  exists log1,
    _add_timestamp log = Ok log1
    /\ _parse_cloudwatch_log environ log additional_data
       = Ok (true, dict_of_items items
                   ∪ (additional_data
                      ∪ delete "id" (<["message" := VStr (anonymized (py_str v))]> log1))).
Proof.
  intros Hf Hj Hsvc Hin Hnom Hstamp Hm [i Hid] Hl.
  destruct (add_timestamp_returns log Hstamp) as [log1 Hts]. exists log1.
  split; [done|].
  rewrite (parse_cloudwatch_log_steps environ log log1 additional_data v service false
             Hts Hm Hsvc Hin).
  unfold finish_log, delitem.
  rewrite lookup_insert_ne, (add_timestamp_other log log1), Hid by done. simpl.
  rewrite (parse_to_json_object environ _ format (anonymized (py_str v)) items); try done.
  - simpl. by rewrite flatten_union.
  - rewrite lookup_union_r by done.
    by rewrite lookup_delete_ne, lookup_insert_eq.
Qed.

Lemma flattened_record_witness :
  exists log1,
    _add_timestamp Cases.typed_log = Ok log1
    /\ _parse_cloudwatch_log (L:=Sample.lib) Sample.json_environ Cases.typed_log
         Sample.app_data
       = Ok (true, dict_of_items Cases.typed_items
                   ∪ (Sample.app_data
                      ∪ delete "id"
                          (<["message" := VStr (anonymized (L:=Sample.lib)
                                                  (py_str (VStr Cases.typed_message)))]>
                             log1))).
Proof.
  apply (flattened_record Sample.lib Sample.json_environ Cases.typed_log Sample.app_data
           (VStr Cases.typed_message) (VStr "/ecs/app") "json" Cases.typed_items).
  - reflexivity.
  - reflexivity.
  - reflexivity.
  - reflexivity.
  - reflexivity.
  - right. by eexists.
  - reflexivity.
  - by eexists.
  - by vm_compute.
Defined.

(** ** The runtime message parser, once more *)

Lemma split_join (c : ascii) (parts : list string) :
  parts <> [] -> Forall (fun p => Str.index c p = None) parts ->
  Str.split c (Str.join (String c EmptyString) parts) = parts.
Proof.
  induction parts as [|p parts IH]; [done|]. intros _ Hall.
  apply Forall_cons in Hall as [Hp Hall].
  destruct parts as [|q parts]; [by apply split_no_sep|].
  change (Str.join (String c EmptyString) (p :: q :: parts))
    with (p +:+ String c EmptyString +:+ Str.join (String c EmptyString) (q :: parts)).
  change (String c EmptyString +:+ ?t) with (String c t).
  rewrite (split_at_sep c _ (String.length p)) by (by apply index_at_sep).
  rewrite StrFacts.take_app_length.
  rewrite (drop_S (String.length p) c _
             (Str.join (String c EmptyString) (q :: parts)))
    by apply StrFacts.drop_app_length.
  by rewrite IH.
Qed.

Lemma find_level_no_bracket (line : string) :
  Str.index "[" line = None \/ Str.index "]" line = None ->
  find_level line = (None, 0).
Proof.
  unfold find_level. intros [-> | ->]; [done|]. by destruct (Str.index "[" line).
Qed.

Lemma find_level_prefix (tok rest : string) :
  Str.index "]" tok = None -> Str.lower tok ∈ LOG_LEVELS ->
  let line := "[" +:+ tok +:+ "]" +:+ rest in
  fst (find_level line) = Some tok
  /\ Str.drop (snd (find_level line)) line = Str.drop 1 rest.
Proof.
  intros Htok Hlevel line.
  destruct (bracketed_indices EmptyString tok rest eq_refl eq_refl Htok)
    as (H1 & H2 & H3 & H4).
  change (EmptyString +:+ ?t) with t in *. fold line in H1, H2, H3, H4.
  unfold find_level. rewrite H1, H2. cbv beta iota. rewrite H3.
  rewrite bool_decide_true by done. cbn [fst snd]. by rewrite H4.
Qed.

(** X12.  The runtime message parser recovers the fields of a line: for
    fields without a tab, joined by tabs, either alone on a line that has no
    bracket pair, or after a prefix [[level] ] whose level is one of
    [LOG_LEVELS] in any case, the parser returns the record [parsed_record]
    gives for exactly these fields (and the level as written). *)
Theorem runtime_line_fields :
  (forall (log : gmap string value) (v : value) (level : option string)
          (fields : list string),
      log !! "message" = Some v ->
      fields <> [] -> Forall (fun p => Str.index tab p = None) fields ->
      (level = None
       /\ py_str v = Str.join (String tab EmptyString) fields
       /\ (Str.index "[" (py_str v) = None \/ Str.index "]" (py_str v) = None)
       \/ exists tok,
            level = Some tok
            /\ py_str v = "[" +:+ tok +:+ "] " +:+ Str.join (String tab EmptyString) fields
            /\ Str.index "]" tok = None /\ Str.lower tok ∈ LOG_LEVELS) ->
      _extract_lambda_log_message log = Ok (parsed_record level fields log))
  /\ _extract_lambda_log_message Cases.node_log
     = Ok (<["log_level" := VStr "WARN"]>
             (<["message" := VStr "disk is full"]>
                (<["requestID" := VStr "req-9"]>
                   (<["@timestamp" := VStr "2024-01-01T00:00:00Z"]> Cases.node_log)))).
Proof.
  split; [|by vm_compute].
  intros log v level fields Hm Hne Hfields Hshape.
  assert (fst (find_level (py_str v)) = level
          /\ Str.drop (snd (find_level (py_str v))) (py_str v)
             = Str.join (String tab EmptyString) fields) as [Hl Hd].
  { destruct Hshape as [(-> & Hv & Hb)|(tok & -> & -> & Htok & Hlevel)].
    - rewrite find_level_no_bracket by done. split; [done|].
      cbn [snd]. by rewrite StrFacts.drop_0.
    - change ("[" +:+ tok +:+ "] " +:+ ?r) with ("[" +:+ tok +:+ "]" +:+ String " " r).
      destruct (find_level_prefix tok
                  (String " " (Str.join (String tab EmptyString) fields)) Htok Hlevel)
        as [-> ->].
      split; [done|]. simpl. apply StrFacts.drop_0. }
  rewrite (extract_lambda_log_message_parts log v Hm). cbv zeta. rewrite Hl, Hd.
  by rewrite split_join.
Qed.

Lemma runtime_line_fields_witness :
  _extract_lambda_log_message Cases.node_log
  = Ok (parsed_record None ["2024-01-01T00:00:00Z"; "req-9"; "WARN"; "disk is full"]
          Cases.node_log).
Proof.
  apply (proj1 runtime_line_fields Cases.node_log (VStr Cases.node_line) None
           ["2024-01-01T00:00:00Z"; "req-9"; "WARN"; "disk is full"]).
  - reflexivity.
  - discriminate.
  - by repeat constructor.
  - left. split; [done|]. split; [done|]. by left.
Defined.

(** ** A payload or a document with a field missing *)

(** X13.  A field that is missing ends the invocation with the KeyError of
    that field, before any call on the shipper: [awslogs] or [data] in the
    payload (outside the decoder's [try], so not turned into ValueError),
    then [logGroup], [logStream], and, once the enrichment data is built,
    [logEvents].  A decoded document that is not an object gives TypeError.
    An empty [logEvents] list gives a single [flush]. *)
Theorem batch_missing_fields :
  (forall (L : PyLib) (environ : gmap string string) (items : list (string * value))
          (awslogs : value),
      (dict_of_items items !! "awslogs" = None ->
       lambda_handler environ (VDict items) = ([], Raise (KeyError "awslogs")))
      /\ (dict_of_items items !! "awslogs" = Some awslogs ->
          py_getitem awslogs "data" = Raise (KeyError "data") ->
          lambda_handler environ (VDict items) = ([], Raise (KeyError "data"))))
  /\ (forall (L : PyLib) (environ : gmap string string) (event : value)
             (items : list (string * value)),
         _extract_aws_logs_data event = Ok (VDict items) ->
         (dict_of_items items !! "logGroup" = None ->
          lambda_handler environ event = ([], Raise (KeyError "logGroup")))
         /\ (is_Some (dict_of_items items !! "logGroup") ->
             dict_of_items items !! "logStream" = None ->
             lambda_handler environ event = ([], Raise (KeyError "logStream")))
         /\ (forall additional_data,
                _get_additional_logs_data environ (VDict items) = Ok additional_data ->
                (dict_of_items items !! "logEvents" = None ->
                 lambda_handler environ event = ([], Raise (KeyError "logEvents")))
                /\ (dict_of_items items !! "logEvents" = Some (VList []) ->
                    lambda_handler environ event = ([Flush], Ok tt))))
  /\ (forall (L : PyLib) (environ : gmap string string) (event doc : value),
         _extract_aws_logs_data event = Ok doc -> is_dict doc = false ->
         lambda_handler environ event = ([], Raise TypeError)).
Proof.
  split; [|split].
  - intros L environ items awslogs. split.
    + intros Hno. unfold lambda_handler, read_batch, _extract_aws_logs_data.
      simpl. unfold getitem. by rewrite Hno.
    + intros Hsome Hdata. unfold lambda_handler, read_batch, _extract_aws_logs_data.
      simpl. unfold getitem at 1. rewrite Hsome. simpl. by rewrite Hdata.
  - intros L environ event items Hdoc. split; [|split].
    + intros Hno. unfold lambda_handler, read_batch. rewrite Hdoc. simpl.
      unfold _get_additional_logs_data. simpl. unfold getitem. by rewrite Hno.
    + intros [g Hg] Hno. unfold lambda_handler, read_batch. rewrite Hdoc. simpl.
      unfold _get_additional_logs_data. simpl. unfold getitem. by rewrite Hg, Hno.
    + intros ad Had. split; intros Hev; unfold lambda_handler, read_batch;
        rewrite Hdoc; simpl; rewrite Had; simpl; unfold getitem; by rewrite Hev.
  - intros L environ event doc Hdoc Hnot. unfold lambda_handler, read_batch.
    rewrite Hdoc. simpl. unfold _get_additional_logs_data.
    by destruct doc.
Qed.

Lemma batch_missing_fields_witness :
  lambda_handler (L:=Sample.lib) Sample.no_environ Cases.no_events_batch
  = ([], Raise (KeyError "logEvents")).
Proof.
  refine (proj1 (proj2 (proj2 (proj1 (proj2 batch_missing_fields) Sample.lib
                                 Sample.no_environ Cases.no_events_batch
                                 Cases.no_events_items _)) Sample.app_data _) _).
  - by vm_compute.
  - by vm_compute.
  - reflexivity.
Defined.

(** ** A message that is one address *)

Lemma all_in_app (cs : list Re.citem) (s t : string) :
  all_in cs (s +:+ t) = all_in cs s && all_in cs t.
Proof. induction s as [|c s IH]; simpl; [done|]. by rewrite IH, andb_assoc. Qed.

Lemma all_in_weaken (cs cs' : list Re.citem) (s : string) :
  (forall c, Re.in_set cs c = true -> Re.in_set cs' c = true) ->
  all_in cs s = true -> all_in cs' s = true.
Proof.
  intros Hsub. induction s as [|c s IH]; simpl; [done|].
  intros [Hc Hs]%andb_true_iff. by rewrite (Hsub c Hc), IH.
Qed.

Lemma matches_rep_set (cs : list Re.citem) (d : string) :
  forall lo hi prev rest,
    all_in cs d = true -> lo <= String.length d <= hi ->
    Re.matches (Re.RRep lo hi (Re.RSet cs)) prev d rest.
Proof.
  induction d as [|c d IH]; intros lo hi prev rest Hall [Hlo Hhi]; simpl in *.
  - assert (lo = 0) as -> by lia. constructor.
  - apply andb_true_iff in Hall as [Hc Hd].
    destruct hi as [|hi]; [lia|].
    apply (Re.M_rep_more lo hi (Re.RSet cs) prev (String c EmptyString) d rest).
    + by constructor.
    + apply IH; [done|lia].
Qed.

Lemma matches_group_dot (d : string) (prev : option ascii) (rest : string) :
  is_group d ->
  Re.matches (Re.RSeq (Re.RRep 1 3 Pattern.digit) (Re.RLit ".")) prev (d +:+ ".") rest.
Proof.
  intros [Hlen Hall].
  apply (Re.M_seq _ _ prev d "." rest).
  - by apply matches_rep_set.
  - by constructor.
Qed.

Lemma matches_dotted_quad (d1 d2 d3 d4 : string) (prev : option ascii) (rest : string) :
  is_group d1 -> is_group d2 -> is_group d3 -> is_group d4 ->
  Re.matches Pattern.body prev (dotted_quad d1 d2 d3 d4) rest.
Proof.
  intros H1 H2 H3 [Hlen4 Hall4].
  apply Re.M_alt_l.
  replace (dotted_quad d1 d2 d3 d4)
    with (((d1 +:+ ".") +:+ (d2 +:+ ".") +:+ (d3 +:+ ".") +:+ EmptyString) +:+ d4).
  2:{ unfold dotted_quad. by rewrite StrFacts.app_nil_r, !StrFacts.app_assoc. }
  apply Re.M_seq; [|by apply matches_rep_set].
  apply (Re.M_rep_more 3 2); [by apply matches_group_dot|].
  apply (Re.M_rep_more 2 1); [by apply matches_group_dot|].
  apply (Re.M_rep_more 1 0); [by apply matches_group_dot|].
  constructor.
Qed.

Lemma dotted_quad_guard (d1 d2 d3 d4 : string) :
  is_group d1 -> is_group d2 -> is_group d3 -> is_group d4 ->
  all_in Pattern.guard (dotted_quad d1 d2 d3 d4) = true.
Proof.
  assert (forall d, is_group d -> all_in Pattern.guard d = true) as Hg.
  { intros d [_ Hd]. revert Hd. apply all_in_weaken. intros c.
    destruct c as [[] [] [] [] [] [] [] []]; vm_compute; congruence. }
  intros H1 H2 H3 H4. unfold dotted_quad.
  rewrite !all_in_app, (Hg d1), (Hg d2), (Hg d3), (Hg d4) by done. done.
Qed.

(** after the characters of a match there is only the end of the text left
    to look at *)
Lemma spans_from_skip_all (r : Re.regex) (s : string) :
  forall pos prev,
    Re.match_at r (Re.last_char prev s, EmptyString) = None ->
    Re.spans_from r s (String.length s) pos prev = [].
Proof.
  induction s as [|c s IH]; intros pos prev Hnone; simpl in *.
  - by rewrite Hnone.
  - by apply IH.
Qed.

Lemma match_at_empty (prev : option ascii) :
  Re.match_at IP_PATTERN (prev, EmptyString) = None.
Proof.
  destruct (Re.match_at IP_PATTERN (prev, EmptyString)) as [len|] eqn:Hm; [|done].
  destruct (match_at_sound _ _ _ Hm) as (w & rest & Hs & _ & Hlit).
  apply ip_literal_has_sep in Hlit. by destruct w.
Qed.

Lemma whole_literal_spans (msg : string) :
  ip_literal None msg EmptyString -> all_in Pattern.guard msg = true ->
  Re.finditer IP_PATTERN msg = [(0, String.length msg)].
Proof.
  intros Hlit Hall.
  pose proof (match_at_complete None msg EmptyString Hlit) as [len Hlen].
  rewrite StrFacts.app_nil_r in Hlen.
  destruct (match_at_sound _ _ _ Hlen) as (w & rest & Hs & Hw & (_ & _ & Hnext)).
  assert (rest = EmptyString) as ->.
  { destruct rest as [|c rest]; [done|]. simpl in Hnext.
    rewrite Hs, all_in_app in Hall. apply andb_true_iff in Hall as [_ Hall].
    simpl in Hall. apply andb_true_iff in Hall as [Hc _]. by rewrite Hc in Hnext. }
  rewrite StrFacts.app_nil_r in Hs. subst w.
  pose proof (ip_literal_has_sep _ _ _ Hlit) as Hsep.
  destruct msg as [|c s]; [done|].
  unfold Re.finditer. cbn [Re.spans_from]. rewrite Hlen. rewrite <-Hw.
  cbn [String.length Nat.pred Nat.add].
  by rewrite spans_from_skip_all by apply match_at_empty.
Qed.

(** X14.  A message that is, as a whole, a match of [IP_PATTERN] and made of
    word characters, colons and dots only is replaced by a single token.  In
    particular four groups of one to three digits joined by dots are
    replaced whatever their values: no group is checked against 255. *)
Theorem whole_message_address :
  (forall (L : PyLib) (msg : string),
      ip_literal None msg EmptyString -> all_in Pattern.guard msg = true ->
      Re.finditer IP_PATTERN msg = [(0, String.length msg)]
      /\ anonymized msg = ip_token msg)
  /\ (forall (L : PyLib) (d1 d2 d3 d4 : string),
         is_group d1 -> is_group d2 -> is_group d3 -> is_group d4 ->
         anonymized (dotted_quad d1 d2 d3 d4) = ip_token (dotted_quad d1 d2 d3 d4)).
Proof.
  assert (forall (L : PyLib) (msg : string),
             ip_literal None msg EmptyString -> all_in Pattern.guard msg = true ->
             Re.finditer IP_PATTERN msg = [(0, String.length msg)]
             /\ anonymized msg = ip_token msg) as Hwhole.
  { intros L msg Hlit Hall.
    pose proof (whole_literal_spans msg Hlit Hall) as Hspans. split; [done|].
    unfold anonymized. rewrite Hspans. cbn [foldl fst snd].
    rewrite slice_same. unfold Str.slice. rewrite Nat.sub_0_r, StrFacts.drop_0.
    rewrite StrFacts.drop_all by done.
    pose proof (StrFacts.take_app_length msg EmptyString) as Ht.
    rewrite StrFacts.app_nil_r in Ht. rewrite Ht.
    by rewrite StrFacts.app_nil_r. }
  split; [exact Hwhole|].
  intros L d1 d2 d3 d4 H1 H2 H3 H4. apply Hwhole.
  - split; [done|]. split; [by apply matches_dotted_quad|done].
  - by apply dotted_quad_guard.
Qed.

Lemma whole_message_address_witness :
  anonymized (L:=Sample.lib) (dotted_quad "999" "0" "12" "345")
  = ip_token (L:=Sample.lib) (dotted_quad "999" "0" "12" "345").
Proof.
  apply (proj2 whole_message_address Sample.lib "999" "0" "12" "345");
    (split; [simpl; lia|reflexivity]).
Defined.

(** ** The fields of every record handed to the shipper *)

Lemma enriched_values (pieces : list string) :
  forall (data : gmap string value) (k : string) (v : value),
    enriched data pieces !! k = Some v -> (exists s, v = VStr s) \/ data !! k = Some v.
Proof.
  unfold enriched.
  induction pieces as [|piece pieces IH]; intros data k v H; simpl in *; [by right|].
  destruct (IH _ _ _ H) as [Hs|Hd]; [by left|].
  destruct (decide (pair_key piece = k)) as [<-|Hne].
  - rewrite lookup_insert_eq in Hd. injection Hd as <-. left. by eexists.
  - rewrite lookup_insert_ne in Hd by done. by right.
Qed.

Lemma additional_data_values (environ : gmap string string) (aws_logs_data : value)
    (data : gmap string value) (k : string) (v : value) :
  _get_additional_logs_data environ aws_logs_data = Ok data ->
  data !! k = Some v -> k <> "service" -> k <> "logger_name" ->
  exists s, v = VStr s.
Proof.
  intros H Hk Hs Hl. unfold _get_additional_logs_data in H.
  destruct (py_getitem aws_logs_data "logGroup") as [service|]; [|done].
  destruct (py_getitem aws_logs_data "logStream") as [logger|]; [|done].
  simpl in H.
  assert (forall d : gmap string value,
             (forall x, d !! k = Some x -> exists s, x = VStr s) ->
             match environ !! "TYPE" with
             | Some type => Ok (<["type" := VStr type]> d)
             | None => Ok (<["type" := VStr "logzio_cloudwatch_lambda"]> d)
             end = Ok data ->
             exists s, v = VStr s) as Htype.
  { intros d Hd Heq. destruct (decide (k = "type")) as [->|Hne].
    - destruct (environ !! "TYPE"); injection Heq as <-;
        rewrite lookup_insert_eq in Hk; injection Hk as <-; by eexists.
    - apply Hd. destruct (environ !! "TYPE"); injection Heq as <-;
        by rewrite lookup_insert_ne in Hk. }
  assert (forall x, (<["logger_name" := logger]> (<["service" := service]> ∅)
                      : gmap string value) !! k = Some x -> exists s, x = VStr s) as Hbase.
  { intros x. by rewrite !lookup_insert_ne, lookup_empty. }
  destruct (environ !! "ENRICH") as [enrich|] eqn:He; [|by eapply Htype].
  destruct enrich as [|c enrich]; [by eapply Htype|].
  cbv beta iota in H.
  destruct (foldl enrich_one _ _) as [d|e] eqn:Hfold; [|done]. simpl in H.
  pose proof (enrich_all_inv _ _ _ Hfold) as Hall.
  rewrite enrich_all in Hfold by done. injection Hfold as <-.
  eapply Htype; [|exact H].
  intros x Hx. destruct (enriched_values _ _ _ _ Hx) as [?|Hb]; [done|].
  by apply Hbase.
Qed.

Lemma emitted_timestamp `{PyLib} (environ : gmap string string)
    (log additional_data log' : gmap string value) :
  flatten_off environ ->
  _parse_cloudwatch_log environ log additional_data = Ok (true, log') ->
  is_Some (log' !! "@timestamp").
Proof.
  intros Hoff Hp.
  destruct (parse_cloudwatch_log_emitted environ _ _ _ Hp)
    as (log1 & parsed & Hts & Hat & Hmsg & Hother & Hfin).
  unfold finish_log, delitem in Hfin.
  destruct (parsed !! "id") as [i|] eqn:Hid; [|done]. simpl in Hfin.
  rewrite parse_to_json_off in Hfin by done. simpl in Hfin. injection Hfin as <-.
  destruct (additional_data !! "@timestamp") as [x|] eqn:Hx.
  - exists x. by apply lookup_union_Some_l.
  - rewrite lookup_union_r, lookup_delete_ne by done. done.
Qed.

(** X15.  With JSON flattening off, every record the handler hands to the
    shipper has [@timestamp], a [message] that is a string, [service],
    [logger_name], and [type] equal to TYPE or its default. *)
Theorem shipped_record_fields (L : PyLib) (environ : gmap string string)
    (event : value) (log' : gmap string value) :
  flatten_off environ ->
  Add log' ∈ fst (lambda_handler environ event) ->
  is_Some (log' !! "@timestamp")
  /\ (exists s, log' !! "message" = Some (VStr s))
  /\ is_Some (log' !! "service")
  /\ is_Some (log' !! "logger_name")
  /\ log' !! "type" = Some (VStr (type_of environ)).
Proof.
  intros Hoff Hin. rewrite lambda_handler_spec in Hin.
  destruct (read_batch environ event) as [[ad evs]|e] eqn:Hread;
    [|by apply elem_of_nil in Hin].
  assert (log' ∈ delivered environ ad evs) as Hdel.
  { destruct (batch_error environ ad evs); simpl in Hin.
    - apply list_elem_of_fmap in Hin as (x & [= <-] & Hx). done.
    - apply elem_of_app in Hin as [Hin|Hin].
      + apply list_elem_of_fmap in Hin as (x & [= <-] & Hx). done.
      + apply list_elem_of_singleton in Hin. done. }
  destruct (delivered_from_entry environ ad evs log' Hdel) as (entry & _ & Hout).
  destruct entry as [| | | | | |items]; try done. simpl in Hout.
  unfold read_batch in Hread.
  destruct (_extract_aws_logs_data event) as [aws|]; [|done]. simpl in Hread.
  destruct (_get_additional_logs_data environ aws) as [ad'|] eqn:Had; [|done].
  simpl in Hread.
  destruct (py_getitem aws "logEvents") as [evs'|]; [|done]. simpl in Hread.
  destruct (py_iter evs') as [l|]; [|done]. simpl in Hread.
  injection Hread as -> ->.
  destruct (get_additional_logs_data_fields environ aws ad Had) as ([s Hs] & [n Hn] & Hty).
  split; [exact (emitted_timestamp environ (dict_of_items items) ad log' Hoff Hout)|]. split; [|split; [|split]].
  - destruct (ad !! "message") as [m|] eqn:Hm.
    + destruct (additional_data_values environ aws ad "message" m Had Hm) as [x ->];
        [done|done|].
      exists x. exact (emitted_has_enrichment environ _ ad log' _ _ Hoff Hout Hm).
    + exact (emitted_message_is_string environ _ ad log' Hoff Hm Hout).
  - exists s. exact (emitted_has_enrichment environ _ ad log' _ _ Hoff Hout Hs).
  - exists n. exact (emitted_has_enrichment environ _ ad log' _ _ Hoff Hout Hn).
  - exact (emitted_has_enrichment environ _ ad log' _ _ Hoff Hout Hty).
Qed.

Lemma shipped_record_fields_witness :
  is_Some (Sample.enriched_record !! "@timestamp")
  /\ (exists s, Sample.enriched_record !! "message" = Some (VStr s))
  /\ is_Some (Sample.enriched_record !! "service")
  /\ is_Some (Sample.enriched_record !! "logger_name")
  /\ Sample.enriched_record !! "type" = Some (VStr (type_of Sample.enrich_environ)).
Proof.
  apply (shipped_record_fields Sample.lib Sample.enrich_environ Sample.hello_batch
           Sample.enriched_record).
  - intros format Hf. by vm_compute in Hf.
  - assert (fst (lambda_handler (L:=Sample.lib) Sample.enrich_environ Sample.hello_batch)
            = [Add Sample.enriched_record; Flush]) as -> by (by vm_compute).
    left.
Defined.

(** ** What the runtime message parser leaves alone *)

(** X16.  The runtime message parser fails only for want of [message]
    (KeyError); otherwise it returns, keeps every key of the record, leaves a
    [message] in place and changes nothing but [log_level], [@timestamp],
    [requestID] and [message]. *)
Theorem extract_lambda_log_message_frame (log : gmap string value) :
  (log !! "message" = None ->
   _extract_lambda_log_message log = Raise (KeyError "message"))
  /\ (is_Some (log !! "message") ->
      exists log',
        _extract_lambda_log_message log = Ok log'
        /\ is_Some (log' !! "message")
        /\ (forall k, k <> "log_level" -> k <> "@timestamp" -> k <> "requestID" ->
                      k <> "message" -> log' !! k = log !! k)
        /\ (forall k, is_Some (log !! k) -> is_Some (log' !! k))).
Proof.
  split.
  - intros Hm. unfold _extract_lambda_log_message, getitem. by rewrite Hm.
  - intros [v Hm]. eexists. split; [by apply (extract_lambda_log_message_parts log v)|].
    cbv zeta.
    set (level := fst (find_level (py_str v))).
    set (parts := Str.split tab (Str.drop (snd (find_level (py_str v))) (py_str v))).
    assert (forall k, is_Some (log !! k) ->
                      is_Some (parsed_record level parts log !! k)) as Hkeep.
    { intros k Hk.
      assert (is_Some (with_level level log !! k)) as Hl.
      { destruct level; simpl; [|done]. rewrite lookup_insert. by case_decide. }
      destruct parts as [|p0 [|p1 [|p2 [|p3 [|p4 ps]]]]]; simpl; try done;
        rewrite !lookup_insert; repeat case_decide; by eauto. }
    split; [apply Hkeep; by eexists|]. split; [|done].
    intros k ? ? ? ?. by apply parsed_record_other.
Qed.

Lemma extract_lambda_log_message_frame_witness :
  exists log',
    _extract_lambda_log_message Sample.runtime_log = Ok log'
    /\ is_Some (log' !! "message")
    /\ (forall k, k <> "log_level" -> k <> "@timestamp" -> k <> "requestID" ->
                  k <> "message" -> log' !! k = Sample.runtime_log !! k)
    /\ (forall k, is_Some (Sample.runtime_log !! k) -> is_Some (log' !! k)).
Proof.
  apply (proj2 (extract_lambda_log_message_frame Sample.runtime_log)).
  by eexists.
Defined.
